(** * App-store image tools: a shallow embedding and its verification

    The repository holds two command-line scripts:

    - [tools/crop-for-apple.py] center-crops preview screenshots to an
      Apple App Store size, upscaling first when the source is too small;
    - [tools/generate-feature-graphic.py] asks a generative model for a
      banner and normalises the answer to 1024x500.

    Python integers are [Z], Python floats are IEEE-754 binary64 values
    ([spec_float] at precision 53, with the operations of [SpecFloat]),
    exceptions are an explicit [result] type, and the two [main] functions
    are written in a small trace monad whose effects are the console lines,
    the files written and the requests sent. *)

From Stdlib Require Import ZArith List String Bool Lia.
From Stdlib Require Import SpecFloat.
From Stdlib Require Import Reals Lra.
From Stdlib Require Import Sorted Permutation.
Import ListNotations.

Local Open Scope Z_scope.

(* ================================================================== *)
(** * The Python runtime: exceptions, floats, dictionaries             *)
(* ================================================================== *)

Module Py.

(** Exceptions that the modelled code can meet.  All of them are
    subclasses of [Exception]; [SystemExit] is not one of them and is
    modelled apart, in the process monad. *)
Inductive exn : Type :=
| ZeroDivisionError
| OverflowError
| ValueError
| KeyError
| MemoryError
| DecompressionBombError
| ExternalError (descr : string).

Inductive result (A : Type) : Type :=
| Ok (a : A)
| Raise (e : exn).
Arguments Ok {A} a.
Arguments Raise {A} e.

Definition bind {A B : Type} (r : result A) (k : A -> result B) : result B :=
  match r with
  | Ok a => k a
  | Raise e => Raise e
  end.

Definition is_ok {A : Type} (r : result A) : bool :=
  match r with Ok _ => true | Raise _ => false end.

(** ** Floats: IEEE-754 binary64 *)

Definition prec : Z := 53.
Definition emax : Z := 1024.
Definition float : Type := spec_float.

(** [float(n)] for a Python int: correctly rounded, [OverflowError] when
    the integer is too large for a double. *)
Definition float_of_int (n : Z) : result float :=
  match binary_normalize prec emax n 0 false with
  | S754_infinity _ => Raise OverflowError
  | f => Ok f
  end.

(** [a / b] on two Python ints (true division): the correctly rounded
    quotient, [ZeroDivisionError] on a zero divisor and [OverflowError]
    when the quotient does not fit a double. *)
Definition truediv (a b : Z) : result float :=
  if b =? 0 then Raise ZeroDivisionError
  else
    let s := xorb (a <? 0) (b <? 0) in
    match a with
    | Z0 => Ok (S754_zero s)
    | _ =>
      match SFdiv prec emax
              (S754_finite (a <? 0) (Z.to_pos (Z.abs a)) 0)
              (S754_finite (b <? 0) (Z.to_pos (Z.abs b)) 0) with
      | S754_infinity _ => Raise OverflowError
      | q => Ok q
      end
    end.

(** [n * x] for an int [n] and a float [x]: the int is converted first. *)
Definition int_mul_float (n : Z) (x : float) : result float :=
  bind (float_of_int n) (fun fn => Ok (SFmul prec emax fn x)).

(** [n / x] for an int [n] and a float [x]. *)
Definition int_div_float (n : Z) (x : float) : result float :=
  bind (float_of_int n) (fun fn =>
    match x with
    | S754_zero _ => Raise ZeroDivisionError
    | _ => Ok (SFdiv prec emax fn x)
    end).

(** [int(x)]: truncation toward zero. *)
Definition int_of_float (x : float) : result Z :=
  match x with
  | S754_zero _ => Ok 0
  | S754_finite s m e =>
    let a := match e with
             | Z0 => Zpos m
             | Zpos _ => Zpos m * 2 ^ e
             | Zneg p => Zpos m / 2 ^ Zpos p
             end in
    Ok (if s then - a else a)
  | S754_infinity _ => Raise OverflowError
  | S754_nan => Raise ValueError
  end.

Definition float_lt (x y : float) : bool := SFltb x y.
Definition float_gt (x y : float) : bool := SFltb y x.

(** [max(a, b)] keeps its first argument unless the second is greater. *)
Definition max2 (a b : float) : float := if float_gt b a then b else a.

(** ** Dictionaries with string keys, in insertion order *)

Definition dict (V : Type) : Type := list (string * V).

Fixpoint dict_find {V : Type} (d : dict V) (k : string) : option V :=
  match d with
  | [] => None
  | (k', v) :: d' => if String.eqb k k' then Some v else dict_find d' k
  end.

(** [k in d] *)
Definition dict_mem {V : Type} (k : string) (d : dict V) : bool :=
  match dict_find d k with Some _ => true | None => false end.

(** [d[k]] *)
Definition dict_getitem {V : Type} (d : dict V) (k : string) : result V :=
  match dict_find d k with Some v => Ok v | None => Raise KeyError end.

(** ** Text *)

(** A Python [str] whose content the code inspects: the sequence of its
    code points.  File names, model names and the like, which the code
    only passes on, stay Rocq strings. *)
Definition str : Type := list N.

(** The [str] of an ASCII literal. *)
Definition str_of_ascii (s : string) : str :=
  List.map Ascii.N_of_ascii (String.list_ascii_of_string s).

End Py.

Import Py.

Notation "x <- e ;; k" := (Py.bind e (fun x => k))
  (at level 61, e at next level, right associativity).
Notation "' pat <- e ;; k" := (Py.bind e (fun x => match x with pat => k end))
  (at level 61, pat pattern, e at next level, right associativity).

(* ================================================================== *)
(** * Pillow images                                                    *)
(* ================================================================== *)

Module PIL.

Inductive Mode : Type := RGB | RGBA | OtherMode (name : string).

(** A raster: its size, its pixel format and its pixels.  [px im x y] is
    meaningful for [0 <= x < width] and [0 <= y < height] only. *)
Record Image : Type := mkImage {
  size : Z * Z;
  mode : Mode;
  px : Z -> Z -> Z
}.

Definition width (im : Image) : Z := fst (size im).
Definition height (im : Image) : Z := snd (size im).

(** Pillow's C core keeps coordinates and dimensions in C ints. *)
Definition MAX_DIM : Z := 2 ^ 31 - 1.
Definition c_int (n : Z) : bool := (- 2 ^ 31 <=? n) && (n <=? MAX_DIM).

(** [Image.MAX_IMAGE_PIXELS], and the check Pillow applies to the size
    of an image it opens and to the size of a crop: more than twice
    that many pixels is a decompression bomb. *)
Definition MAX_IMAGE_PIXELS : Z := 89478485.
Definition decompression_bomb (w h : Z) : bool :=
  2 * MAX_IMAGE_PIXELS <? Z.max 1 w * Z.max 1 h.

(** An image as [Image.open] returns it: at least one pixel on each
    axis, and not a decompression bomb. *)
Definition valid_dim (n : Z) : Prop := 0 < n <= MAX_DIM.
Definition valid_image (im : Image) : Prop :=
  valid_dim (width im) /\ valid_dim (height im) /\
  width im * height im <= 2 * MAX_IMAGE_PIXELS.

Definition inside (im : Image) (x y : Z) : bool :=
  (0 <=? x) && (x <? width im) && (0 <=? y) && (y <? height im).

(** Two images are the same picture when size, mode and every pixel
    inside the bounds agree. *)
Definition same_image (a b : Image) : Prop :=
  size a = size b /\ mode a = mode b /\
  forall x y, 0 <= x < width a -> 0 <= y < height a -> px a x y = px b x y.

(** [Image.crop(box)]: the region [box = (left, upper, right, lower)].
    An inverted box is rejected, then a box of more pixels than the
    decompression-bomb limit, then a coordinate that is no C int; the
    part of the box that lies outside the image is filled with zero
    pixels. *)
Definition crop (im : Image) (box : Z * Z * Z * Z) : result Image :=
  let '(l, t, r, b) := box in
  if r <? l then Raise ValueError
  else if b <? t then Raise ValueError
  else if decompression_bomb (r - l) (b - t) then Raise DecompressionBombError
  else if negb (c_int l && c_int t && c_int r && c_int b) then Raise OverflowError
  else Ok {| size := (r - l, b - t);
             mode := mode im;
             px := fun x y => if inside im (x + l) (y + t)
                              then px im (x + l) (y + t) else 0 |}.

(** The resampling filter is Pillow's business: the development is
    parametric in it. *)
Class Resampling : Type := {
  lanczos : Image -> Z * Z -> Z -> Z -> Z
}.

(** Whether the C core finds room to resample a raster of one size into
    a raster of another is the machine's business. *)
Class Memory : Type := {
  allocates : Z * Z -> Z * Z -> bool
}.

(** A resampling that any machine serves: no side of the source or of
    the result is longer than [MODEST_SIDE] pixels, and neither the
    result nor the raster in between, which has the new width and the
    old height, has more than [MODEST_PIXELS] pixels. *)
Definition MODEST_SIDE : Z := 2 ^ 15.
Definition MODEST_PIXELS : Z := 2 ^ 25.
Definition modest (src dst : Z * Z) : bool :=
  (Z.max (fst src) (snd src) <=? MODEST_SIDE) &&
  (Z.max (fst dst) (snd dst) <=? MODEST_SIDE) &&
  (fst dst * snd dst <=? MODEST_PIXELS) &&
  (fst dst * snd src <=? MODEST_PIXELS).

(** A modest resampling is served; a result whose lines are longer than
    [INT_MAX / 4 - 1] pixels is refused whatever the machine; in between
    the machine decides. *)
Definition fits {mem : Memory} (src dst : Z * Z) : bool :=
  modest src dst || ((fst dst <=? MAX_DIM / 4 - 1) && allocates src dst).

(** [Image.resize(size, LANCZOS)]: an image that already has the size
    is copied; otherwise a size that is no pair of C ints, a size below
    1x1 and a resampling that does not fit are rejected, in this order,
    and anything else is resampled. *)
Definition resize `{Resampling} {mem : Memory} (im : Image) (sz : Z * Z) : result Image :=
  let '(w, h) := sz in
  if (w =? width im) && (h =? height im) then Ok im
  else if negb (c_int w && c_int h) then Raise OverflowError
  else if (w <? 1) || (h <? 1) then Raise ValueError
  else if negb (fits (size im) (w, h)) then Raise MemoryError
  else Ok {| size := (w, h); mode := mode im; px := lanczos im (w, h) |}.

End PIL.

Import PIL.

(* ================================================================== *)
(** * Processes: console, files and exit status                        *)
(* ================================================================== *)

Module Proc.

(** How a piece of a script ends: normally, with an exception that is
    still travelling, or through [sys.exit(code)] ([SystemExit] is not
    caught by [except Exception]). *)
Inductive outcome (A : Type) : Type :=
| Done (a : A)
| Raised (e : exn)
| Exited (code : Z).
Arguments Done {A} a.
Arguments Raised {A} e.
Arguments Exited {A} code.

(** A computation extends the trace of effects performed so far. *)
Definition proc (E A : Type) : Type := list E -> outcome A * list E.

Definition ret {E A : Type} (a : A) : proc E A := fun tr => (Done a, tr).

Definition bind {E A B : Type} (p : proc E A) (k : A -> proc E B) : proc E B :=
  fun tr =>
    match p tr with
    | (Done a, tr') => k a tr'
    | (Raised e, tr') => (Raised e, tr')
    | (Exited c, tr') => (Exited c, tr')
    end.

Definition emit {E : Type} (e : E) : proc E unit := fun tr => (Done tt, tr ++ [e]).

Definition lift {E A : Type} (r : result A) : proc E A :=
  fun tr => match r with Ok a => (Done a, tr) | Raise e => (Raised e, tr) end.

Definition sys_exit {E A : Type} (code : Z) : proc E A := fun tr => (Exited code, tr).

(** [try: body except Exception as e: handler e] *)
Definition try_except {E A : Type} (body : proc E A) (handler : exn -> proc E A)
  : proc E A :=
  fun tr =>
    match body tr with
    | (Raised e, tr') => handler e tr'
    | other => other
    end.

Definition run {E A : Type} (p : proc E A) : outcome A * list E := p [].

(** The status the interpreter hands to the shell: 0 after a normal end,
    the argument of [sys.exit], 1 after an uncaught exception. *)
Definition exit_status {A : Type} (o : outcome A) : Z :=
  match o with
  | Done _ => 0
  | Raised _ => 1
  | Exited c => c
  end.

End Proc.

Import Proc.

Notation "x <~ p ;; k" := (Proc.bind p (fun x => k))
  (at level 61, p at next level, right associativity).
Notation "p ;;; k" := (Proc.bind p (fun _ => k))
  (at level 61, right associativity).

(* ================================================================== *)
(** * tools/crop-for-apple.py                                          *)
(* ================================================================== *)

Module CropForApple.

Section Geometry.
Context `{Resampling} {mem : Memory}.

(** The upscale step of [crop_center]: the new size asked of [resize]. *)
Definition upscaled_size (img_width img_height target_width target_height : Z)
  : result (Z * Z) :=
  rw <- truediv target_width img_width ;;
  rh <- truediv target_height img_height ;;
  let scale := max2 rw rh in
  new_width <- (x <- int_mul_float img_width scale ;; int_of_float x) ;;
  new_height <- (x <- int_mul_float img_height scale ;; int_of_float x) ;;
  Ok (new_width, new_height).

Definition needs_upscale (image : Image) (target_width target_height : Z) : bool :=
  (width image <? target_width) || (height image <? target_height).

(** The image after the conditional upscale. *)
Definition upscale (image : Image) (target_width target_height : Z)
  : result Image :=
  if needs_upscale image target_width target_height then
    sz <- upscaled_size (width image) (height image) target_width target_height ;;
    resize image sz
  else Ok image.

(** The centered crop box for an image of the given size. *)
Definition crop_box (img_width img_height target_width target_height : Z)
  : Z * Z * Z * Z :=
  let left := (img_width - target_width) / 2 in
  let top := (img_height - target_height) / 2 in
  let right := left + target_width in
  let bottom := top + target_height in
  (left, top, right, bottom).

Definition crop_center (image : Image) (target_width target_height : Z)
  : result Image :=
  image' <- upscale image target_width target_height ;;
  crop image' (crop_box (width image') (height image') target_width target_height).

End Geometry.

(** ** Configuration *)

Definition INPUT_DIR : string := "previews-ai".
Definition OUTPUT_DIR : string := "previews-apple".

(** Apple App Store dimensions (portrait). *)
Definition APPLE_DIMENSIONS : dict (Z * Z) :=
  [ ("6.7", (1284, 2778));
    ("6.5", (1242, 2688)) ]%string.

Definition DEFAULT_SIZE : string := "6.7".

(** ** The batch driver *)

Inductive message : Type :=
| Banner
| Target (target_width target_height : Z) (size_key : string)
| InputDirNotFound
| RunPreviewGeneratorFirst
| NoPngImagesFound
| FoundImages (n : nat)
| OutputTo (dir : string)
| Processing (name : string)
| Original (w h : Z)
| Cropped (target_width target_height : Z) (size_kb : float)
| Saved (name : string)
| ErrorLine (e : exn)
| Processed (any_success : bool) (success : Z) (total : nat)
| OutputDirectory (dir : string)
| HintSmallerPhone.

Inductive effect : Type :=
| Print (m : message)
| Mkdir (dir : string)
| SavePng (name : string) (im : Image).

(** What the file system answers. *)
Record World : Type := {
  input_dir_exists : bool;
  glob_png : list string;
  open_image : string -> result Image;
  save_png : string -> Image -> result unit;
  stat_size : string -> result Z
}.

(** [sorted(images)] *)
Fixpoint insert_sorted (p : string) (l : list string) : list string :=
  match l with
  | [] => [p]
  | q :: l' => if String.leb p q then p :: q :: l' else q :: insert_sorted p l'
  end.

Fixpoint sorted (l : list string) : list string :=
  match l with
  | [] => []
  | p :: l' => insert_sorted p (sorted l')
  end.

(** The key chosen from the command line. *)
Definition select_size_key (argv : list string) : string :=
  if (1 <? Z.of_nat (List.length argv))
     && dict_mem (nth 1 argv EmptyString) APPLE_DIMENSIONS
  then nth 1 argv EmptyString
  else DEFAULT_SIZE.

Definition target_dimensions (argv : list string) : result (Z * Z) :=
  dict_getitem APPLE_DIMENSIONS (select_size_key argv).

Section Driver.
Context `{Resampling} {mem : Memory}.

(** The body of the [try] block for one input file. *)
Definition process_image (w : World) (target_width target_height : Z)
  (input_path : string) : proc effect unit :=
  emit (Print (Processing input_path)) ;;;
  image <~ lift (open_image w input_path) ;;
  emit (Print (Original (width image) (height image))) ;;;
  cropped <~ lift (crop_center image target_width target_height) ;;
  _ <~ lift (save_png w input_path cropped) ;;
  emit (SavePng input_path cropped) ;;;
  st_size <~ lift (stat_size w input_path) ;;
  size_kb <~ lift (truediv st_size 1024) ;;
  emit (Print (Cropped target_width target_height size_kb)) ;;;
  emit (Print (Saved input_path)) ;;;
  ret tt.

(** The [for] loop, threading the [success] counter. *)
Fixpoint process_images (w : World) (target_width target_height : Z)
  (paths : list string) (success : Z) : proc effect Z :=
  match paths with
  | [] => ret success
  | input_path :: rest =>
    success' <~ try_except
                  (process_image w target_width target_height input_path ;;;
                   ret (success + 1))
                  (fun e => emit (Print (ErrorLine e)) ;;; ret success) ;;
    process_images w target_width target_height rest success'
  end.

(** [main] from the input-directory check to its end, for the target
    selected from the command line. *)
Definition run_batch (w : World) (target_width target_height : Z)
  : proc effect unit :=
  (if negb (input_dir_exists w) then
     emit (Print InputDirNotFound) ;;;
     emit (Print RunPreviewGeneratorFirst) ;;;
     sys_exit 1
   else ret tt) ;;;
  let images := glob_png w in
  (match images with
   | [] => emit (Print NoPngImagesFound) ;;; sys_exit 1
   | _ :: _ => ret tt
   end) ;;;
  emit (Print (FoundImages (List.length images))) ;;;
  emit (Mkdir OUTPUT_DIR) ;;;
  emit (Print (OutputTo OUTPUT_DIR)) ;;;
  success <~ process_images w target_width target_height (sorted images) 0 ;;
  emit (Print (Processed (0 <? success) success (List.length images))) ;;;
  if 0 <? success then
    emit (Print (OutputDirectory OUTPUT_DIR)) ;;;
    emit (Print HintSmallerPhone) ;;;
    ret tt
  else ret tt.

Definition main (argv : list string) (w : World) : proc effect unit :=
  emit (Print Banner) ;;;
  let size_key := select_size_key argv in
  dims <~ lift (dict_getitem APPLE_DIMENSIONS size_key) ;;
  let '(target_width, target_height) := dims in
  emit (Print (Target target_width target_height size_key)) ;;;
  run_batch w target_width target_height.

(** The exit status of [python tools/crop-for-apple.py argv[1:]]. *)
Definition exit_code (argv : list string) (w : World) : Z :=
  exit_status (fst (run (main argv w))).

Definition console (argv : list string) (w : World) : list effect :=
  snd (run (main argv w)).

(** An input file fails when the [try] block raises on it. *)
Definition image_fails (w : World) (target_width target_height : Z)
  (input_path : string) : Prop :=
  exists e tr,
    process_image w target_width target_height input_path [] = (Raised e, tr).

(** Complete failure: there are images, and every one of them fails. *)
Definition complete_failure (argv : list string) (w : World) : Prop :=
  input_dir_exists w = true /\ glob_png w <> [] /\
  exists target_width target_height,
    target_dimensions argv = Ok (target_width, target_height) /\
    forall input_path, In input_path (glob_png w) ->
      image_fails w target_width target_height input_path.

End Driver.

End CropForApple.

(* ================================================================== *)
(** * tools/generate-feature-graphic.py                                *)
(* ================================================================== *)

Module FeatureGraphic.

(** ** Configuration *)

Definition OUTPUT_DIR : string := "feature-graphic".
Definition OUTPUT_FILE : string := "feature-graphic.png".

(** Google Play feature graphic dimensions. *)
Definition OUTPUT_WIDTH : Z := 1024.
Definition OUTPUT_HEIGHT : Z := 500.

Definition BRAND_COLOR : string := "#E0F7EF".

(** Icon paths, in order of preference. *)
Definition ICON_PATHS : list string :=
  [ "assets/icon.png"; "assets/adaptive-icon.png" ]%string.

Section Geometry.
Context `{Resampling} {mem : Memory}.

(** The crop that brings the image to the target aspect ratio, if one
    is needed: [Some box] in the two branches that crop. *)
Definition aspect_crop_box (current_width current_height target_width target_height : Z)
  : result (option (Z * Z * Z * Z)) :=
  target_ratio <- truediv target_width target_height ;;
  current_ratio <- truediv current_width current_height ;;
  if float_gt current_ratio target_ratio then
    new_width <- (x <- int_mul_float current_height target_ratio ;; int_of_float x) ;;
    let left := (current_width - new_width) / 2 in
    Ok (Some (left, 0, left + new_width, current_height))
  else if float_lt current_ratio target_ratio then
    new_height <- (x <- int_div_float current_width target_ratio ;; int_of_float x) ;;
    let top := (current_height - new_height) / 2 in
    Ok (Some (0, top, current_width, top + new_height))
  else Ok None.

(** The image after the aspect crop, before the final resize. *)
Definition aspect_crop (image : Image) (target_width target_height : Z)
  : result Image :=
  box <- aspect_crop_box (width image) (height image) target_width target_height ;;
  match box with
  | Some b => crop image b
  | None => Ok image
  end.

(** The transform of [ensure_exact_size]; its console line, "Final
    size", is printed by the caller in this model. *)
Definition ensure_exact_size (image : Image) (target_width target_height : Z)
  : result Image :=
  image' <- aspect_crop image target_width target_height ;;
  resize image' (target_width, target_height).

End Geometry.

(** ** The generation driver *)

(** What the service sends back. *)
Inductive Payload : Type :=
| Base64 (s : string)
| Raw (bytes : list Z).

(** The SDK's [Blob]: its [mime_type] attribute is always there and may
    hold [None]. *)
Record InlineData : Type := {
  mime_type : option string;
  data : Payload
}.

Record Part : Type := {
  part_type : string;
  inline_data : option InlineData;
  text : option str
}.

Record Response : Type := {
  parts : option (list Part)
}.

Inductive message : Type :=
| Banner
| ApiKeyNotSet
| NoIconFound
| ExpectedLocation (path : string)
| UsingIcon (path : string)
| OutputTo (dir : string)
| TryingModel (model : string)
| UsingModel (model : string)
| NotAvailable (e : exn)
| NoModelAvailable
| GeneratingFeatureGraphic
| IconLoaded (w h : Z)
| GeneratingWithAI
| FoundImageData (mime : string)
| FinalSize (w h : Z)
| Saved (name : string) (size_kb : float)
| NoImageInResponse
| PartWithText (i : nat) (type_name : string) (preview : str)
| PartWithoutText (i : nat) (type_name : string)
| ErrorLine (e : exn)
| Traceback
| Success
| Failed.

Inductive request : Type :=
| SayHello (model : string)
| GenerateBanner (model : string) (icon : Image).

Inductive effect : Type :=
| Print (m : message)
| NewClient (api_key : string)
| Send (r : request)
| Mkdir (dir : string)
| SavePng (name : string) (im : Image).

(** What the environment, the file system, the service and the codecs
    answer. *)
Record World : Type := {
  GOOGLE_API_KEY : option string;
  path_exists : string -> bool;
  open_image : string -> result Image;
  say_hello : string -> result unit;
  generate_content : string -> Image -> result Response;
  b64decode : string -> result (list Z);
  decode_image : list Z -> result Image;
  save_png : string -> Image -> result unit;
  stat_size : string -> result Z
}.

(** Flattening to RGB is Pillow's business as well. *)
Class Compositing : Type := {
  paste_on_white : Image -> Z -> Z -> Z;
  convert_to_rgb : Image -> Z -> Z -> Z
}.

Definition find_icon (w : World) : option string :=
  List.find (path_exists w) ICON_PATHS.

(** [part.text[:80].replace('\n', ' ')], on code points. *)
Definition newline : N := 10.
Definition space : N := 32.

Definition replace_newlines (t : str) : str :=
  List.map (fun c => if N.eqb c newline then space else c) t.

Definition preview (t : str) : str :=
  replace_newlines (List.firstn 80 t).

(** What an f-string shows of an optional string. *)
Definition str_of_optional (o : option string) : string :=
  match o with
  | Some v => v
  | None => "None"
  end.

Section Driver.
Context `{Resampling} `{Compositing} {mem : Memory}.

Definition flatten (image : Image) : Image :=
  match mode image with
  | RGBA => {| size := size image; mode := RGB; px := paste_on_white image |}
  | RGB => image
  | OtherMode _ => {| size := size image; mode := RGB; px := convert_to_rgb image |}
  end.

(** The body of the [if] that has found inline data, up to [return True].
    The default of [getattr(part.inline_data, 'mime_type', 'unknown')]
    never applies, the attribute being always there: an unset type is
    printed as [None]. *)
Definition save_inline_image (w : World) (d : InlineData) : proc effect unit :=
  emit (Print (FoundImageData (str_of_optional (mime_type d)))) ;;;
  bytes <~ lift (match data d with
                 | Base64 s => b64decode w s
                 | Raw b => Ok b
                 end) ;;
  image <~ lift (decode_image w bytes) ;;
  image <~ lift (ensure_exact_size image OUTPUT_WIDTH OUTPUT_HEIGHT) ;;
  emit (Print (FinalSize (width image) (height image))) ;;;
  let image := flatten image in
  _ <~ lift (save_png w OUTPUT_FILE image) ;;
  emit (SavePng OUTPUT_FILE image) ;;;
  st_size <~ lift (stat_size w OUTPUT_FILE) ;;
  size_kb <~ lift (truediv st_size 1024) ;;
  emit (Print (Saved OUTPUT_FILE size_kb)) ;;;
  ret tt.

(** The loop over the parts; [true] when it has returned [True]. *)
Fixpoint scan_parts (w : World) (ps : list Part) : proc effect bool :=
  match ps with
  | [] => ret false
  | part :: rest =>
    match inline_data part with
    | Some d => save_inline_image w d ;;; ret true
    | None => scan_parts w rest
    end
  end.

(** The diagnostic lines, one per part. *)
Definition part_line (i : nat) (part : Part) : message :=
  match text part with
  | Some t =>
    if (List.length t =? 0)%nat then PartWithoutText i (part_type part)
    else PartWithText i (part_type part) (preview t)
  | None => PartWithoutText i (part_type part)
  end.

Fixpoint log_parts (i : nat) (ps : list Part) : proc effect unit :=
  match ps with
  | [] => ret tt
  | part :: rest => emit (Print (part_line i part)) ;;; log_parts (S i) rest
  end.

Definition parts_or_empty (r : Response) : list Part :=
  match parts r with Some ps => ps | None => [] end.

Definition generate_feature_graphic (w : World) (model_name icon_path : string)
  : proc effect bool :=
  try_except
    (icon <~ lift (open_image w icon_path) ;;
     emit (Print (IconLoaded (width icon) (height icon))) ;;;
     emit (Print GeneratingWithAI) ;;;
     emit (Send (GenerateBanner model_name icon)) ;;;
     response <~ lift (generate_content w model_name icon) ;;
     returned <~ scan_parts w (parts_or_empty response) ;;
     if returned then ret true
     else
       emit (Print NoImageInResponse) ;;;
       log_parts 0 (parts_or_empty response) ;;;
       ret false)
    (fun e =>
       emit (Print (ErrorLine e)) ;;;
       emit (Print Traceback) ;;;
       ret false).

(** Image generation models, in order of preference. *)
Definition models_to_try : list string :=
  [ "gemini-3-pro-image-preview"; "gemini-2.5-flash-image" ]%string.

(** The probing loop; the model that answered first, if any. *)
Fixpoint probe_models (w : World) (models : list string) : proc effect (option string) :=
  match models with
  | [] => ret None
  | test_model :: rest =>
    found <~ try_except
               (emit (Print (TryingModel test_model)) ;;;
                emit (Send (SayHello test_model)) ;;;
                _ <~ lift (say_hello w test_model) ;;
                emit (Print (UsingModel test_model)) ;;;
                ret (Some test_model))
               (fun e => emit (Print (NotAvailable e)) ;;; ret None) ;;
    match found with
    | Some m => ret (Some m)
    | None => probe_models w rest
    end
  end.

(** The model the probing loop settles on, and what the loop prints and
    sends on the way. *)
Definition selected_model (w : World) : option string :=
  List.find (fun m => is_ok (say_hello w m)) models_to_try.

Fixpoint probe_log (w : World) (models : list string) : list effect :=
  match models with
  | [] => []
  | test_model :: rest =>
    Print (TryingModel test_model) :: Send (SayHello test_model) ::
    match say_hello w test_model with
    | Ok _ => [Print (UsingModel test_model)]
    | Raise e => Print (NotAvailable e) :: probe_log w rest
    end
  end.

Fixpoint part_lines (i : nat) (ps : list Part) : list effect :=
  match ps with
  | [] => []
  | part :: rest => Print (part_line i part) :: part_lines (S i) rest
  end.

Fixpoint print_expected (paths : list string) : proc effect unit :=
  match paths with
  | [] => ret tt
  | p :: rest => emit (Print (ExpectedLocation p)) ;;; print_expected rest
  end.

Definition api_key_missing (k : option string) : bool :=
  match k with
  | None => true
  | Some s => (String.length s =? 0)%nat
  end.

Definition main (w : World) : proc effect unit :=
  emit (Print Banner) ;;;
  let api_key := GOOGLE_API_KEY w in
  if api_key_missing api_key then
    emit (Print ApiKeyNotSet) ;;;
    sys_exit 1
  else
    emit (NewClient (match api_key with Some k => k | None => EmptyString end)) ;;;
    match find_icon w with
    | None =>
      emit (Print NoIconFound) ;;;
      print_expected ICON_PATHS ;;;
      sys_exit 1
    | Some icon_path =>
      emit (Print (UsingIcon icon_path)) ;;;
      emit (Mkdir OUTPUT_DIR) ;;;
      emit (Print (OutputTo OUTPUT_DIR)) ;;;
      model <~ probe_models w models_to_try ;;
      match model with
      | None =>
        emit (Print NoModelAvailable) ;;;
        sys_exit 1
      | Some model_name =>
        emit (Print GeneratingFeatureGraphic) ;;;
        ok <~ generate_feature_graphic w model_name icon_path ;;
        if ok then emit (Print Success) ;;; ret tt
        else emit (Print Failed) ;;; sys_exit 1
      end
    end.

(** The exit status of [python tools/generate-feature-graphic.py]. *)
Definition exit_code (w : World) : Z := exit_status (fst (run (main w))).

Definition trace (w : World) : list effect := snd (run (main w)).

(** Effects that reach the outside: building the client, any request. *)
Definition touches_service (e : effect) : bool :=
  match e with
  | NewClient _ | Send _ => true
  | _ => false
  end.

Definition writes_file (e : effect) : bool :=
  match e with
  | SavePng _ _ => true
  | _ => false
  end.

End Driver.

End FeatureGraphic.

(* ================================================================== *)
(** * Real values of binary64 floats                                   *)
(* ================================================================== *)

Module Binary64.

(** Powers of two, for any exponent. *)
Definition bpow (e : Z) : R := powerRZ 2 e.

(** The real number [m * 2^e]. *)
Definition F2R (m e : Z) : R := (IZR m * bpow e)%R.

(** A mantissa of exactly 53 bits. *)
Definition normal (m : Z) : Prop := 2 ^ 52 <= m < 2 ^ 53.

(** What the shift register of the rounding procedure knows about the
    real [y] it holds: its floor, and whether bits were dropped. *)
Definition shr_inv (y : R) (mrs : shr_record) : Prop :=
  0 <= shr_m mrs /\
  (IZR (shr_m mrs) <= y < IZR (shr_m mrs) + 1)%R /\
  (orb (shr_r mrs) (shr_s mrs) = true -> (IZR (shr_m mrs) < y)%R).

(** [m * 2^e] is one of the two neighbours of [x] on the grid of step
    [2^e1], the upper one only when [x] is off the grid. *)
Definition faithful (x : R) (m1 e1 m e : Z) : Prop :=
  (F2R m1 e1 <= x < F2R (m1 + 1) e1)%R /\
  (F2R m e = F2R m1 e1 \/ (F2R m e = F2R (m1 + 1) e1 /\ (F2R m1 e1 < x)%R)).

(** The real value of a float. *)
Definition B2R (f : float) : R :=
  match f with
  | S754_finite s m e => F2R (if s then Zneg m else Zpos m) e
  | _ => 0%R
  end.

(** [f] is a positive normal float obtained by rounding [x]. *)
Definition rounded (x : R) (f : float) : Prop :=
  exists m e m1 e1,
    f = S754_finite false m e /\ normal (Zpos m) /\ normal m1 /\
    e1 <= e <= e1 + 1 /\ faithful x m1 e1 (Zpos m) e.

(** Positive integers that a double holds exactly. *)
Definition int53 (n : Z) : Prop := 0 < n < 2 ^ 53.

End Binary64.

Import Binary64.

(* ================================================================== *)
(** * Sample inputs                                                    *)
(* ================================================================== *)

Module Fixtures.

(** A nearest-neighbour filter, standing for Pillow's Lanczos kernel
    where a concrete one is wanted. *)
Definition nearest : Resampling :=
  {| lanczos := fun im sz x y =>
                  px im (x * width im / fst sz) (y * height im / snd sz) |}.

(** The tightest machine: it serves the modest resamplings only. *)
Definition frugal : Memory := {| allocates := fun _ _ => false |}.

Definition keep_pixels : FeatureGraphic.Compositing :=
  {| FeatureGraphic.paste_on_white := px;
     FeatureGraphic.convert_to_rgb := px |}.

(** An image whose pixel value is its own index. *)
Definition ramp (w h : Z) (m : Mode) : Image :=
  mkImage (w, h) m (fun x y => x + w * y).

Definition poster : Image := ramp 2000 3000 RGB.
Definition thumbnail : Image := ramp 800 800 RGB.
Definition landscape : Image := ramp 1536 1024 RGBA.
Definition icon : Image := ramp 1024 1024 RGBA.

(** What the cropper makes of the thumbnail for the default target. *)
Definition cropped_thumbnail : Image :=
  match CropForApple.crop_center (H := nearest) (mem := frugal) thumbnail 1284 2778 with
  | Ok out => out
  | Raise _ => thumbnail
  end.

(** A preview directory whose only file is not an image. *)
Definition unreadable_previews : CropForApple.World :=
  {| CropForApple.input_dir_exists := true;
     CropForApple.glob_png := ["broken.png"%string];
     CropForApple.open_image :=
       fun _ => Raise (ExternalError "cannot identify image file");
     CropForApple.save_png := fun _ _ => Ok tt;
     CropForApple.stat_size := fun _ => Ok 0 |}.

(** A service that answers the banner request with words only. *)
Definition words_only : FeatureGraphic.Response :=
  {| FeatureGraphic.parts :=
       Some [ {| FeatureGraphic.part_type := "Part";
                 FeatureGraphic.inline_data := None;
                 FeatureGraphic.text := Some (str_of_ascii "I cannot draw that.") |} ] |}.

Definition talkative_service : FeatureGraphic.World :=
  {| FeatureGraphic.GOOGLE_API_KEY := Some "secret"%string;
     FeatureGraphic.path_exists := fun _ => true;
     FeatureGraphic.open_image := fun _ => Ok icon;
     FeatureGraphic.say_hello := fun _ => Ok tt;
     FeatureGraphic.generate_content := fun _ _ => Ok words_only;
     FeatureGraphic.b64decode := fun _ => Ok [];
     FeatureGraphic.decode_image := fun _ => Raise (ExternalError "cannot identify image file");
     FeatureGraphic.save_png := fun _ _ => Ok tt;
     FeatureGraphic.stat_size := fun _ => Ok 0 |}.

(** The same machine with no credential in the environment. *)
Definition no_credential : FeatureGraphic.World :=
  {| FeatureGraphic.GOOGLE_API_KEY := None;
     FeatureGraphic.path_exists := fun _ => true;
     FeatureGraphic.open_image := fun _ => Ok icon;
     FeatureGraphic.say_hello := fun _ => Ok tt;
     FeatureGraphic.generate_content := fun _ _ => Ok words_only;
     FeatureGraphic.b64decode := fun _ => Ok [];
     FeatureGraphic.decode_image := fun _ => Raise (ExternalError "cannot identify image file");
     FeatureGraphic.save_png := fun _ _ => Ok tt;
     FeatureGraphic.stat_size := fun _ => Ok 0 |}.

End Fixtures.

(* ================================================================== *)
(** * Reading traces                                                   *)
(* ================================================================== *)

Module Frame.

(** A process is framed when it only appends to the trace it is given
    and its outcome does not depend on that trace. *)
Definition framed {E A : Type} (p : proc E A) : Prop :=
  forall tr, p tr = (fst (p []), tr ++ snd (p [])).

End Frame.

Import Frame.

Module CropTrace.

Import CropForApple.

(** The names on the "Processing" lines of a console, in order. *)
Fixpoint processing_names (tr : list effect) : list string :=
  match tr with
  | [] => []
  | Print (Processing name) :: rest => name :: processing_names rest
  | _ :: rest => processing_names rest
  end.

(** The files written, in order. *)
Fixpoint saved_files (tr : list effect) : list (string * Image) :=
  match tr with
  | [] => []
  | SavePng name im :: rest => (name, im) :: saved_files rest
  | _ :: rest => saved_files rest
  end.

(** The exceptions reported on "Error" lines, in order. *)
Fixpoint error_lines (tr : list effect) : list exn :=
  match tr with
  | [] => []
  | Print (ErrorLine e) :: rest => e :: error_lines rest
  | _ :: rest => error_lines rest
  end.

(** The order [sorted] puts the file names in. *)
Definition name_le (a b : string) : Prop := String.leb a b = true.

(** Effects that change the file system. *)
Definition touches_disk (e : effect) : bool :=
  match e with
  | Mkdir _ | SavePng _ _ => true
  | Print _ => false
  end.

Section Batch.
Context `{Resampling} {mem : Memory}.

(** The [try] block of one file, run on its own. *)
Definition image_run (w : World) (target_width target_height : Z) (input_path : string)
  : outcome unit * list effect :=
  process_image w target_width target_height input_path [].

(** The block reaches its end, [success += 1] included. *)
Definition completes (w : World) (target_width target_height : Z) (input_path : string)
  : bool :=
  match fst (image_run w target_width target_height input_path) with
  | Done _ => true
  | _ => false
  end.

(** What one turn of the loop prints and writes: the block, then the
    handler when the block raised. *)
Definition turn_log (w : World) (target_width target_height : Z) (input_path : string)
  : list effect :=
  snd (image_run w target_width target_height input_path) ++
  match fst (image_run w target_width target_height input_path) with
  | Raised e => [Print (ErrorLine e)]
  | _ => []
  end.

Fixpoint batch_log (w : World) (target_width target_height : Z) (paths : list string)
  : list effect :=
  match paths with
  | [] => []
  | input_path :: rest =>
    turn_log w target_width target_height input_path ++
    batch_log w target_width target_height rest
  end.

(** The number of files of a list that complete. *)
Definition successes (w : World) (target_width target_height : Z) (paths : list string)
  : Z :=
  Z.of_nat (List.length (List.filter (completes w target_width target_height) paths)).

End Batch.

End CropTrace.

Module GraphicTrace.

Import FeatureGraphic.

(** The files written, in order. *)
Fixpoint saved_files (tr : list effect) : list (string * Image) :=
  match tr with
  | [] => []
  | SavePng name im :: rest => (name, im) :: saved_files rest
  | _ :: rest => saved_files rest
  end.

(** The models greeted by the probing loop, in order. *)
Fixpoint greeted (tr : list effect) : list string :=
  match tr with
  | [] => []
  | Send (SayHello model) :: rest => model :: greeted rest
  | _ :: rest => greeted rest
  end.

(** The banner requests sent, in order. *)
Fixpoint banner_requests (tr : list effect) : list (string * Image) :=
  match tr with
  | [] => []
  | Send (GenerateBanner model icon) :: rest => (model, icon) :: banner_requests rest
  | _ :: rest => banner_requests rest
  end.

(** Effects that change the file system. *)
Definition touches_disk (e : effect) : bool :=
  match e with
  | Mkdir _ | SavePng _ _ => true
  | _ => false
  end.

(** The line that announces success. *)
Definition reports_success (e : effect) : bool :=
  match e with
  | Print Success => true
  | _ => false
  end.

(** The line that names the file written. *)
Definition reports_saved (e : effect) : bool :=
  match e with
  | Print (Saved _ _) => true
  | _ => false
  end.

(** The lines that explain a failed generation. *)
Definition reports_failure (e : effect) : bool :=
  match e with
  | Print NoImageInResponse | Print Traceback => true
  | _ => false
  end.

(** The first part that carries inline data. *)
Fixpoint first_inline (ps : list Part) : option InlineData :=
  match ps with
  | [] => None
  | part :: rest =>
    match inline_data part with
    | Some d => Some d
    | None => first_inline rest
    end
  end.

(** The bytes of a payload, decoded from base64 when it is a string. *)
Definition payload_bytes (w : World) (d : InlineData) : result (list Z) :=
  match data d with
  | Base64 s => b64decode w s
  | Raw b => Ok b
  end.

End GraphicTrace.

(* ================================================================== *)
(** * More sample inputs                                               *)
(* ================================================================== *)

Module Samples.

(** An image without width; no decoder produces one, [Image.new] does. *)
Definition blank : Image := Fixtures.ramp 0 10 RGB.

(** An image that already has the size of the feature graphic. *)
Definition banner_sized : Image := Fixtures.ramp 1024 500 RGB.

(** What [ensure_exact_size] makes of the landscape for the feature
    graphic. *)
Definition banner : Image :=
  match FeatureGraphic.ensure_exact_size (H := Fixtures.nearest) (mem := Fixtures.frugal)
          Fixtures.landscape 1024 500 with
  | Ok out => out
  | Raise _ => Fixtures.landscape
  end.

(** A machine on which the preview generator has not run. *)
Definition missing_previews : CropForApple.World :=
  {| CropForApple.input_dir_exists := false;
     CropForApple.glob_png := [];
     CropForApple.open_image := fun _ => Raise (ExternalError "no such file");
     CropForApple.save_png := fun _ _ => Ok tt;
     CropForApple.stat_size := fun _ => Ok 0 |}.

(** Two previews, enumerated out of order; the first by name is not an
    image. *)
Definition mixed_previews : CropForApple.World :=
  {| CropForApple.input_dir_exists := true;
     CropForApple.glob_png := ["b.png"; "a.png"]%string;
     CropForApple.open_image :=
       fun p => if String.eqb p "a.png"
                then Raise (ExternalError "cannot identify image file")
                else Ok Fixtures.poster;
     CropForApple.save_png := fun _ _ => Ok tt;
     CropForApple.stat_size := fun _ => Ok 204800 |}.

(** A decoder that goes by the first byte of the PNG signature. *)
Definition decode_png (bytes : list Z) : result Image :=
  match bytes with
  | 137 :: _ => Ok Fixtures.landscape
  | _ => Raise (ExternalError "cannot identify image file")
  end.

Definition caption : FeatureGraphic.Part :=
  {| FeatureGraphic.part_type := "Part";
     FeatureGraphic.inline_data := None;
     FeatureGraphic.text := Some (str_of_ascii "Here is your banner.") |}.

Definition picture_data : FeatureGraphic.InlineData :=
  {| FeatureGraphic.mime_type := Some "image/png"%string;
     FeatureGraphic.data := FeatureGraphic.Raw [137; 80; 78; 71] |}.

Definition garbage_data : FeatureGraphic.InlineData :=
  {| FeatureGraphic.mime_type := None;
     FeatureGraphic.data := FeatureGraphic.Raw [0; 0] |}.

Definition picture : FeatureGraphic.Part :=
  {| FeatureGraphic.part_type := "Part";
     FeatureGraphic.inline_data := Some picture_data;
     FeatureGraphic.text := None |}.

Definition garbage : FeatureGraphic.Part :=
  {| FeatureGraphic.part_type := "Part";
     FeatureGraphic.inline_data := Some garbage_data;
     FeatureGraphic.text := None |}.

Definition picture_reply : FeatureGraphic.Response :=
  {| FeatureGraphic.parts := Some [caption; picture] |}.

(** A good picture behind a part that does not decode. *)
Definition garbled_reply : FeatureGraphic.Response :=
  {| FeatureGraphic.parts := Some [caption; garbage; picture] |}.

(** A service on which only the second model answers, and only the
    second icon exists. *)
Definition service (reply : FeatureGraphic.Response) : FeatureGraphic.World :=
  {| FeatureGraphic.GOOGLE_API_KEY := Some "secret"%string;
     FeatureGraphic.path_exists := fun p => String.eqb p "assets/adaptive-icon.png";
     FeatureGraphic.open_image := fun _ => Ok Fixtures.icon;
     FeatureGraphic.say_hello :=
       fun m => if String.eqb m "gemini-2.5-flash-image" then Ok tt
                else Raise (ExternalError "404 model not found");
     FeatureGraphic.generate_content := fun _ _ => Ok reply;
     FeatureGraphic.b64decode := fun _ => Ok [137; 80; 78; 71];
     FeatureGraphic.decode_image := decode_png;
     FeatureGraphic.save_png := fun _ _ => Ok tt;
     FeatureGraphic.stat_size := fun _ => Ok 204800 |}.

Definition generous_service : FeatureGraphic.World := service picture_reply.
Definition garbled_service : FeatureGraphic.World := service garbled_reply.

(** A checkout without icons. *)
Definition no_icon_files : FeatureGraphic.World :=
  {| FeatureGraphic.GOOGLE_API_KEY := Some "secret"%string;
     FeatureGraphic.path_exists := fun _ => false;
     FeatureGraphic.open_image := fun _ => Raise (ExternalError "no such file");
     FeatureGraphic.say_hello := fun _ => Ok tt;
     FeatureGraphic.generate_content := fun _ _ => Ok picture_reply;
     FeatureGraphic.b64decode := fun _ => Ok [137; 80; 78; 71];
     FeatureGraphic.decode_image := decode_png;
     FeatureGraphic.save_png := fun _ _ => Ok tt;
     FeatureGraphic.stat_size := fun _ => Ok 204800 |}.

End Samples.

(* ================================================================== *)
(** * Facts about binary64 rounding                                    *)
(* ================================================================== *)

Module Binary64Facts.

(** The model agrees with CPython on the values at stake. *)
Example truediv_61_7 :
  truediv 61 7 = Ok (S754_finite false 4905706736957147 (-49)).
Proof. vm_compute. reflexivity. Qed.

Example int_7_times_61_7 :
  (q <- truediv 61 7 ;; x <- int_mul_float 7 q ;; int_of_float x) = Ok 60.
Proof. vm_compute. reflexivity. Qed.

Example int_2224_times_scale :
  (q <- truediv 2778 2224 ;; x <- int_mul_float 2224 q ;; int_of_float x) = Ok 2777.
Proof. vm_compute. reflexivity. Qed.

Example int_800_times_scale :
  (q <- truediv 2778 800 ;; x <- int_mul_float 800 q ;; int_of_float x) = Ok 2778.
Proof. vm_compute. reflexivity. Qed.

Example truediv_by_zero : truediv 1284 0 = Raise ZeroDivisionError.
Proof. reflexivity. Qed.

Example int_of_negative : 
  (q <- truediv (-7) 2 ;; int_of_float q) = Ok (-3).
Proof. vm_compute. reflexivity. Qed.

Lemma bpow_pos e : (0 < bpow e)%R.
Proof. apply powerRZ_lt; lra. Qed.

Lemma bpow_add a b : bpow (a + b) = (bpow a * bpow b)%R.
Proof. apply powerRZ_add; lra. Qed.

Lemma bpow_Z k : 0 <= k -> bpow k = IZR (2 ^ k).
Proof.
  intros Hk. unfold bpow.
  rewrite <- (Z2Nat.id k) by assumption.
  rewrite <- pow_powerRZ. rewrite pow_IZR. reflexivity.
Qed.

Lemma bpow_le a b : a <= b -> (bpow a <= bpow b)%R.
Proof.
  intros Hab. replace b with (a + (b - a)) by lia.
  rewrite bpow_add. rewrite (bpow_Z (b - a)) by lia.
  assert (0 < 2 ^ (b - a)) by (apply Z.pow_pos_nonneg; lia).
  assert (H1 : 1 <= 2 ^ (b - a)) by lia. clear H. rename H1 into H.
  apply IZR_le in H. pose proof (bpow_pos a). nra.
Qed.

Lemma bpow_lt a b : a < b -> (bpow a < bpow b)%R.
Proof.
  intros Hab. replace b with (a + (b - a)) by lia.
  rewrite bpow_add. rewrite (bpow_Z (b - a)) by lia.
  assert (2 <= 2 ^ (b - a)).
  { replace 2 with (2 ^ 1) at 1 by reflexivity. apply Z.pow_le_mono_r; lia. }
  apply IZR_le in H. pose proof (bpow_pos a). nra.
Qed.

Lemma bpow_lt_inv a b : (bpow a < bpow b)%R -> a < b.
Proof.
  intros Hlt. destruct (Z_lt_le_dec a b) as [|Hle]; [assumption|].
  apply bpow_le in Hle. lra.
Qed.

Lemma F2R_shift m e k : 0 <= k -> F2R m (e + k) = F2R (m * 2 ^ k) e.
Proof.
  intros Hk. unfold F2R. rewrite bpow_add, (bpow_Z k) by assumption.
  rewrite mult_IZR. ring.
Qed.

Lemma F2R_le m1 m2 e : m1 <= m2 -> (F2R m1 e <= F2R m2 e)%R.
Proof.
  intros Hle. unfold F2R. apply IZR_le in Hle. pose proof (bpow_pos e). nra.
Qed.

Lemma F2R_lt_inv m1 m2 e : (F2R m1 e < F2R m2 e)%R -> m1 < m2.
Proof.
  intros Hlt. destruct (Z_lt_le_dec m1 m2) as [|Hle]; [assumption|].
  apply (F2R_le _ _ e) in Hle. lra.
Qed.

Lemma normal_lower m e : normal m -> (bpow (52 + e) <= F2R m e)%R.
Proof.
  intros [Hlo _]. rewrite bpow_add, (bpow_Z 52) by lia.
  unfold F2R. apply IZR_le in Hlo. pose proof (bpow_pos e). nra.
Qed.

Lemma bounded_upper m e : m < 2 ^ 53 -> (F2R m e < bpow (53 + e))%R.
Proof.
  intros Hhi. rewrite bpow_add, (bpow_Z 53) by lia.
  unfold F2R. apply IZR_lt in Hhi. pose proof (bpow_pos e). nra.
Qed.

(** Number of binary digits. *)

Lemma digits2_size p : digits2_pos p = Pos.size p.
Proof. induction p; simpl; congruence. Qed.

Lemma digits_bounds p :
  2 ^ (Zpos (digits2_pos p) - 1) <= Zpos p < 2 ^ Zpos (digits2_pos p).
Proof.
  rewrite digits2_size. split.
  - pose proof (Pos.size_le p) as Hle.
    assert (Hz : 2 ^ Zpos (Pos.size p) <= 2 * Zpos p).
    { change (2 * Zpos p) with (Zpos p~0). rewrite <- Pos2Z.inj_pow. apply Pos2Z.pos_le_pos. exact Hle. }
    replace (Zpos (Pos.size p)) with (Z.succ (Zpos (Pos.size p) - 1)) in Hz by lia.
    rewrite Z.pow_succ_r in Hz by lia. lia.
  - pose proof (Pos.size_gt p) as Hgt.
    rewrite <- Pos2Z.inj_pow. apply Pos2Z.pos_lt_pos. exact Hgt.
Qed.

Lemma digits_unique p k :
  2 ^ (k - 1) <= Zpos p < 2 ^ k -> Zpos (digits2_pos p) = k.
Proof.
  intros [Hlo Hhi]. destruct (digits_bounds p) as [Dlo Dhi].
  assert (0 < k).
  { destruct (Z_lt_le_dec 0 k); [assumption|].
    assert (2 ^ k <= 2 ^ 0) by (apply Z.pow_le_mono_r; lia). simpl in *. lia. }
  assert (Zpos (digits2_pos p) - 1 < k).
  { apply (Z.pow_lt_mono_r_iff 2); lia. }
  assert (k - 1 < Zpos (digits2_pos p)).
  { apply (Z.pow_lt_mono_r_iff 2); lia. }
  lia.
Qed.

(** Right shifts keep the floor and remember whether bits were lost. *)

Lemma shr_1_m mrs : 0 <= shr_m mrs -> shr_m (shr_1 mrs) = shr_m mrs / 2.
Proof.
  destruct mrs as [m r s]. simpl. intros Hm.
  destruct m as [|[p|p|]|p]; cbn [shr_1 shr_m]; try lia; try reflexivity.
  - apply Z.div_unique with 1; lia.
  - apply Z.div_unique with 0; lia.
Qed.

Lemma shr_1_inv y mrs : shr_inv y mrs -> shr_inv (y / 2) (shr_1 mrs).
Proof.
  destruct mrs as [m r s]. unfold shr_inv. simpl. intros (Hm & Hy & Hs).
  destruct m as [|[p|p|]|p]; cbn [shr_1 shr_m shr_r shr_s]; try lia.
  - repeat split; try lia; try lra.
    intros Ho. specialize (Hs Ho). lra.
  - rewrite Pos2Z.inj_xI, plus_IZR, mult_IZR in Hy, Hs.
    repeat split; try lia; try lra.
  - rewrite Pos2Z.inj_xO, mult_IZR in Hy, Hs.
    repeat split; try lia; try lra.
    rewrite orb_false_l. intros Ho. specialize (Hs Ho). lra.
  - repeat split; try lia; try lra.
Qed.

Lemma iter_pos_inv {A : Type} (f : A -> A) (P : Z -> A -> Prop) :
  (forall k x, 0 <= k -> P k x -> P (k + 1) (f x)) ->
  forall p k x, 0 <= k -> P k x -> P (k + Zpos p) (SpecFloat.iter_pos f p x).
Proof.
  intros Hstep. induction p as [p IH|p IH|]; intros k x Hk HP; simpl.
  - rewrite Pos2Z.inj_xI.
    replace (k + (2 * Zpos p + 1)) with (k + 1 + Zpos p + Zpos p) by lia.
    apply IH; [lia|]. apply IH; [lia|]. apply Hstep; assumption.
  - rewrite Pos2Z.inj_xO.
    replace (k + 2 * Zpos p) with (k + Zpos p + Zpos p) by lia.
    apply IH; [lia|]. apply IH; assumption.
  - apply Hstep; assumption.
Qed.

Lemma shr_spec y m r s e n :
  0 <= n ->
  shr_inv y (Build_shr_record m r s) ->
  exists mrs, shr (Build_shr_record m r s) e n = (mrs, e + n) /\
    shr_m mrs = m / 2 ^ n /\ shr_inv (y * bpow (- n)) mrs.
Proof.
  intros Hn Hinv.
  destruct n as [|p|p]; [| |lia].
  - exists (Build_shr_record m r s). simpl. rewrite Z.add_0_r, Z.div_1_r.
    repeat split; try reflexivity.
    + apply Hinv.
    + unfold shr_inv in Hinv; simpl in Hinv.
      destruct Hinv as (_ & Hy & _). unfold bpow; simpl. lra.
    + unfold shr_inv in Hinv; simpl in Hinv.
      destruct Hinv as (_ & Hy & _). unfold bpow; simpl. lra.
    + unfold shr_inv in Hinv; simpl in *.
      destruct Hinv as (_ & _ & Hs). intros Ho. specialize (Hs Ho).
      unfold bpow; simpl. lra.
  - exists (SpecFloat.iter_pos shr_1 p (Build_shr_record m r s)). split; [reflexivity|].
    pose (P := fun (k : Z) (x : shr_record) =>
                 shr_m x = m / 2 ^ k /\ shr_inv (y * bpow (- k)) x).
    assert (HP : P (0 + Zpos p) (SpecFloat.iter_pos shr_1 p (Build_shr_record m r s))).
    { apply iter_pos_inv; [|lia|].
      - intros k x Hk [Hm Hi]. split.
        + rewrite shr_1_m by apply Hi. rewrite Hm.
          rewrite Z.pow_add_r by lia.
          assert (0 < 2 ^ k) by (apply Z.pow_pos_nonneg; lia).
          rewrite Z.div_div by lia. reflexivity.
        + replace (- (k + 1)) with (- k + - (1)) by lia.
          rewrite bpow_add. apply shr_1_inv in Hi.
          replace (y * (bpow (- k) * bpow (- (1))))%R with (y * bpow (- k) / 2)%R; [assumption|].
          unfold bpow at 3. simpl. field.
      - split; [simpl; rewrite Z.div_1_r; reflexivity|].
        replace (y * bpow (- 0))%R with y; [assumption|]. unfold bpow; simpl; lra. }
    exact HP.
Qed.

Lemma fexp_normal e : -1074 <= e - 53 -> fexp prec emax e = e - 53.
Proof. intros He. unfold fexp, emin, prec, emax. lia. Qed.

Lemma shr_record_of_loc_inv (m : Z) (l : location) (y : R) :
  0 <= m -> (IZR m <= y < IZR m + 1)%R -> (l <> loc_Exact -> (IZR m < y)%R) ->
  exists r s, shr_record_of_loc m l = Build_shr_record m r s /\
              shr_inv y (Build_shr_record m r s).
Proof.
  intros Hm Hy Hl.
  destruct l as [|[]]; simpl; eexists; eexists; (split; [reflexivity|]);
    unfold shr_inv; simpl; repeat split; try lia; try lra;
    intros Ho; try discriminate Ho; apply Hl; discriminate.
Qed.

Lemma round_nearest_even_cases mrs :
  let m := shr_m mrs in
  let m' := round_nearest_even m (loc_of_shr_record mrs) in
  m' = m \/ (m' = m + 1 /\ orb (shr_r mrs) (shr_s mrs) = true).
Proof.
  destruct mrs as [m [] []]; simpl; auto.
  destruct (Z.even m); auto.
Qed.

Lemma binary_round_aux_normal pm ex lx y0 :
  let d := Zpos (digits2_pos pm) in
  53 <= d -> -1074 <= d + ex - 53 -> d + ex - 53 < 971 ->
  (IZR (Zpos pm) <= y0 < IZR (Zpos pm) + 1)%R ->
  (lx <> loc_Exact -> (IZR (Zpos pm) < y0)%R) ->
  exists m e,
    binary_round_aux prec emax false (Zpos pm) ex lx = S754_finite false m e /\
    normal (Zpos m) /\ ex + d - 53 <= e <= ex + d - 52 /\
    normal (Zpos pm / 2 ^ (d - 53)) /\
    faithful (y0 * bpow ex) (Zpos pm / 2 ^ (d - 53)) (ex + d - 53) (Zpos m) e.
Proof.
  intros d Hd Hlo Hhi Hy Hl.
  set (n := d - 53). set (m1 := Zpos pm / 2 ^ n). set (e1 := ex + d - 53).
  assert (Hn : 0 <= n) by (unfold n; lia).
  assert (Hpn : 0 < 2 ^ n) by (apply Z.pow_pos_nonneg; lia).
  assert (Hm1 : normal m1).
  { destruct (digits_bounds pm) as [Dlo Dhi]. fold d in Dlo, Dhi. unfold normal, m1.
    replace (d - 1) with (52 + n) in Dlo by (unfold n; lia).
    replace d with (53 + n) in Dhi by (unfold n; lia).
    rewrite Z.pow_add_r in Dlo, Dhi by lia. split.
    - apply Z.div_le_lower_bound; lia.
    - apply Z.div_lt_upper_bound; lia. }
  destruct (shr_record_of_loc_inv (Zpos pm) lx y0) as (r & s & Hrec & Hinv0);
    [lia | exact Hy | exact Hl |].
  destruct (shr_spec y0 (Zpos pm) r s ex n Hn Hinv0) as (mrs1 & Hshr & Hmrs1 & Hinv1).
  fold m1 in Hmrs1.
  unfold binary_round_aux, shr_fexp.
  change (Zdigits2 (Zpos pm)) with d.
  rewrite fexp_normal by lia.
  replace (d + ex - 53 - ex) with n by (unfold n; lia).
  rewrite Hrec, Hshr.
  replace (ex + n) with e1 by (unfold e1, n; lia).
  set (m2 := round_nearest_even (shr_m mrs1) (loc_of_shr_record mrs1)).
  pose proof (round_nearest_even_cases mrs1) as Hround. cbv zeta in Hround.
  fold m2 in Hround. rewrite Hmrs1 in Hround.
  destruct Hinv1 as (_ & Hy1 & Hs1). rewrite Hmrs1 in Hy1, Hs1.
  assert (Hx : (y0 * bpow ex = y0 * bpow (- n) * bpow e1)%R).
  { rewrite Rmult_assoc, <- bpow_add. f_equal. f_equal. unfold e1, n. lia. }
  assert (Hfloor : (F2R m1 e1 <= y0 * bpow ex < F2R (m1 + 1) e1)%R).
  { rewrite Hx. unfold F2R. rewrite plus_IZR. pose proof (bpow_pos e1). nra. }
  destruct (Z.eq_dec m2 (2 ^ 53)) as [Hovf|Hnovf].
  - (* the rounded mantissa needs one more bit *)
    assert (Hup : m2 = m1 + 1 /\ (shr_r mrs1 || shr_s mrs1)%bool = true).
    { destruct Hround as [Heq|Hup]; [|exact Hup]. destruct Hm1. lia. }
    destruct Hup as [Hm2 Hor]. specialize (Hs1 Hor).
    rewrite Hovf.
    exists (Z.to_pos (2 ^ 52)), (e1 + 1).
    split; [|split; [|split; [|split]]].
    + change (Zdigits2 (2 ^ 53)) with 54.
      rewrite fexp_normal by (unfold e1; lia).
      replace (54 + e1 - 53 - e1) with 1 by lia.
      cbn. 
      match goal with
      | |- context [?a <=? ?b] =>
        destruct (Z.leb_spec a b); [reflexivity | exfalso; unfold e1 in *; lia]
      end.
    + unfold normal. simpl. lia.
    + unfold e1. lia.
    + exact Hm1.
    + split; [exact Hfloor|]. right. split.
      * rewrite F2R_shift by lia. f_equal. rewrite <- Hm2, Hovf. reflexivity.
      * rewrite Hx. unfold F2R. pose proof (bpow_pos e1). nra.
  - assert (Hm2 : normal m2).
    { destruct Hm1. destruct Hround as [Heq|[Heq _]]; unfold normal; lia. }
    assert (Hpos : exists p2, m2 = Zpos p2).
    { destruct Hm2. destruct m2; try lia. eauto. }
    destruct Hpos as [p2 Hp2].
    exists p2, e1.
    split; [|split; [|split; [|split]]].
    + rewrite Hp2. cbn [shr_record_of_loc Zdigits2].
      rewrite (digits_unique p2 53) by (rewrite <- Hp2; exact Hm2).
      rewrite fexp_normal by (unfold e1; lia).
      replace (53 + e1 - 53 - e1) with 0 by lia.
      cbn.
      match goal with
      | |- context [?a <=? ?b] =>
        destruct (Z.leb_spec a b); [reflexivity | exfalso; unfold e1 in *; lia]
      end.
    + rewrite <- Hp2. exact Hm2.
    + unfold e1. lia.
    + exact Hm1.
    + rewrite <- Hp2. split; [exact Hfloor|].
      destruct Hround as [Heq|[Heq Hor]].
      * left. rewrite Heq. reflexivity.
      * right. split; [rewrite Heq; reflexivity|].
        specialize (Hs1 Hor). rewrite Hx. unfold F2R. pose proof (bpow_pos e1). nra.
Qed.

Lemma rounded_ge x f mg eg :
  rounded x f -> mg < 2 ^ 53 -> (F2R mg eg <= x)%R -> (F2R mg eg <= B2R f)%R.
Proof.
  intros (m & e & m1 & e1 & -> & Hm & Hm1 & He & [Hx Hf]) Hmg Hle. simpl.
  assert (Hfloor : (F2R m1 e1 <= F2R (Zpos m) e)%R).
  { destruct Hf as [->|[-> _]]; [lra|]. apply F2R_le. lia. }
  apply Rle_trans with (F2R m1 e1); [|exact Hfloor].
  destruct (Z_lt_le_dec eg e1) as [Hlt|Hge].
  - pose proof (bounded_upper mg eg Hmg). pose proof (normal_lower m1 e1 Hm1).
    assert (bpow (53 + eg) <= bpow (52 + e1))%R by (apply bpow_le; lia). lra.
  - replace eg with (e1 + (eg - e1)) in * by lia.
    rewrite F2R_shift in * by lia. apply F2R_le.
    assert (mg * 2 ^ (eg - e1) < m1 + 1); [|lia].
    apply (F2R_lt_inv _ _ e1). lra.
Qed.

Lemma rounded_le x f mg eg :
  rounded x f -> mg < 2 ^ 53 -> (x <= F2R mg eg)%R -> (B2R f <= F2R mg eg)%R.
Proof.
  intros (m & e & m1 & e1 & -> & Hm & Hm1 & He & [Hx Hf]) Hmg Hle. simpl.
  destruct Hf as [->|[-> Hinex]]; [lra|].
  destruct (Z_lt_le_dec eg e1) as [Hlt|Hge].
  - pose proof (bounded_upper mg eg Hmg). pose proof (normal_lower m1 e1 Hm1).
    assert (bpow (53 + eg) <= bpow (52 + e1))%R by (apply bpow_le; lia). lra.
  - replace eg with (e1 + (eg - e1)) in * by lia.
    rewrite F2R_shift in * by lia. apply F2R_le.
    assert (m1 < mg * 2 ^ (eg - e1)); [|lia].
    apply (F2R_lt_inv _ _ e1). lra.
Qed.

Lemma rounded_pos x f : rounded x f -> (0 < B2R f)%R.
Proof.
  intros (m & e & m1 & e1 & -> & Hm & _). simpl.
  pose proof (normal_lower _ e Hm). pose proof (bpow_pos (52 + e)). lra.
Qed.

Lemma rounded_exponent x f lo hi :
  rounded x f -> (bpow lo <= x < bpow hi)%R ->
  exists m e, f = S754_finite false m e /\ normal (Zpos m) /\ lo - 53 <= e <= hi - 52.
Proof.
  intros (m & e & m1 & e1 & -> & Hm & Hm1 & He & [Hx Hf]) Hb.
  exists m, e. split; [reflexivity|]. split; [assumption|].
  pose proof (normal_lower m1 e1 Hm1).
  assert (Hup : (F2R (m1 + 1) e1 <= bpow (53 + e1))%R).
  { rewrite bpow_add, (bpow_Z 53) by lia. unfold F2R.
    destruct Hm1 as [_ Hhi]. assert (Hle : m1 + 1 <= 2 ^ 53) by lia.
    apply IZR_le in Hle. pose proof (bpow_pos e1). nra. }
  assert (52 + e1 < hi) by (apply bpow_lt_inv; lra).
  assert (lo < 53 + e1) by (apply bpow_lt_inv; lra).
  lia.
Qed.

(** Comparison of normal floats follows their values. *)

Lemma SFltb_normal m e m' e' :
  normal (Zpos m) -> normal (Zpos m') ->
  SFltb (S754_finite false m e) (S754_finite false m' e') = true <->
  (F2R (Zpos m) e < F2R (Zpos m') e')%R.
Proof.
  intros Hm Hm'. unfold SFltb, SFcompare.
  destruct (Z.compare_spec e e') as [Heq|Hlt|Hgt].
  - subst e'. rewrite Pos.compare_cont_spec. simpl.
    destruct (Pos.compare_spec m m') as [Heq|Hlt|Hgt]; split; intros Hc;
      try reflexivity; try discriminate Hc.
    + subst. lra.
    + unfold F2R. apply Pos2Z.pos_lt_pos in Hlt. apply IZR_lt in Hlt.
      pose proof (bpow_pos e). nra.
    + apply F2R_lt_inv in Hc. lia.
  - split; [intros _|reflexivity].
    pose proof (bounded_upper (Zpos m) e (proj2 Hm)).
    pose proof (normal_lower _ e' Hm').
    assert (bpow (53 + e) <= bpow (52 + e'))%R by (apply bpow_le; lia). lra.
  - split; [discriminate|intros Hc].
    pose proof (bounded_upper (Zpos m') e' (proj2 Hm')).
    pose proof (normal_lower _ e Hm).
    assert (bpow (53 + e') <= bpow (52 + e))%R by (apply bpow_le; lia). lra.
Qed.

Lemma new_location_inexact nb k :
  new_location nb k <> loc_Exact -> k <> 0.
Proof.
  unfold new_location, new_location_even, new_location_odd.
  intros Hne ->. destruct (Z.even nb); simpl in Hne; apply Hne; reflexivity.
Qed.

Lemma SFdiv_rounded pa ea pb eb :
  let da := Zpos (digits2_pos pa) in
  let db := Zpos (digits2_pos pb) in
  da <= 53 -> db <= 53 ->
  -1074 <= da + ea - (db + eb) - 53 -> da + ea - (db + eb) - 53 < 969 ->
  rounded (F2R (Zpos pa) ea / F2R (Zpos pb) eb)
          (SFdiv prec emax (S754_finite false pa ea) (S754_finite false pb eb)).
Proof.
  intros da db Hda Hdb Hlo Hhi.
  assert (Hda1 : 1 <= da) by (unfold da; lia).
  assert (Hdb1 : 1 <= db) by (unfold db; lia).
  set (e' := da + ea - (db + eb) - 53).
  set (s := 53 + db - da).
  assert (Hs : 0 < s) by (unfold s; lia).
  unfold SFdiv, SFdiv_core_binary.
  change (Zdigits2 (Zpos pa)) with da. change (Zdigits2 (Zpos pb)) with db.
  rewrite fexp_normal by lia. fold e'.
  replace (Z.min e' (ea - eb)) with e' by (unfold e'; lia).
  replace (ea - eb - e') with s by (unfold e', s; lia).
  assert (Hm' : match s with
                | 0 => Zpos pa
                | Zpos _ => Z.shiftl (Zpos pa) s
                | Zneg _ => 0
                end = Zpos pa * 2 ^ s).
  { destruct s; try lia. apply Z.shiftl_mul_pow2. lia. }
  rewrite Hm'. clear Hm'.
  set (m' := Zpos pa * 2 ^ s).
  pose proof (Z_div_mod m' (Zpos pb) eq_refl) as Hdm.
  destruct (Z.div_eucl m' (Zpos pb)) as [q r]. destruct Hdm as [Hq Hr].
  destruct (digits_bounds pa) as [Alo Ahi]. fold da in Alo, Ahi.
  destruct (digits_bounds pb) as [Blo Bhi]. fold db in Blo, Bhi.
  assert (Hps : 0 < 2 ^ s) by (apply Z.pow_pos_nonneg; lia).
  assert (Hqlo : 2 ^ 52 * Zpos pb < m').
  { unfold m'. apply Z.lt_le_trans with (2 ^ 52 * 2 ^ db).
    - apply Z.mul_lt_mono_pos_l; lia.
    - rewrite <- Z.pow_add_r by lia. replace (52 + db) with (da - 1 + s) by (unfold s; lia).
      rewrite Z.pow_add_r by lia. apply Z.mul_le_mono_nonneg_r; lia. }
  assert (Hqhi : m' < 2 ^ 54 * Zpos pb).
  { unfold m'. apply Z.lt_le_trans with (2 ^ da * 2 ^ s).
    - apply Z.mul_lt_mono_pos_r; lia.
    - rewrite <- Z.pow_add_r by lia. replace (da + s) with (54 + (db - 1)) by (unfold s; lia).
      rewrite Z.pow_add_r by lia. apply Z.mul_le_mono_nonneg_l; lia. }
  assert (Hqb : 2 ^ 52 <= q < 2 ^ 54) by nia.
  destruct q as [|pq|pq]; try lia.
  pose (dq := Zpos (digits2_pos pq)).
  assert (Hdq : 53 <= dq <= 54).
  { destruct (digits_bounds pq) as [Qlo Qhi]. fold dq in Qlo, Qhi.
    assert (52 < dq) by (apply (Z.pow_lt_mono_r_iff 2); lia).
    assert (dq - 1 < 54) by (apply (Z.pow_lt_mono_r_iff 2); lia).
    lia. }
  set (y0 := (IZR m' / IZR (Zpos pb))%R).
  assert (Hbpos : (0 < IZR (Zpos pb))%R) by (apply IZR_lt; lia).
  assert (Hy0 : (y0 * IZR (Zpos pb) = IZR m')%R) by (unfold y0; field; lra).
  assert (Hm'R : IZR m' = (IZR (Zpos pb) * IZR (Zpos pq) + IZR r)%R).
  { rewrite Hq, plus_IZR, mult_IZR. reflexivity. }
  assert (HrR : (0 <= IZR r < IZR (Zpos pb))%R).
  { split; [apply IZR_le|apply IZR_lt]; lia. }
  destruct (binary_round_aux_normal pq e' (new_location (Zpos pb) r) y0)
    as (m & e & Hbra & Hm & He & Hm1 & Hf).
  - fold dq. lia.
  - fold dq. lia.
  - fold dq. lia.
  - split; nra.
  - intros Hne. apply new_location_inexact in Hne.
    assert (0 < r) by lia. assert (0 < IZR r)%R by (apply IZR_lt; lia). nra.
  - simpl xorb. rewrite Hbra. fold dq in He, Hm1, Hf.
    exists m, e, (Zpos pq / 2 ^ (dq - 53)), (e' + dq - 53).
    split; [reflexivity|]. split; [exact Hm|]. split; [exact Hm1|].
    split; [lia|].
    replace (F2R (Zpos pa) ea / F2R (Zpos pb) eb)%R with (y0 * bpow e')%R; [exact Hf|].
    assert (Hea : bpow ea = (bpow eb * (bpow s * bpow e'))%R).
    { rewrite <- !bpow_add. f_equal. unfold s, e'. lia. }
    unfold y0, F2R, m'. rewrite mult_IZR, <- (bpow_Z s), Hea by lia.
    field. split; [pose proof (bpow_pos eb); lra | lra].
Qed.

(** Ints below [2^53] convert exactly. *)

Lemma pos_iter_xO p d : Zpos (Pos.iter xO p d) = Zpos p * 2 ^ Zpos d.
Proof.
  induction d as [|d IH] using Pos.peano_ind.
  - simpl. lia.
  - rewrite Pos.iter_succ, Pos2Z.inj_xO, IH, Pos2Z.inj_succ, Z.pow_succ_r by lia. ring.
Qed.

Lemma float_of_int_exact n :
  0 < n < 2 ^ 53 ->
  exists m e, float_of_int n = Ok (S754_finite false m e) /\
              normal (Zpos m) /\ -52 <= e <= 0 /\ F2R (Zpos m) e = IZR n.
Proof.
  intros Hn. destruct n as [|pn|pn]; try lia.
  unfold float_of_int, binary_normalize, binary_round.
  set (dn := Zpos (digits2_pos pn)).
  destruct (digits_bounds pn) as [Nlo Nhi]. fold dn in Nlo, Nhi.
  assert (Hdn : 1 <= dn <= 53).
  { split; [unfold dn; lia|].
    assert (dn - 1 < 53) by (apply (Z.pow_lt_mono_r_iff 2); lia). lia. }
  rewrite Z.add_0_r, fexp_normal by lia.
  assert (Hal : exists mz, shl_align pn 0 (dn - 53) = (mz, dn - 53) /\
                           Zpos mz = Zpos pn * 2 ^ (53 - dn)).
  { unfold shl_align. rewrite Z.sub_0_r.
    destruct (dn - 53) as [|p|p] eqn:E; try lia.
    - exists pn. split; [reflexivity|]. replace (53 - dn) with 0 by lia. lia.
    - exists (Pos.iter xO pn p). split; [reflexivity|].
      rewrite pos_iter_xO. f_equal. f_equal. lia. }
  destruct Hal as (mz & -> & Hmz).
  assert (Hnz : normal (Zpos mz)).
  { unfold normal. rewrite Hmz. split.
    - replace 52 with (dn - 1 + (53 - dn)) by lia. rewrite Z.pow_add_r by lia.
      apply Z.mul_le_mono_nonneg_r; [|lia]. apply Z.pow_nonneg; lia.
    - replace 53 with (dn + (53 - dn)) at 2 by lia. rewrite Z.pow_add_r by lia.
      apply Z.mul_lt_mono_pos_r; [|lia]. apply Z.pow_pos_nonneg; lia. }
  pose proof (digits_unique mz 53 Hnz) as Hdz.
  destruct (binary_round_aux_normal mz (dn - 53) loc_Exact (IZR (Zpos mz)))
    as (m & e & Hbra & Hm & He & Hm1 & [Hx Hf]).
  - rewrite Hdz. lia.
  - rewrite Hdz. lia.
  - rewrite Hdz. lia.
  - lra.
  - intros Hne. exfalso. apply Hne. reflexivity.
  - rewrite Hbra. exists m, e. split; [reflexivity|]. split; [exact Hm|].
    rewrite Hdz in *. replace (53 - 53) with 0 in * by lia.
    rewrite Z.pow_0_r, Z.div_1_r in *.
    assert (Hval : F2R (Zpos m) e = F2R (Zpos mz) (dn - 53)).
    { destruct Hf as [Heq|[_ Habs]].
      - rewrite Heq. f_equal. lia.
      - exfalso. replace (dn - 53 + 53 - 53) with (dn - 53) in Habs by lia.
        unfold F2R in Habs. lra. }
    assert (HvalR : F2R (Zpos mz) (dn - 53) = IZR (Zpos pn)).
    { rewrite Hmz. rewrite <- F2R_shift by lia. replace (dn - 53 + (53 - dn)) with 0 by lia.
      unfold F2R, bpow. simpl. lra. }
    split; [|congruence].
    destruct (Z.eq_dec e (dn - 53)) as [->|Hne]; [lia|].
    exfalso. assert (e = dn - 53 + 1) by lia. subst e.
    pose proof (normal_lower _ (dn - 53 + 1) Hm).
    pose proof (bounded_upper _ (dn - 53) (proj2 Hnz)).
    replace (52 + (dn - 53 + 1)) with (53 + (dn - 53)) in * by lia. lra.
Qed.

(** [int(x)] is the floor of a positive float. *)

Lemma int_of_float_floor m e :
  exists z, int_of_float (S754_finite false m e) = Ok z /\
            (IZR z <= F2R (Zpos m) e < IZR z + 1)%R.
Proof.
  unfold int_of_float. destruct e as [|p|p].
  - exists (Zpos m). split; [reflexivity|]. unfold F2R, bpow. simpl. lra.
  - exists (Zpos m * 2 ^ Zpos p). split; [reflexivity|].
    rewrite <- (Z.add_0_l (Zpos p)) at 2 3. rewrite F2R_shift by lia.
    unfold F2R, bpow. simpl powerRZ. lra.
  - exists (Zpos m / 2 ^ Zpos p). split; [reflexivity|].
    assert (Hp : 0 < 2 ^ Zpos p) by (apply Z.pow_pos_nonneg; lia).
    pose proof (Z.div_mod (Zpos m) (2 ^ Zpos p) ltac:(lia)) as Hdm.
    pose proof (Z.mod_pos_bound (Zpos m) (2 ^ Zpos p) Hp) as Hr.
    set (q := Zpos m / 2 ^ Zpos p) in *. set (r := Zpos m mod 2 ^ Zpos p) in *.
    assert (Hone : (bpow (Zpos p) * bpow (Zneg p) = 1)%R).
    { rewrite <- bpow_add. replace (Zpos p + Zneg p) with 0 by lia. reflexivity. }
    assert (HR : F2R (Zpos m) (Zneg p) = (IZR q + IZR r * bpow (Zneg p))%R).
    { rewrite Hdm at 1. unfold F2R. rewrite plus_IZR, mult_IZR, <- (bpow_Z (Zpos p)) by lia.
      transitivity (IZR q * (bpow (Zpos p) * bpow (Zneg p)) + IZR r * bpow (Zneg p))%R;
        [ring | rewrite Hone; ring]. }
    assert (Hfrac : (0 <= IZR r * bpow (Zneg p) < 1)%R).
    { assert (0 <= IZR r)%R by (apply IZR_le; lia).
      assert (IZR r < bpow (Zpos p))%R by (rewrite bpow_Z by lia; apply IZR_lt; lia).
      pose proof (bpow_pos (Zneg p)). split; nra. }
    rewrite HR. lra.
Qed.

Lemma SFmul_rounded mx ex my ey :
  normal (Zpos mx) -> normal (Zpos my) ->
  -1126 <= ex + ey -> ex + ey < 918 ->
  rounded (F2R (Zpos mx) ex * F2R (Zpos my) ey)
          (SFmul prec emax (S754_finite false mx ex) (S754_finite false my ey)).
Proof.
  intros Hx Hy Hlo Hhi. unfold SFmul. simpl xorb.
  set (d := Zpos (digits2_pos (mx * my))).
  assert (Hp : 2 ^ 104 <= Zpos (mx * my) < 2 ^ 106).
  { rewrite Pos2Z.inj_mul. unfold normal in Hx, Hy.
    change (2 ^ 104) with (2 ^ 52 * 2 ^ 52). change (2 ^ 106) with (2 ^ 53 * 2 ^ 53).
    split; [apply Z.mul_le_mono_nonneg | apply Z.mul_lt_mono_nonneg]; lia. }
  assert (Hd : 105 <= d <= 106).
  { destruct (digits_bounds (mx * my)) as [Dlo Dhi]. fold d in Dlo, Dhi.
    assert (104 < d) by (apply (Z.pow_lt_mono_r_iff 2); lia).
    assert (d - 1 < 106) by (apply (Z.pow_lt_mono_r_iff 2); lia).
    lia. }
  destruct (binary_round_aux_normal (mx * my) (ex + ey) loc_Exact (IZR (Zpos (mx * my))))
    as (m & e & Hbra & Hm & He & Hm1 & Hf).
  - fold d. lia.
  - fold d. lia.
  - fold d. lia.
  - lra.
  - intros Hne. exfalso. apply Hne. reflexivity.
  - rewrite Hbra. fold d in He, Hm1, Hf.
    exists m, e, (Zpos (mx * my) / 2 ^ (d - 53)), (ex + ey + d - 53).
    split; [reflexivity|]. split; [exact Hm|]. split; [exact Hm1|]. split; [lia|].
    replace (F2R (Zpos mx) ex * F2R (Zpos my) ey)%R
      with (IZR (Zpos (mx * my)) * bpow (ex + ey))%R; [exact Hf|].
    unfold F2R. rewrite Pos2Z.inj_mul, mult_IZR, bpow_add. ring.
Qed.

(** ** The Python operations on sizes *)

Lemma truediv_rounded a b :
  int53 a -> int53 b ->
  exists f, truediv a b = Ok f /\ rounded (IZR a / IZR b) f.
Proof.
  intros Ha Hb. unfold int53 in *.
  destruct a as [|pa|pa]; try lia. destruct b as [|pb|pb]; try lia.
  unfold truediv. simpl Z.eqb. cbn [Z.ltb Z.compare xorb Z.abs Z.to_pos].
  assert (Hr : rounded (IZR (Zpos pa) / IZR (Zpos pb))
                 (SFdiv prec emax (S754_finite false pa 0) (S754_finite false pb 0))).
  { replace (IZR (Zpos pa)) with (F2R (Zpos pa) 0) by (unfold F2R, bpow; simpl; lra).
    replace (IZR (Zpos pb)) with (F2R (Zpos pb) 0) by (unfold F2R, bpow; simpl; lra).
    destruct (digits_bounds pa) as [Alo Ahi]. destruct (digits_bounds pb) as [Blo Bhi].
    assert (Zpos (digits2_pos pa) - 1 < 53) by (apply (Z.pow_lt_mono_r_iff 2); lia).
    assert (Zpos (digits2_pos pb) - 1 < 53) by (apply (Z.pow_lt_mono_r_iff 2); lia).
    apply SFdiv_rounded; lia. }
  destruct Hr as (m & e & m1 & e1 & Heq & Hrest).
  exists (S754_finite false m e). rewrite Heq. split; [reflexivity|].
  exists m, e, m1, e1. split; [reflexivity|exact Hrest].
Qed.

Lemma int_mul_float_rounded n m e :
  int53 n -> normal (Zpos m) -> -1070 <= e <= 900 ->
  exists f, int_mul_float n (S754_finite false m e) = Ok f /\
            rounded (IZR n * F2R (Zpos m) e) f.
Proof.
  intros Hn Hm He.
  destruct (float_of_int_exact n Hn) as (mn & en & Hconv & Hmn & Hen & Hval).
  unfold int_mul_float. rewrite Hconv. simpl bind.
  eexists. split; [reflexivity|].
  rewrite <- Hval. apply SFmul_rounded; try assumption; lia.
Qed.

Lemma int_div_float_rounded n m e :
  int53 n -> normal (Zpos m) -> -1000 <= e <= 900 ->
  exists f, int_div_float n (S754_finite false m e) = Ok f /\
            rounded (IZR n / F2R (Zpos m) e) f.
Proof.
  intros Hn Hm He.
  destruct (float_of_int_exact n Hn) as (mn & en & Hconv & Hmn & Hen & Hval).
  unfold int_div_float. rewrite Hconv. simpl bind.
  eexists. split; [reflexivity|].
  rewrite <- Hval.
  pose proof (digits_unique mn 53 Hmn). pose proof (digits_unique m 53 Hm).
  apply SFdiv_rounded; lia.
Qed.

Lemma int_of_rounded x f :
  rounded x f ->
  exists z, int_of_float f = Ok z /\ (IZR z <= B2R f < IZR z + 1)%R.
Proof.
  intros (m & e & m1 & e1 & -> & _). apply int_of_float_floor.
Qed.

Lemma max2_cases a b : max2 a b = a \/ max2 a b = b.
Proof. unfold max2. destruct (float_gt b a); auto. Qed.

Lemma max2_ge xa xb a b :
  rounded xa a -> rounded xb b ->
  (B2R a <= B2R (max2 a b))%R /\ (B2R b <= B2R (max2 a b))%R.
Proof.
  intros (ma & ea & ? & ? & -> & Hma & _) (mb & eb & ? & ? & -> & Hmb & _).
  unfold max2, float_gt.
  pose proof (SFltb_normal ma ea mb eb Hma Hmb) as Hlt.
  destruct (SFltb (S754_finite false ma ea) (S754_finite false mb eb)); simpl.
  - assert (F2R (Zpos ma) ea < F2R (Zpos mb) eb)%R by (apply Hlt; reflexivity). lra.
  - destruct (Rlt_dec (F2R (Zpos ma) ea) (F2R (Zpos mb) eb)) as [Hc|Hc].
    + apply Hlt in Hc. discriminate.
    + lra.
Qed.

(** Rounding loses less than one part in [2^52]. *)
Lemma rounded_relative x f :
  rounded x f -> (x * (1 - bpow (-52)) <= B2R f)%R.
Proof.
  intros (m & e & m1 & e1 & -> & Hm & Hm1 & He & [[Hlo Hhi] Hf]). cbn [B2R].
  assert (Hfloor : (F2R m1 e1 <= F2R (Zpos m) e)%R).
  { destruct Hf as [->|[-> _]]; [lra|]. apply F2R_le. lia. }
  assert (Hstep : (F2R (m1 + 1) e1 = F2R m1 e1 + bpow e1)%R).
  { unfold F2R. rewrite plus_IZR. ring. }
  assert (Hulp : (bpow e1 <= x * bpow (-52))%R).
  { pose proof (normal_lower m1 e1 Hm1) as Hn. rewrite bpow_add in Hn.
    assert (Hone : (bpow 52 * bpow (-52) = 1)%R) by (rewrite <- bpow_add; reflexivity).
    pose proof (bpow_pos (-52)). pose proof (bpow_pos e1).
    assert (bpow 52 * bpow e1 <= x)%R by lra.
    apply Rmult_le_compat_r with (r := bpow (-52)) in H1; [|lra].
    replace (bpow 52 * bpow e1 * bpow (-52))%R with (bpow e1 * (bpow 52 * bpow (-52)))%R
      in H1 by ring.
    rewrite Hone, Rmult_1_r in H1. exact H1. }
  rewrite Rmult_minus_distr_l, Rmult_1_r. lra.
Qed.

End Binary64Facts.

Import Binary64Facts.

(** Running a process by one step: an [emit], or the head of a bind. *)
Ltac run_emit := unfold Proc.bind at 1; unfold emit at 1.
Ltac run_bind := unfold Proc.bind at 1.

(** A concrete size is a valid dimension. *)
Ltac sample_dim := split; vm_compute; congruence.

(** The numeric limits of Pillow, written out for [lia]. *)
Ltac pillow_limits :=
  unfold valid_dim, MAX_DIM, MAX_IMAGE_PIXELS in *;
  change (2 ^ 31) with 2147483648 in *.

(** A concrete image is one [Image.open] returns. *)
Ltac sample_image := split; [sample_dim | split; [sample_dim | vm_compute; discriminate]].

(* ================================================================== *)
(** * Pillow: what crop and resize accept                              *)
(* ================================================================== *)

Section PillowFacts.
Context `{Resampling} {mem : Memory}.

Lemma c_int_range n : - 2 ^ 31 <= n <= MAX_DIM -> c_int n = true.
Proof.
  intros Hn. unfold c_int. apply andb_true_iff. split; apply Z.leb_le; lia.
Qed.

Lemma no_bomb_iff w h :
  decompression_bomb w h = false <-> Z.max 1 w * Z.max 1 h <= 2 * MAX_IMAGE_PIXELS.
Proof. unfold decompression_bomb. rewrite Z.ltb_ge. reflexivity. Qed.

Lemma no_bomb_sides w h :
  decompression_bomb w h = false ->
  w <= 2 * MAX_IMAGE_PIXELS /\ h <= 2 * MAX_IMAGE_PIXELS.
Proof.
  rewrite no_bomb_iff. intros Hp.
  assert (1 <= Z.max 1 w) by lia. assert (1 <= Z.max 1 h) by lia.
  assert (w <= Z.max 1 w) by lia. assert (h <= Z.max 1 h) by lia.
  split; nia.
Qed.

(** A box no larger than an image that is no bomb is no bomb. *)
Lemma no_bomb_within a b w h :
  a <= w -> b <= h -> 1 <= w -> 1 <= h -> w * h <= 2 * MAX_IMAGE_PIXELS ->
  decompression_bomb a b = false.
Proof.
  intros Ha Hb Hw Hh Hp. apply no_bomb_iff.
  assert (1 <= Z.max 1 a <= w) by lia. assert (1 <= Z.max 1 b <= h) by lia.
  nia.
Qed.

Lemma no_bomb_valid (im : Image) a b :
  valid_image im -> a <= width im -> b <= height im ->
  decompression_bomb a b = false.
Proof.
  intros (Hw & Hh & Hp) Ha Hb. unfold valid_dim in Hw, Hh.
  apply (no_bomb_within a b (width im) (height im)); lia.
Qed.

(** A modest resampling fits. *)
Lemma fits_modest src dst : modest src dst = true -> fits src dst = true.
Proof. intros Hm. unfold fits. rewrite Hm. reflexivity. Qed.

(** [crop] accepts a box in order, within the pixel limit and in C ints. *)
Lemma crop_accepts (im : Image) l t r b :
  l <= r -> t <= b -> decompression_bomb (r - l) (b - t) = false ->
  - 2 ^ 31 <= l -> r <= MAX_DIM -> - 2 ^ 31 <= t -> b <= MAX_DIM ->
  crop im (l, t, r, b) =
    Ok {| size := (r - l, b - t);
          mode := mode im;
          px := fun x y => if inside im (x + l) (y + t)
                           then px im (x + l) (y + t) else 0 |}.
Proof.
  intros Hlr Htb Hbomb Hl Hr Ht Hb. unfold crop.
  destruct (Z.ltb_spec r l); [lia|]. destruct (Z.ltb_spec b t); [lia|].
  rewrite Hbomb.
  rewrite !c_int_range by lia. reflexivity.
Qed.

(** What [crop] has checked when it returns. *)
Lemma crop_returns (im out : Image) l t r b :
  crop im (l, t, r, b) = Ok out ->
  l <= r /\ t <= b /\ decompression_bomb (r - l) (b - t) = false /\
  out = {| size := (r - l, b - t);
           mode := mode im;
           px := fun x y => if inside im (x + l) (y + t)
                            then px im (x + l) (y + t) else 0 |}.
Proof.
  unfold crop.
  destruct (Z.ltb_spec r l); [discriminate|]. destruct (Z.ltb_spec b t); [discriminate|].
  destruct (decompression_bomb (r - l) (b - t)); [discriminate|].
  destruct (negb _); [discriminate|].
  intros Heq. injection Heq as <-. repeat split; assumption.
Qed.

(** [resize] accepts a size of C ints, at least 1x1, when the
    resampling fits. *)
Lemma resize_accepts (im : Image) w h :
  1 <= w <= MAX_DIM -> 1 <= h <= MAX_DIM -> fits (size im) (w, h) = true ->
  exists out, resize im (w, h) = Ok out /\ size out = (w, h) /\ mode out = mode im.
Proof.
  intros Hw Hh Hfits. unfold resize.
  destruct ((w =? width im) && (h =? height im)) eqn:Esame.
  - apply andb_true_iff in Esame. destruct Esame as [Ew Eh].
    apply Z.eqb_eq in Ew, Eh.
    exists im. split; [reflexivity|]. split; [|reflexivity].
    unfold width, height in Ew, Eh. destruct (size im). cbn in *. congruence.
  - assert (Hcw : c_int w = true) by (apply c_int_range; pillow_limits; lia).
    assert (Hch : c_int h = true) by (apply c_int_range; pillow_limits; lia).
    rewrite Hcw, Hch. cbn [andb negb].
    destruct (Z.ltb_spec w 1); [lia|]. destruct (Z.ltb_spec h 1); [lia|]. cbn [orb].
    rewrite Hfits. cbn [negb].
    eexists. split; [reflexivity|]. split; reflexivity.
Qed.

(** Whenever [resize] returns, it returns the size asked for, in the
    mode of the source. *)
Lemma resize_output (im out : Image) sz :
  resize im sz = Ok out -> size out = sz /\ mode out = mode im.
Proof.
  destruct sz as [w h]. unfold resize.
  destruct ((w =? width im) && (h =? height im)) eqn:Esame.
  - apply andb_true_iff in Esame. destruct Esame as [Ew Eh].
    apply Z.eqb_eq in Ew, Eh.
    intros Heq. injection Heq as <-. split; [|reflexivity].
    unfold width, height in Ew, Eh. destruct (size im). cbn in *. congruence.
  - destruct (negb (c_int w && c_int h)); [discriminate|].
    destruct ((w <? 1) || (h <? 1)); [discriminate|].
    destruct (negb (fits (size im) (w, h))); [discriminate|].
    intros Heq. injection Heq as <-. split; reflexivity.
Qed.

End PillowFacts.

(* ================================================================== *)
(** * tools/crop-for-apple.py: geometry and driver                     *)
(* ================================================================== *)

Section CropForAppleProofs.
Context `{Resampling} {mem : Memory}.
Import CropForApple.

Lemma valid_dim_int53 n : valid_dim n -> int53 n.
Proof.
  unfold valid_dim, MAX_DIM, int53. intros [Hlo Hhi].
  assert (2 ^ 31 < 2 ^ 53) by (apply Z.pow_lt_mono_r; lia). lia.
Qed.

(** A quotient of two valid dimensions lies between [2^-31] and [2^31]. *)
Lemma ratio_bounds a b :
  valid_dim a -> valid_dim b -> (bpow (-31) <= IZR a / IZR b < bpow 31)%R.
Proof.
  unfold valid_dim, MAX_DIM. intros [Ha Ha'] [Hb Hb'].
  assert (HaR : (1 <= IZR a <= IZR (2 ^ 31 - 1))%R) by (split; apply IZR_le; lia).
  assert (HbR : (1 <= IZR b <= IZR (2 ^ 31 - 1))%R) by (split; apply IZR_le; lia).
  rewrite minus_IZR in HaR, HbR. rewrite <- (bpow_Z 31) in HaR, HbR by lia.
  assert (Hone : (bpow 31 * bpow (-31) = 1)%R).
  { rewrite <- bpow_add. reflexivity. }
  pose proof (bpow_pos 31). pose proof (bpow_pos (-31)).
  assert (Hinv : (0 < / IZR b)%R) by (apply Rinv_0_lt_compat; lra).
  assert (Hbb : (IZR b * / IZR b = 1)%R) by (field; lra).
  unfold Rdiv. split; nra.
Qed.

Lemma ratio_rounded a b :
  valid_dim a -> valid_dim b ->
  exists m e, truediv a b = Ok (S754_finite false m e) /\
              normal (Zpos m) /\ -84 <= e <= -21 /\
              rounded (IZR a / IZR b) (S754_finite false m e).
Proof.
  intros Ha Hb.
  destruct (truediv_rounded a b (valid_dim_int53 a Ha) (valid_dim_int53 b Hb))
    as (f & Hdiv & Hr).
  destruct (rounded_exponent _ _ (-31) 31 Hr (ratio_bounds a b Ha Hb))
    as (m & e & -> & Hm & He).
  exists m, e. split; [exact Hdiv|]. split; [exact Hm|]. split; [lia|exact Hr].
Qed.

(** One coordinate of the upscale: [int(n * scale)] is at least [n] when
    the scale is at least one. *)
Lemma scaled_dim_ge n m e :
  valid_dim n -> normal (Zpos m) -> -84 <= e <= -21 ->
  (1 <= F2R (Zpos m) e)%R ->
  exists z, (x <- int_mul_float n (S754_finite false m e) ;; int_of_float x) = Ok z /\
            n <= z.
Proof.
  intros Hn Hm He Hone.
  pose proof (valid_dim_int53 n Hn) as Hn53.
  destruct (int_mul_float_rounded n m e Hn53 Hm ltac:(lia)) as (p & Hmul & Hp).
  destruct (int_of_rounded _ _ Hp) as (z & Hint & Hz).
  exists z. rewrite Hmul. simpl. split; [exact Hint|].
  assert (Hge : (F2R n 0 <= B2R p)%R).
  { apply (rounded_ge _ _ n 0 Hp); [unfold int53 in Hn53; lia|].
    unfold F2R at 1. unfold bpow. simpl powerRZ.
    assert (0 < IZR n)%R by (apply IZR_lt; unfold valid_dim in Hn; lia). nra. }
  unfold F2R, bpow in Hge. simpl powerRZ in Hge.
  assert (IZR n < IZR z + 1)%R by lra.
  rewrite <- plus_IZR in H0. apply lt_IZR in H0. lia.
Qed.

Lemma upscaled_size_total w h tw th :
  valid_dim w -> valid_dim h -> valid_dim tw -> valid_dim th ->
  w < tw \/ h < th ->
  exists rw rh nw nh,
    truediv tw w = Ok rw /\ truediv th h = Ok rh /\
    (x <- int_mul_float w (max2 rw rh) ;; int_of_float x) = Ok nw /\
    (x <- int_mul_float h (max2 rw rh) ;; int_of_float x) = Ok nh /\
    upscaled_size w h tw th = Ok (nw, nh) /\ w <= nw /\ h <= nh.
Proof.
  intros Hw Hh Htw Hth Hsmall.
  destruct (ratio_rounded tw w Htw Hw) as (mw & ew & Hdw & Hmw & Hew & Hrw).
  destruct (ratio_rounded th h Hth Hh) as (mh & eh & Hdh & Hmh & Heh & Hrh).
  remember (S754_finite false mw ew) as rw eqn:Erw.
  remember (S754_finite false mh eh) as rh eqn:Erh.
  destruct (max2_ge _ _ rw rh Hrw Hrh) as [Hgw Hgh].
  assert (Hone : (1 <= B2R (max2 rw rh))%R).
  { assert (HwR : (0 < IZR w)%R) by (apply IZR_lt; unfold valid_dim in Hw; lia).
    assert (HhR : (0 < IZR h)%R) by (apply IZR_lt; unfold valid_dim in Hh; lia).
    destruct Hsmall as [Hlt|Hlt]; apply IZR_lt in Hlt.
    - apply Rle_trans with (B2R rw); [|exact Hgw].
      replace 1%R with (F2R 1 0) by (unfold F2R, bpow; simpl; lra).
      apply (rounded_ge _ _ 1 0 Hrw); [lia|].
      unfold F2R, bpow. simpl powerRZ. rewrite Rmult_1_l.
      apply Rmult_le_reg_r with (IZR w); [exact HwR|].
      replace (IZR tw / IZR w * IZR w)%R with (IZR tw) by (field; lra). lra.
    - apply Rle_trans with (B2R rh); [|exact Hgh].
      replace 1%R with (F2R 1 0) by (unfold F2R, bpow; simpl; lra).
      apply (rounded_ge _ _ 1 0 Hrh); [lia|].
      unfold F2R, bpow. simpl powerRZ. rewrite Rmult_1_l.
      apply Rmult_le_reg_r with (IZR h); [exact HhR|].
      replace (IZR th / IZR h * IZR h)%R with (IZR th) by (field; lra). lra. }
  assert (Hscale : exists m e, max2 rw rh = S754_finite false m e /\
                               normal (Zpos m) /\ -84 <= e <= -21).
  { destruct (max2_cases rw rh) as [E|E]; rewrite E;
      [exists mw, ew | exists mh, eh]; (split; [assumption|split; assumption]). }
  destruct Hscale as (ms & es & Hmax & Hms & Hes).
  rewrite Hmax in Hone. simpl in Hone.
  destruct (scaled_dim_ge w ms es Hw Hms Hes Hone) as (nw & Hnw & Hwle).
  destruct (scaled_dim_ge h ms es Hh Hms Hes Hone) as (nh & Hnh & Hhle).
  exists rw, rh, nw, nh. rewrite Hmax.
  repeat split; try assumption.
  unfold upscaled_size. rewrite Hdw, Hdh. cbn [Py.bind]. rewrite Hmax.
  rewrite Hnw. cbn [Py.bind]. rewrite Hnh. reflexivity.
Qed.

(** One coordinate: [int(n * scale)] is at least [t - 1] when the scale
    is the rounded [t / n], or anything above it. *)
Lemma scaled_dim_near n t m e :
  valid_dim n -> valid_dim t -> normal (Zpos m) -> -84 <= e <= -21 ->
  (IZR t / IZR n * (1 - bpow (-52)) <= F2R (Zpos m) e)%R ->
  forall z, (x <- int_mul_float n (S754_finite false m e) ;; int_of_float x) = Ok z ->
  t - 1 <= z.
Proof.
  intros Hn Ht Hm He Hscale z Hz.
  pose proof (valid_dim_int53 n Hn) as Hn53.
  destruct (int_mul_float_rounded n m e Hn53 Hm ltac:(lia)) as (p & Hmul & Hp).
  rewrite Hmul in Hz. cbn [Py.bind] in Hz.
  destruct (int_of_rounded _ _ Hp) as (z' & Hint & Hfl).
  rewrite Hint in Hz. injection Hz as <-.
  pose proof (rounded_relative _ _ Hp) as Hrel.
  unfold valid_dim, MAX_DIM in Hn, Ht.
  assert (HnR : (0 < IZR n)%R) by (apply IZR_lt; lia).
  assert (HtR : (1 <= IZR t)%R) by (apply IZR_le; lia).
  assert (HtR' : (IZR t < bpow 31)%R).
  { rewrite bpow_Z by lia. apply IZR_lt. lia. }
  set (u := bpow (-52)) in *.
  assert (Hu : (0 < u)%R) by apply bpow_pos.
  assert (Hu1 : (u < 1)%R).
  { unfold u. replace 1%R with (bpow 0) by reflexivity. apply bpow_lt. lia. }
  assert (Hprod : (IZR t * (1 - u) <= IZR n * F2R (Zpos m) e)%R).
  { apply Rmult_le_compat_l with (r := IZR n) in Hscale; [|lra].
    replace (IZR n * (IZR t / IZR n * (1 - u)))%R with (IZR t * (1 - u))%R in Hscale
      by (field; lra).
    exact Hscale. }
  assert (Hp2 : (IZR t * (1 - u) * (1 - u) <= B2R p)%R).
  { apply Rle_trans with (IZR n * F2R (Zpos m) e * (1 - u))%R; [|exact Hrel].
    apply Rmult_le_compat_r; lra. }
  assert (Hsmall : (IZR t * (2 * u) < 1)%R).
  { assert (Hb : (bpow 31 * (2 * u) = bpow (-20))%R).
    { unfold u. replace 2%R with (bpow 1) by (unfold bpow; simpl; lra).
      rewrite <- !bpow_add. reflexivity. }
    assert (bpow (-20) < 1)%R.
    { replace 1%R with (bpow 0) by reflexivity. apply bpow_lt. lia. }
    nra. }
  assert (Hgt : (IZR t - 1 < B2R p)%R) by nra.
  assert (Hlt : (IZR t - 1 < IZR z' + 1)%R) by lra.
  rewrite <- minus_IZR, <- plus_IZR in Hlt. apply lt_IZR in Hlt. lia.
Qed.

(** After the upscale each side is at most one pixel short of the
    target, so the crop box starts at -1 at worst. *)
Lemma upscaled_size_within_one_pixel w h tw th nw nh :
  valid_dim w -> valid_dim h -> valid_dim tw -> valid_dim th ->
  upscaled_size w h tw th = Ok (nw, nh) ->
  tw - 1 <= nw /\ th - 1 <= nh /\
  -1 <= (nw - tw) / 2 /\ -1 <= (nh - th) / 2.
Proof.
  intros Hw Hh Htw Hth Hup.
  destruct (ratio_rounded tw w Htw Hw) as (mw & ew & Hdw & Hmw & Hew & Hrw).
  destruct (ratio_rounded th h Hth Hh) as (mh & eh & Hdh & Hmh & Heh & Hrh).
  remember (S754_finite false mw ew) as rw eqn:Erw.
  remember (S754_finite false mh eh) as rh eqn:Erh.
  destruct (max2_ge _ _ rw rh Hrw Hrh) as [Hgw Hgh].
  pose proof (rounded_relative _ _ Hrw) as Hrelw.
  pose proof (rounded_relative _ _ Hrh) as Hrelh.
  assert (Hscale : exists m e, max2 rw rh = S754_finite false m e /\
                               normal (Zpos m) /\ -84 <= e <= -21).
  { destruct (max2_cases rw rh) as [E|E]; rewrite E;
      [exists mw, ew | exists mh, eh]; (split; [assumption|split; assumption]). }
  destruct Hscale as (ms & es & Hmax & Hms & Hes).
  rewrite Hmax in Hgw, Hgh. simpl in Hgw, Hgh.
  unfold upscaled_size in Hup. rewrite Hdw, Hdh in Hup. cbn [Py.bind] in Hup.
  rewrite Hmax in Hup.
  destruct (x <- int_mul_float w (S754_finite false ms es) ;; int_of_float x)
    as [zw|] eqn:Ew; [|discriminate].
  cbn [Py.bind] in Hup.
  destruct (x <- int_mul_float h (S754_finite false ms es) ;; int_of_float x)
    as [zh|] eqn:Eh; [|discriminate].
  cbn [Py.bind] in Hup. injection Hup as <- <-.
  assert (Hnw : tw - 1 <= zw).
  { apply (scaled_dim_near w tw ms es Hw Htw Hms Hes); [lra|exact Ew]. }
  assert (Hnh : th - 1 <= zh).
  { apply (scaled_dim_near h th ms es Hh Hth Hms Hes); [lra|exact Eh]. }
  split; [exact Hnw|]. split; [exact Hnh|].
  split; apply Z.div_le_lower_bound; lia.
Qed.

(** Cropping with the centered box yields the target size, when the
    target is within the pixel limit. *)
Lemma crop_centered_box (im : Image) tw th :
  0 <= tw -> 0 <= th -> decompression_bomb tw th = false ->
  0 <= width im <= MAX_DIM -> 0 <= height im <= MAX_DIM ->
  exists out,
    crop im (crop_box (width im) (height im) tw th) = Ok out /\
    size out = (tw, th) /\ mode out = mode im /\
    forall x y,
      px out x y =
      if inside im (x + (width im - tw) / 2) (y + (height im - th) / 2)
      then px im (x + (width im - tw) / 2) (y + (height im - th) / 2) else 0.
Proof.
  intros Htw Hth Hbomb Hw Hh.
  destruct (no_bomb_sides _ _ Hbomb) as [Htw' Hth'].
  unfold crop_box.
  set (l := (width im - tw) / 2). set (t := (height im - th) / 2).
  assert (Hl : - 2 ^ 31 <= l /\ l + tw <= MAX_DIM).
  { unfold l. pillow_limits.
    pose proof (Z.div_mod (width im - tw) 2 ltac:(lia)).
    pose proof (Z.mod_pos_bound (width im - tw) 2 ltac:(lia)). lia. }
  assert (Ht : - 2 ^ 31 <= t /\ t + th <= MAX_DIM).
  { unfold t. pillow_limits.
    pose proof (Z.div_mod (height im - th) 2 ltac:(lia)).
    pose proof (Z.mod_pos_bound (height im - th) 2 ltac:(lia)). lia. }
  eexists. split.
  { apply crop_accepts; try lia.
    replace (l + tw - l) with tw by lia. replace (t + th - t) with th by lia.
    exact Hbomb. }
  cbn [size mode px].
  split; [f_equal; lia|]. split; reflexivity.
Qed.

Lemma needs_upscale_false (image : Image) tw th :
  tw <= width image -> th <= height image -> needs_upscale image tw th = false.
Proof.
  intros Hw Hh. unfold needs_upscale.
  destruct (Z.ltb_spec (width image) tw); [lia|].
  destruct (Z.ltb_spec (height image) th); [lia|]. reflexivity.
Qed.

Lemma needs_upscale_true (image : Image) tw th :
  width image < tw \/ height image < th -> needs_upscale image tw th = true.
Proof.
  intros Hs. unfold needs_upscale. apply orb_true_iff.
  destruct Hs; [left|right]; apply Z.ltb_lt; assumption.
Qed.

Lemma inside_centered (im : Image) tw th x y :
  tw <= width im -> th <= height im -> 0 <= x < tw -> 0 <= y < th ->
  inside im (x + (width im - tw) / 2) (y + (height im - th) / 2) = true.
Proof.
  intros Hw Hh Hx Hy. unfold inside.
  assert (0 <= (width im - tw) / 2 <= width im - tw).
  { split; [apply Z.div_pos; lia|]. apply Z.div_le_upper_bound; lia. }
  assert (0 <= (height im - th) / 2 <= height im - th).
  { split; [apply Z.div_pos; lia|]. apply Z.div_le_upper_bound; lia. }
  repeat (apply andb_true_iff; split);
    first [apply Z.leb_le; lia | apply Z.ltb_lt; lia].
Qed.

(** The no-upscale path: the output is the centered window of the source. *)
Lemma crop_center_direct (image : Image) tw th :
  0 <= tw -> 0 <= th -> tw <= width image -> th <= height image ->
  width image <= MAX_DIM -> height image <= MAX_DIM ->
  decompression_bomb tw th = false ->
  upscale image tw th = Ok image /\
  exists out, crop_center image tw th = Ok out /\
    size out = (tw, th) /\ mode out = mode image /\
    forall x y, 0 <= x < tw -> 0 <= y < th ->
      px out x y = px image (x + (width image - tw) / 2) (y + (height image - th) / 2).
Proof.
  intros Htw Hth Hw Hh Hwmax Hhmax Hbomb.
  assert (Hup : upscale image tw th = Ok image).
  { unfold upscale. rewrite needs_upscale_false by assumption. reflexivity. }
  split; [exact Hup|].
  destruct (crop_centered_box image tw th Htw Hth Hbomb)
    as (out & Hcrop & Hsz & Hmode & Hpx); [lia | lia |].
  exists out. unfold crop_center. rewrite Hup. cbn [Py.bind].
  split; [exact Hcrop|]. split; [exact Hsz|]. split; [exact Hmode|].
  intros x y Hx Hy. rewrite Hpx, inside_centered by assumption. reflexivity.
Qed.

(** The upscale path: when the size asked of [resize] is one of C ints
    whose resampling fits, and the target is within the pixel limit. *)
Lemma crop_center_scaled (image : Image) tw th nw nh :
  valid_image image -> valid_dim tw -> valid_dim th ->
  width image < tw \/ height image < th ->
  upscaled_size (width image) (height image) tw th = Ok (nw, nh) ->
  nw <= MAX_DIM -> nh <= MAX_DIM -> fits (size image) (nw, nh) = true ->
  tw * th <= 2 * MAX_IMAGE_PIXELS ->
  exists resized out,
    resize image (nw, nh) = Ok resized /\
    upscale image tw th = Ok resized /\
    size resized = (nw, nh) /\
    crop resized (crop_box nw nh tw th) = Ok out /\
    crop_center image tw th = Ok out /\
    size out = (tw, th).
Proof.
  intros (Hw & Hh & _) Htw Hth Hsmall Hsz Hnw Hnh Hfits Hcap.
  destruct (upscaled_size_total _ _ tw th Hw Hh Htw Hth Hsmall)
    as (rw & rh & nw' & nh' & _ & _ & _ & _ & Hsz' & Hwle & Hhle).
  rewrite Hsz in Hsz'. injection Hsz' as <- <-.
  assert (H1w : 1 <= nw <= MAX_DIM) by (unfold valid_dim in Hw; lia).
  assert (H1h : 1 <= nh <= MAX_DIM) by (unfold valid_dim in Hh; lia).
  destruct (resize_accepts image nw nh H1w H1h Hfits) as (resized & Hres & Hrsz & _).
  assert (Hup : upscale image tw th = Ok resized).
  { unfold upscale. rewrite needs_upscale_true, Hsz by assumption. exact Hres. }
  assert (Hwr : width resized = nw) by (unfold width; rewrite Hrsz; reflexivity).
  assert (Hhr : height resized = nh) by (unfold height; rewrite Hrsz; reflexivity).
  assert (Hbomb : decompression_bomb tw th = false).
  { apply no_bomb_iff. unfold valid_dim in Htw, Hth.
    rewrite !Z.max_r by lia. exact Hcap. }
  destruct (crop_centered_box resized tw th) as (out & Hcrop & Hosz & _);
    [unfold valid_dim in Htw; lia | unfold valid_dim in Hth; lia | exact Hbomb
    | rewrite Hwr; lia | rewrite Hhr; lia |].
  rewrite Hwr, Hhr in Hcrop.
  exists resized, out.
  repeat (split; [assumption|]).
  split; [|exact Hosz].
  unfold crop_center. rewrite Hup. cbn [Py.bind]. rewrite Hwr, Hhr. exact Hcrop.
Qed.

(** On an image that already has the target size, [crop_center] changes
    nothing. *)
Lemma crop_center_fixed (out : Image) tw th :
  0 <= tw -> 0 <= th -> decompression_bomb tw th = false -> size out = (tw, th) ->
  exists out', crop_center out tw th = Ok out' /\ same_image out' out.
Proof.
  intros Htw Hth Hbomb Hsz.
  assert (Hw : width out = tw) by (unfold width; rewrite Hsz; reflexivity).
  assert (Hh : height out = th) by (unfold height; rewrite Hsz; reflexivity).
  destruct (no_bomb_sides _ _ Hbomb) as [Htw' Hth'].
  destruct (crop_center_direct out tw th Htw Hth)
    as (_ & out' & Hcc & Hosz & Hmode & Hpx);
    [lia | lia | pillow_limits; lia | pillow_limits; lia | exact Hbomb |].
  exists out'. split; [exact Hcc|]. unfold same_image.
  split; [congruence|]. split; [exact Hmode|].
  intros x y Hx Hy.
  assert (Hw' : width out' = tw) by (unfold width; rewrite Hosz; reflexivity).
  assert (Hh' : height out' = th) by (unfold height; rewrite Hosz; reflexivity).
  rewrite Hpx by lia. rewrite Hw, Hh, !Z.sub_diag. simpl. rewrite !Z.add_0_r. reflexivity.
Qed.

(** [crop_center] returns on an image as opened and a target within the
    pixel limit, when no upscale is needed or the upscaled size is one
    that [resize] accepts. *)
Lemma crop_center_total (image : Image) tw th :
  valid_image image -> valid_dim tw -> valid_dim th ->
  tw * th <= 2 * MAX_IMAGE_PIXELS ->
  (tw <= width image /\ th <= height image) \/
  (exists nw nh,
     upscaled_size (width image) (height image) tw th = Ok (nw, nh) /\
     nw <= MAX_DIM /\ nh <= MAX_DIM /\ fits (size image) (nw, nh) = true) ->
  exists out, crop_center image tw th = Ok out /\ size out = (tw, th).
Proof.
  intros Himg Htw Hth Hcap Hguard.
  assert (Hbomb : decompression_bomb tw th = false).
  { apply no_bomb_iff. unfold valid_dim in Htw, Hth.
    rewrite !Z.max_r by lia. exact Hcap. }
  assert (Hdirect : tw <= width image -> th <= height image ->
                    exists out, crop_center image tw th = Ok out /\ size out = (tw, th)).
  { intros Hwle Hhle. destruct Himg as (Hw & Hh & _).
    unfold valid_dim in Htw, Hth, Hw, Hh.
    destruct (crop_center_direct image tw th) as (_ & out & Hcc & Hsz & _);
      try lia; [exact Hbomb|].
    exists out. split; assumption. }
  assert (Hscaled : width image < tw \/ height image < th ->
                    exists out, crop_center image tw th = Ok out /\ size out = (tw, th)).
  { intros Hsmall.
    destruct Hguard as [[Hwle Hhle]|(nw & nh & Hsz & Hnw & Hnh & Hfits)]; [lia|].
    destruct (crop_center_scaled image tw th nw nh Himg Htw Hth Hsmall Hsz Hnw Hnh
                Hfits Hcap) as (? & out & _ & _ & _ & _ & Hcc & Hosz).
    exists out. split; assumption. }
  destruct (Z_lt_le_dec (width image) tw) as [Hlt|Hwle]; [apply Hscaled; lia|].
  destruct (Z_lt_le_dec (height image) th) as [Hlt|Hhle]; [apply Hscaled; lia|].
  apply Hdirect; assumption.
Qed.

(** C3.  When the source, an image as Pillow opens it, is at least as
    large as the target on both axes (the target being a size, hence
    not negative), [crop_center] resamples nothing and returns the
    window of exactly the target size whose origin in the source is
    [((width - target_width) // 2, (height - target_height) // 2)];
    a 2000x3000 source with target (1284, 2778) is not upscaled and is
    cropped at (358, 111). *)
Theorem crop_center_large_source :
  (forall (image : Image) (target_width target_height : Z),
     valid_image image ->
     0 <= target_width -> 0 <= target_height ->
     target_width <= width image -> target_height <= height image ->
     upscale image target_width target_height = Ok image /\
     exists out,
       crop_center image target_width target_height = Ok out /\
       size out = (target_width, target_height) /\
       forall x y, 0 <= x < target_width -> 0 <= y < target_height ->
         px out x y = px image (x + (width image - target_width) / 2)
                               (y + (height image - target_height) / 2))
  /\
  (forall (m : Mode) (p : Z -> Z -> Z),
     let image := mkImage (2000, 3000) m p in
     needs_upscale image 1284 2778 = false /\
     crop_box 2000 3000 1284 2778 = (358, 111, 358 + 1284, 111 + 2778) /\
     exists out,
       crop_center image 1284 2778 = Ok out /\
       size out = (1284, 2778) /\
       forall x y, 0 <= x < 1284 -> 0 <= y < 2778 -> px out x y = p (x + 358) (y + 111)).
Proof.
  assert (Hgeneral : forall (image : Image) tw th,
            valid_image image -> 0 <= tw -> 0 <= th ->
            tw <= width image -> th <= height image ->
            upscale image tw th = Ok image /\
            exists out, crop_center image tw th = Ok out /\
              size out = (tw, th) /\ mode out = mode image /\
              forall x y, 0 <= x < tw -> 0 <= y < th ->
                px out x y = px image (x + (width image - tw) / 2)
                                      (y + (height image - th) / 2)).
  { intros image tw th Himg Htw Hth Hw Hh.
    pose proof (no_bomb_valid image tw th Himg Hw Hh) as Hbomb.
    destruct Himg as (Hvw & Hvh & _). unfold valid_dim in Hvw, Hvh.
    apply crop_center_direct; try assumption; lia. }
  split.
  - intros image tw th Himg Htw Hth Hw Hh.
    destruct (Hgeneral image tw th Himg Htw Hth Hw Hh)
      as (Hup & out & Hcc & Hsz & _ & Hpx).
    split; [exact Hup|]. exists out. repeat split; assumption.
  - intros m p image.
    split; [reflexivity|]. split; [reflexivity|].
    assert (Himg : valid_image image) by sample_image.
    destruct (Hgeneral image 1284 2778 Himg) as (_ & out & Hcc & Hsz & _ & Hpx);
      try (unfold image, width, height; simpl; lia).
    exists out. split; [exact Hcc|]. split; [exact Hsz|].
    intros x y Hx Hy. rewrite (Hpx x y Hx Hy). reflexivity.
Qed.




Lemma crop_center_output_size (image out : Image) tw th :
  crop_center image tw th = Ok out ->
  size out = (tw, th) /\ 0 <= tw /\ 0 <= th /\ decompression_bomb tw th = false.
Proof.
  unfold crop_center. destruct (upscale image tw th) as [image'|e]; [|discriminate].
  cbn [Py.bind]. unfold crop_box.
  set (l := (width image' - tw) / 2). set (t := (height image' - th) / 2).
  intros Hcrop. destruct (crop_returns _ _ _ _ _ _ Hcrop) as (Hl & Ht & Hbomb & ->).
  cbn [size].
  replace (l + tw - l) with tw in * by lia. replace (t + th - t) with th in * by lia.
  repeat split; try assumption; lia.
Qed.

(** C10.  [crop_center] is idempotent: its output already has the target
    size, so a second application with the same target upscales nothing,
    crops with the box of the whole image and returns that output
    unchanged; and the first application does return an output, on an
    image as opened and a target within the pixel limit, when no
    upscale is needed or the upscaled size is one [resize] serves. *)
Theorem crop_center_idempotent :
  (forall (image out : Image) (target_width target_height : Z),
     crop_center image target_width target_height = Ok out ->
     upscale out target_width target_height = Ok out /\
     crop_box (width out) (height out) target_width target_height
       = (0, 0, width out, height out) /\
     exists out',
       crop_center out target_width target_height = Ok out' /\
       same_image out' out)
  /\
  (forall (image : Image) (target_width target_height : Z),
     valid_image image -> valid_dim target_width -> valid_dim target_height ->
     target_width * target_height <= 2 * MAX_IMAGE_PIXELS ->
     (target_width <= width image /\ target_height <= height image) \/
     (exists new_width new_height,
        upscaled_size (width image) (height image) target_width target_height
          = Ok (new_width, new_height) /\
        new_width <= MAX_DIM /\ new_height <= MAX_DIM /\
        fits (size image) (new_width, new_height) = true) ->
     exists out out',
       crop_center image target_width target_height = Ok out /\
       crop_center out target_width target_height = Ok out' /\
       same_image out' out).
Proof.
  assert (Hfixed : forall (image out : Image) tw th,
            crop_center image tw th = Ok out ->
            upscale out tw th = Ok out /\
            crop_box (width out) (height out) tw th = (0, 0, width out, height out) /\
            exists out', crop_center out tw th = Ok out' /\ same_image out' out).
  { intros image out tw th Hcc.
    destruct (crop_center_output_size _ _ _ _ Hcc) as (Hsz & Htw & Hth & Hbomb).
    assert (Hw : width out = tw) by (unfold width; rewrite Hsz; reflexivity).
    assert (Hh : height out = th) by (unfold height; rewrite Hsz; reflexivity).
    destruct (no_bomb_sides _ _ Hbomb) as [Htw' Hth'].
    split; [apply crop_center_direct; try assumption; pillow_limits; lia|].
    split.
    { unfold crop_box. rewrite Hw, Hh, !Z.sub_diag. reflexivity. }
    apply crop_center_fixed; assumption. }
  split.
  - exact Hfixed.
  - intros image target_width target_height Himg Htw Hth Hcap Hguard.
    destruct (crop_center_total image _ _ Himg Htw Hth Hcap Hguard) as (out & Hcc & _).
    destruct (Hfixed _ _ _ _ Hcc) as (_ & _ & out' & Hcc' & Hsame).
    exists out, out'. repeat split; try assumption; apply Hsame.
Qed.


(** C2 (the code departs from it).  A 1251x2224 portrait with the default
    target (1284, 2778) is resized to 1562x2777: one row short of the
    target height.  The crop box then starts at row -1, and the first
    row of the output is padding, not picture. *)
Theorem crop_center_upscale_falls_short :
  forall (m : Mode) (p : Z -> Z -> Z),
    let image := mkImage (1251, 2224) m p in
    upscaled_size 1251 2224 1284 2778 = Ok (1562, 2777) /\
    crop_box 1562 2777 1284 2778 = (139, -1, 1423, 2777) /\
    exists resized out,
      upscale image 1284 2778 = Ok resized /\
      size resized = (1562, 2777) /\
      height resized < 2778 /\
      crop_center image 1284 2778 = Ok out /\
      size out = (1284, 2778) /\
      forall x, px out x 0 = 0.
Proof.
  intros m p image.
  assert (Hsz : upscaled_size 1251 2224 1284 2778 = Ok (1562, 2777))
    by (vm_compute; reflexivity).
  split; [exact Hsz|]. split; [reflexivity|].
  assert (Hup : exists resized, upscale image 1284 2778 = Ok resized /\
                                size resized = (1562, 2777)).
  { unfold upscale. change (needs_upscale image 1284 2778) with true. cbv iota.
    change (width image) with 1251. change (height image) with 2224.
    rewrite Hsz. cbn [Py.bind].
    destruct (resize_accepts image 1562 2777) as (r & Hr & Hrs & _);
      try (pillow_limits; lia).
    { apply fits_modest. reflexivity. }
    exists r. split; assumption. }
  destruct Hup as (resized & Hup & Hrs).
  assert (Hw : width resized = 1562) by (unfold width; rewrite Hrs; reflexivity).
  assert (Hh : height resized = 2777) by (unfold height; rewrite Hrs; reflexivity).
  destruct (crop_centered_box resized 1284 2778) as (out & Hcrop & Hosz & _ & Hpx);
    try lia; try reflexivity; try (rewrite ?Hw, ?Hh; pillow_limits; lia).
  exists resized, out.
  split; [exact Hup|]. split; [exact Hrs|]. split; [lia|].
  split; [unfold crop_center; rewrite Hup; exact Hcrop|]. split; [exact Hosz|].
  intros x. rewrite Hpx, Hw, Hh. unfold inside.
  replace (0 + (2777 - 2778) / 2) with (-1) by reflexivity.
  rewrite andb_false_r. reflexivity.
Qed.

(** Beyond what Pillow serves, [crop_center] raises: a 1x1700000 sliver
    with the default target asks [resize] for 1284x2182800000, a height
    that is no C int; a 1x1 image with the largest target asks for a
    line no machine holds; and a window of 13400x13400 is a
    decompression bomb. *)
Example crop_center_sliver (m : Mode) (p : Z -> Z -> Z) :
  upscaled_size 1 1700000 1284 2778 = Ok (1284, 2182800000) /\
  crop_center (mkImage (1, 1700000) m p) 1284 2778 = Raise OverflowError.
Proof.
  assert (Hsz : upscaled_size 1 1700000 1284 2778 = Ok (1284, 2182800000))
    by (vm_compute; reflexivity).
  split; [exact Hsz|].
  unfold crop_center, upscale.
  change (needs_upscale (mkImage (1, 1700000) m p) 1284 2778) with true. cbv iota.
  change (width (mkImage (1, 1700000) m p)) with 1.
  change (height (mkImage (1, 1700000) m p)) with 1700000.
  rewrite Hsz. reflexivity.
Qed.

Example crop_center_largest_target (m : Mode) (p : Z -> Z -> Z) :
  crop_center (mkImage (1, 1) m p) MAX_DIM MAX_DIM = Raise MemoryError.
Proof.
  assert (Hsz : upscaled_size 1 1 MAX_DIM MAX_DIM = Ok (MAX_DIM, MAX_DIM))
    by (vm_compute; reflexivity).
  unfold crop_center, upscale.
  change (needs_upscale (mkImage (1, 1) m p) MAX_DIM MAX_DIM) with true. cbv iota.
  change (width (mkImage (1, 1) m p)) with 1.
  change (height (mkImage (1, 1) m p)) with 1.
  rewrite Hsz. reflexivity.
Qed.

Example crop_center_bomb (m : Mode) (p : Z -> Z -> Z) :
  crop_center (mkImage (13401, 13400) m p) 13400 13400 = Raise DecompressionBombError.
Proof. reflexivity. Qed.

Lemma insert_sorted_In p q l : In p (insert_sorted q l) -> p = q \/ In p l.
Proof.
  induction l as [|x l IH]; cbn [insert_sorted].
  - intros [->|[]]. left. reflexivity.
  - destruct (String.leb q x).
    + intros [->|Hin]; [left; reflexivity|right; exact Hin].
    + intros [->|Hin]; [right; left; reflexivity|].
      destruct (IH Hin) as [->|Hl]; [left; reflexivity|right; right; exact Hl].
Qed.

Lemma sorted_In p l : In p (sorted l) -> In p l.
Proof.
  induction l as [|x l IH]; cbn [sorted]; [intros []|].
  intros Hin. destruct (insert_sorted_In _ _ _ Hin) as [->|Hl].
  - left. reflexivity.
  - right. apply IH. exact Hl.
Qed.

(** The [try] block ends normally or with an exception: it never leaves
    the process. *)
Lemma process_image_no_exit w tw th path tr :
  (exists tr', process_image w tw th path tr = (Done tt, tr')) \/
  (exists e tr', process_image w tw th path tr = (Raised e, tr')).
Proof.
  unfold process_image, Proc.bind, emit, lift, ret.
  destruct (open_image w path) as [image|e]; [|right; eauto].
  destruct (crop_center image tw th) as [cropped|e]; [|right; eauto].
  destruct (save_png w path cropped) as [[]|e]; [|right; eauto].
  destruct (stat_size w path) as [sz|e]; [|right; eauto].
  destruct (truediv sz 1024) as [kb|e]; [|right; eauto].
  left. eauto.
Qed.

(** The loop always runs to its end. *)
Lemma process_images_done w tw th paths :
  forall success tr,
    exists success' tr',
      process_images w tw th paths success tr = (Done success', tr').
Proof.
  induction paths as [|path rest IH]; intros success tr.
  - exists success, tr. reflexivity.
  - cbn [process_images]. run_bind. unfold try_except.
    run_bind.
    destruct (process_image_no_exit w tw th path tr) as [(tr1 & ->)|(e & tr1 & ->)].
    + cbn. apply IH.
    + cbn. apply IH.
Qed.

(** When every file fails, the counter stays where it was. *)
Lemma process_images_all_fail w tw th paths :
  (forall p, In p paths -> image_fails w tw th p) ->
  forall success tr,
    exists tr', process_images w tw th paths success tr = (Done success, tr').
Proof.
  induction paths as [|path rest IH]; intros Hfail success tr.
  - exists tr. reflexivity.
  - cbn [process_images]. run_bind. unfold try_except.
    run_bind.
    destruct (process_image_no_exit w tw th path tr) as [(tr1 & Hok)|(e & tr1 & ->)].
    + exfalso. destruct (Hfail path (or_introl eq_refl)) as (e & tr0 & Hbad).
      revert Hok Hbad. unfold process_image, Proc.bind, emit, lift, ret.
      destruct (open_image w path) as [image|e1]; [|discriminate].
      destruct (crop_center image tw th) as [cropped|e1]; [|discriminate].
      destruct (save_png w path cropped) as [[]|e1]; [|discriminate].
      destruct (stat_size w path) as [sz|e1]; [|discriminate].
      destruct (truediv sz 1024) as [kb|e1]; discriminate.
    + cbn. apply IH. intros p Hp. apply Hfail. right. exact Hp.
Qed.

Lemma select_size_key_cases argv :
  select_size_key argv = "6.7"%string \/ select_size_key argv = "6.5"%string.
Proof.
  unfold select_size_key.
  destruct (1 <? Z.of_nat (List.length argv)); cbn [andb]; [|left; reflexivity].
  unfold dict_mem, APPLE_DIMENSIONS. cbn [dict_find].
  destruct (String.eqb_spec (nth 1 argv EmptyString) "6.7") as [->|_]; [left; reflexivity|].
  destruct (String.eqb_spec (nth 1 argv EmptyString) "6.5") as [->|_]; [right; reflexivity|].
  left. reflexivity.
Qed.

Lemma run_batch_exit w tw th tr :
  exit_status (fst (run_batch w tw th tr)) =
    if negb (input_dir_exists w) then 1
    else match glob_png w with [] => 1 | _ :: _ => 0 end.
Proof.
  unfold run_batch.
  destruct (input_dir_exists w); cbn [negb]; [|reflexivity].
  destruct (glob_png w) as [|p ps] eqn:Eglob; [reflexivity|].
  run_bind. cbn [ret].
  run_bind. cbn [ret].
  run_emit.
  run_emit.
  run_emit.
  run_bind.
  match goal with
  | |- context [process_images w tw th ?ps ?n ?t] =>
    destruct (process_images_done w tw th ps n t) as (n' & tr' & ->)
  end.
  unfold Proc.bind, emit, ret. destruct (0 <? n'); reflexivity.
Qed.

(** C1 (as the code has it).  The cropper exits with status 1 exactly
    when the input directory is missing or holds no PNG image; every
    other run exits with status 0, whether some, none or all of the
    images were processed. *)
Theorem crop_exit_code (argv : list string) (w : World) :
  exit_code argv w =
    if negb (input_dir_exists w) then 1
    else match glob_png w with [] => 1 | _ :: _ => 0 end.
Proof.
  unfold exit_code, run, main.
  destruct (select_size_key_cases argv) as [-> | ->];
    run_emit;
    run_bind; cbn [lift dict_getitem dict_find APPLE_DIMENSIONS String.eqb
                                 Ascii.eqb Bool.eqb];
    run_emit;
    apply run_batch_exit.
Qed.

(** In particular a run in which every image fails still ends with
    status 0, its counter of successes at zero. *)
Lemma complete_failure_exits_zero (argv : list string) (w : World) :
  complete_failure argv w ->
  exit_code argv w = 0 /\
  exists target_width target_height tr,
    target_dimensions argv = Ok (target_width, target_height) /\
    process_images w target_width target_height (sorted (glob_png w)) 0 []
      = (Done 0, tr).
Proof.
  intros (Hdir & Himages & tw & th & Hdims & Hfail). split.
  - unfold exit_code, run, main. unfold target_dimensions in Hdims.
    run_emit. run_bind. rewrite Hdims. cbn [lift]. run_emit.
    rewrite run_batch_exit, Hdir. cbn [negb].
    destruct (glob_png w); [congruence|reflexivity].
  - exists tw, th.
    destruct (process_images_all_fail w tw th (sorted (glob_png w))) with
      (success := 0) (tr := @nil effect) as (tr & Htr).
    + intros p Hp. apply Hfail. apply sorted_In. exact Hp.
    + exists tr. split; [exact Hdims|exact Htr].
Qed.

Lemma length_gt_1_nth_error (argv : list string) :
  (1 <? Z.of_nat (List.length argv)) = true ->
  nth_error argv 1 = Some (nth 1 argv EmptyString).
Proof.
  destruct argv as [|a [|b rest]]; simpl; intros Hlen; try discriminate; reflexivity.
Qed.

Lemma length_le_1_nth_error (argv : list string) :
  (1 <? Z.of_nat (List.length argv)) = false -> nth_error argv 1 = None.
Proof.
  destruct argv as [|a [|b rest]]; intros Hlen; try reflexivity.
  exfalso. apply Z.ltb_ge in Hlen. cbn [List.length] in Hlen. lia.
Qed.

(** C8.  The target dimensions are [APPLE_DIMENSIONS[argv[1]]] when a
    first argument is given and is a key of the table; with no argument
    or an unknown one they are those of the default key "6.7",
    (1284, 2778), and nothing is reported.  [main] goes on with them. *)
Theorem target_dimensions_from_argv (argv : list string) :
  let chosen :=
    match nth_error argv 1 with
    | Some arg =>
      match dict_find APPLE_DIMENSIONS arg with
      | Some dims => dims
      | None => (1284, 2778)
      end
    | None => (1284, 2778)
    end in
  dict_find APPLE_DIMENSIONS DEFAULT_SIZE = Some (1284, 2778) /\
  target_dimensions argv = Ok chosen /\
  forall (w : World) (tr : list effect),
    main argv w tr =
    run_batch w (fst chosen) (snd chosen)
      (tr ++ [Print Banner] ++
       [Print (Target (fst chosen) (snd chosen) (select_size_key argv))]).
Proof.
  intros chosen. split; [reflexivity|].
  assert (Hdims : target_dimensions argv = Ok chosen).
  { unfold target_dimensions, select_size_key, chosen.
    destruct (1 <? Z.of_nat (List.length argv)) eqn:Hlen; cbn [andb].
    - rewrite (length_gt_1_nth_error argv Hlen).
      unfold dict_mem, dict_getitem.
      destruct (dict_find APPLE_DIMENSIONS (nth 1 argv EmptyString)) as [dims|] eqn:Hfind.
      + rewrite Hfind. reflexivity.
      + reflexivity.
    - rewrite (length_le_1_nth_error argv Hlen). reflexivity. }
  split; [exact Hdims|].
  intros w tr. unfold main.
  unfold target_dimensions in Hdims.
  run_emit.
  run_bind. rewrite Hdims. cbn [lift].
  destruct chosen as [tw th]. cbn [fst snd].
  run_emit.
  rewrite <- app_assoc. reflexivity.
Qed.

End CropForAppleProofs.

(** ** The theorems at sample inputs *)

Lemma crop_center_large_source_witness :
  (valid_image Fixtures.poster /\ 0 <= 1284 /\ 0 <= 2778 /\
   1284 <= width Fixtures.poster /\ 2778 <= height Fixtures.poster) /\
  exists out,
    CropForApple.crop_center (H := Fixtures.nearest) (mem := Fixtures.frugal)
      Fixtures.poster 1284 2778 = Ok out /\
    size out = (1284, 2778).
Proof.
  set (image := Fixtures.poster).
  assert (Hi : valid_image image) by sample_image.
  assert (H1 : 0 <= 1284) by lia. assert (H2 : 0 <= 2778) by lia.
  assert (H3 : 1284 <= width image) by (vm_compute; discriminate).
  assert (H4 : 2778 <= height image) by (vm_compute; discriminate).
  split; [repeat split; try assumption; apply Hi|].
  destruct (proj1 (crop_center_large_source (H := Fixtures.nearest)
                     (mem := Fixtures.frugal))
              image 1284 2778 Hi H1 H2 H3 H4) as (_ & out & Hcc & Hsz & _).
  exists out. split; assumption.
Defined.


Lemma crop_center_idempotent_witness :
  (CropForApple.crop_center (H := Fixtures.nearest) (mem := Fixtures.frugal)
     Fixtures.thumbnail 1284 2778 = Ok Fixtures.cropped_thumbnail /\
   valid_image Fixtures.thumbnail /\ valid_dim 1284 /\ valid_dim 2778 /\
   1284 * 2778 <= 2 * MAX_IMAGE_PIXELS /\
   CropForApple.upscaled_size 800 800 1284 2778 = Ok (2778, 2778) /\
   2778 <= MAX_DIM /\ fits (mem := Fixtures.frugal) (800, 800) (2778, 2778) = true) /\
  (exists out',
     CropForApple.crop_center (H := Fixtures.nearest) (mem := Fixtures.frugal)
       Fixtures.cropped_thumbnail 1284 2778 = Ok out' /\
     same_image out' Fixtures.cropped_thumbnail) /\
  exists out,
    CropForApple.crop_center (H := Fixtures.nearest) (mem := Fixtures.frugal)
      Fixtures.thumbnail 1284 2778 = Ok out.
Proof.
  assert (Hok : is_ok (CropForApple.crop_center (H := Fixtures.nearest)
                         (mem := Fixtures.frugal) Fixtures.thumbnail 1284 2778) = true)
    by (vm_compute; reflexivity).
  assert (Hcc : CropForApple.crop_center (H := Fixtures.nearest) (mem := Fixtures.frugal)
                  Fixtures.thumbnail 1284 2778 = Ok Fixtures.cropped_thumbnail).
  { unfold Fixtures.cropped_thumbnail.
    destruct (CropForApple.crop_center (H := Fixtures.nearest) (mem := Fixtures.frugal)
                Fixtures.thumbnail 1284 2778);
      [reflexivity | discriminate Hok]. }
  assert (Hi : valid_image Fixtures.thumbnail) by sample_image.
  assert (Hw : valid_dim 1284) by sample_dim.
  assert (Hh : valid_dim 2778) by sample_dim.
  assert (Hcap : 1284 * 2778 <= 2 * MAX_IMAGE_PIXELS) by (vm_compute; congruence).
  assert (Hsz : CropForApple.upscaled_size 800 800 1284 2778 = Ok (2778, 2778))
    by (vm_compute; reflexivity).
  assert (Hmax : 2778 <= MAX_DIM) by (vm_compute; congruence).
  assert (Hfits : fits (mem := Fixtures.frugal) (800, 800) (2778, 2778) = true) by reflexivity.
  split; [repeat split; try assumption; apply Hi|].
  split.
  - apply (proj1 (crop_center_idempotent (H := Fixtures.nearest) (mem := Fixtures.frugal))
             Fixtures.thumbnail Fixtures.cropped_thumbnail 1284 2778 Hcc).
  - destruct (proj2 (crop_center_idempotent (H := Fixtures.nearest)
                       (mem := Fixtures.frugal))
                Fixtures.thumbnail 1284 2778 Hi Hw Hh Hcap
                (or_intror (ex_intro _ 2778 (ex_intro _ 2778
                   (conj Hsz (conj Hmax (conj Hmax Hfits)))))))
      as (out & _ & Hout & _).
    exists out. exact Hout.
Defined.

(** C1 as the specification words it fails: the only image of the
    directory cannot be opened, every image has failed, and the process
    still exits with status 0. *)
Lemma crop_exit_code_complete_failure :
  CropForApple.complete_failure (H := Fixtures.nearest) (mem := Fixtures.frugal)
    ["crop-for-apple.py"%string] Fixtures.unreadable_previews /\
  CropForApple.exit_code (H := Fixtures.nearest) (mem := Fixtures.frugal)
    ["crop-for-apple.py"%string] Fixtures.unreadable_previews = 0 /\
  CropForApple.exit_code (H := Fixtures.nearest) (mem := Fixtures.frugal)
    ["crop-for-apple.py"%string] Fixtures.unreadable_previews <> 1.
Proof.
  split; [|split; [reflexivity | discriminate]].
  split; [reflexivity|]. split; [discriminate|].
  exists 1284, 2778. split; [reflexivity|].
  intros input_path _. eexists. eexists. reflexivity.
Qed.

(* ================================================================== *)
(** * tools/generate-feature-graphic.py: geometry                      *)
(* ================================================================== *)

Section ExactSizeProofs.
Context `{Resampling} {mem : Memory}.
Import FeatureGraphic.

(** Truncating a rounded value that does not exceed an integer bound. *)
Lemma int_of_rounded_le x p bound :
  rounded x p -> 0 < bound < 2 ^ 53 -> (x <= IZR bound)%R ->
  exists z, int_of_float p = Ok z /\ 0 <= z <= bound.
Proof.
  intros Hp Hb Hx.
  destruct (int_of_rounded _ _ Hp) as (z & Hint & Hz).
  exists z. split; [exact Hint|].
  assert (Hle : (B2R p <= F2R bound 0)%R).
  { apply (rounded_le _ _ bound 0 Hp); [lia|].
    unfold F2R, bpow. simpl powerRZ. lra. }
  unfold F2R, bpow in Hle. simpl powerRZ in Hle.
  pose proof (rounded_pos _ _ Hp) as Hpos.
  split.
  - assert (0 < IZR z + 1)%R by lra.
    rewrite <- plus_IZR in H0. apply lt_IZR in H0. lia.
  - apply le_IZR. lra.
Qed.

(** The three branches of the aspect crop. *)
Lemma aspect_crop_box_cases cw ch tw th :
  valid_dim cw -> valid_dim ch -> valid_dim tw -> valid_dim th ->
  exists target_ratio current_ratio,
    truediv tw th = Ok target_ratio /\
    truediv cw ch = Ok current_ratio /\
    ((float_gt current_ratio target_ratio = true /\
      float_lt current_ratio target_ratio = false /\
      exists new_width,
        (x <- int_mul_float ch target_ratio ;; int_of_float x) = Ok new_width /\
        0 <= new_width <= cw /\
        aspect_crop_box cw ch tw th =
          Ok (Some ((cw - new_width) / 2, 0, (cw - new_width) / 2 + new_width, ch)))
     \/
     (float_gt current_ratio target_ratio = false /\
      float_lt current_ratio target_ratio = true /\
      exists new_height,
        (x <- int_div_float cw target_ratio ;; int_of_float x) = Ok new_height /\
        0 <= new_height <= ch /\
        aspect_crop_box cw ch tw th =
          Ok (Some (0, (ch - new_height) / 2, cw, (ch - new_height) / 2 + new_height)))
     \/
     (float_gt current_ratio target_ratio = false /\
      float_lt current_ratio target_ratio = false /\
      aspect_crop_box cw ch tw th = Ok None)).
Proof.
  intros Hcw Hch Htw Hth.
  destruct (ratio_rounded tw th Htw Hth) as (mt & et & Hdt & Hmt & Het & Hrt).
  destruct (ratio_rounded cw ch Hcw Hch) as (mc & ec & Hdc & Hmc & Hec & Hrc).
  exists (S754_finite false mt et), (S754_finite false mc ec).
  split; [exact Hdt|]. split; [exact Hdc|].
  pose proof (valid_dim_int53 _ Hcw) as Hcw53. pose proof (valid_dim_int53 _ Hch) as Hch53.
  assert (HcwR : (0 < IZR cw)%R) by (apply IZR_lt; unfold valid_dim in Hcw; lia).
  assert (HchR : (0 < IZR ch)%R) by (apply IZR_lt; unfold valid_dim in Hch; lia).
  assert (Htpos : (0 < F2R (Zpos mt) et)%R) by (apply (rounded_pos _ _ Hrt)).
  unfold aspect_crop_box. rewrite Hdt, Hdc. cbn [Py.bind].
  unfold float_gt, float_lt.
  pose proof (SFltb_normal mt et mc ec Hmt Hmc) as Hgt.
  pose proof (SFltb_normal mc ec mt et Hmc Hmt) as Hlt.
  destruct (SFltb (S754_finite false mt et) (S754_finite false mc ec)) eqn:Egt.
  - (* wider: crop the sides *)
    left. split; [reflexivity|].
    assert (Hval : (F2R (Zpos mt) et < F2R (Zpos mc) ec)%R) by (apply Hgt; reflexivity).
    split.
    { destruct (SFltb (S754_finite false mc ec) (S754_finite false mt et)); [|reflexivity].
      assert (F2R (Zpos mc) ec < F2R (Zpos mt) et)%R by (apply Hlt; reflexivity). lra. }
    assert (Hbelow : (F2R (Zpos mt) et <= IZR cw / IZR ch)%R).
    { destruct (Rle_or_lt (F2R (Zpos mt) et) (IZR cw / IZR ch)) as [Hle|Hcontra];
        [exact Hle|].
      pose proof (rounded_le _ _ (Zpos mt) et Hrc (proj2 Hmt) (Rlt_le _ _ Hcontra)) as Hc.
      simpl in Hc. lra. }
    assert (Hprod : (IZR ch * F2R (Zpos mt) et <= IZR cw)%R).
    { apply Rmult_le_compat_l with (r := IZR ch) in Hbelow; [|lra].
      replace (IZR ch * (IZR cw / IZR ch))%R with (IZR cw) in Hbelow by (field; lra).
      exact Hbelow. }
    destruct (int_mul_float_rounded ch mt et Hch53 Hmt ltac:(lia)) as (p & Hmul & Hp).
    destruct (int_of_rounded_le _ p cw Hp Hcw53 Hprod) as (nw & Hint & Hnw).
    exists nw. rewrite Hmul. cbn [Py.bind]. rewrite Hint. cbn [Py.bind].
    split; [reflexivity|]. split; [exact Hnw|reflexivity].
  - destruct (SFltb (S754_finite false mc ec) (S754_finite false mt et)) eqn:Elt.
    + (* taller: crop top and bottom *)
      right; left. split; [reflexivity|]. split; [reflexivity|].
      assert (Hval : (F2R (Zpos mc) ec < F2R (Zpos mt) et)%R) by (apply Hlt; reflexivity).
      assert (Habove : (IZR cw / IZR ch <= F2R (Zpos mt) et)%R).
      { destruct (Rle_or_lt (IZR cw / IZR ch) (F2R (Zpos mt) et)) as [Hle|Hcontra];
          [exact Hle|].
        pose proof (rounded_ge _ _ (Zpos mt) et Hrc (proj2 Hmt) (Rlt_le _ _ Hcontra)) as Hc.
        simpl in Hc. lra. }
      assert (Hquot : (IZR cw / F2R (Zpos mt) et <= IZR ch)%R).
      { apply Rmult_le_compat_r with (r := IZR ch) in Habove; [|lra].
        replace (IZR cw / IZR ch * IZR ch)%R with (IZR cw) in Habove by (field; lra).
        apply Rmult_le_reg_r with (F2R (Zpos mt) et); [exact Htpos|].
        replace (IZR cw / F2R (Zpos mt) et * F2R (Zpos mt) et)%R with (IZR cw)
          by (field; lra).
        lra. }
      destruct (int_div_float_rounded cw mt et Hcw53 Hmt ltac:(lia)) as (q & Hdiv & Hq).
      destruct (int_of_rounded_le _ q ch Hq Hch53 Hquot) as (nh & Hint & Hnh).
      exists nh. rewrite Hdiv. cbn [Py.bind]. rewrite Hint. cbn [Py.bind].
      split; [reflexivity|]. split; [exact Hnh|reflexivity].
    + right; right. repeat split; reflexivity.
Qed.

(** A box inside an image as opened is one [crop] accepts. *)
Lemma crop_inside (im : Image) l t r b :
  valid_image im ->
  0 <= l -> l <= r -> r <= width im -> 0 <= t -> t <= b -> b <= height im ->
  exists out, crop im (l, t, r, b) = Ok out /\
    size out = (r - l, b - t) /\ mode out = mode im /\
    forall x y, 0 <= x < r - l -> 0 <= y < b - t ->
      inside im (x + l) (y + t) = true /\ px out x y = px im (x + l) (y + t).
Proof.
  intros Him Hl Hlr Hr Ht Htb Hb.
  pose proof (no_bomb_valid im (r - l) (b - t) Him ltac:(lia) ltac:(lia)) as Hbomb.
  destruct Him as (Hw & Hh & _). unfold valid_dim in Hw, Hh.
  eexists. split; [apply crop_accepts; try assumption; pillow_limits; lia|].
  cbn [size mode px].
  split; [reflexivity|]. split; [reflexivity|].
  intros x y Hx Hy.
  assert (Hin : inside im (x + l) (y + t) = true).
  { unfold inside. repeat (apply andb_true_iff; split);
      first [apply Z.leb_le; lia | apply Z.ltb_lt; lia]. }
  rewrite Hin. split; reflexivity.
Qed.

Lemma half_gap a n : 0 <= n <= a -> 0 <= (a - n) / 2 /\ (a - n) / 2 + n <= a.
Proof.
  intros Hn. split; [apply Z.div_pos; lia|].
  assert ((a - n) / 2 <= a - n) by (apply Z.div_le_upper_bound; lia). lia.
Qed.

(** Where the target is between two and three times as wide as it is
    high, what the aspect crop keeps of an image within the pixel limit
    has modest sides. *)
Lemma aspect_crop_box_sides cw ch tw th :
  valid_dim cw -> valid_dim ch -> valid_dim tw -> valid_dim th ->
  cw * ch <= 2 * MAX_IMAGE_PIXELS -> 2 * th <= tw <= 3 * th ->
  exists box,
    aspect_crop_box cw ch tw th = Ok box /\
    match box with
    | Some (l, t, r, b) =>
        0 <= l /\ l <= r /\ r <= cw /\ 0 <= t /\ t <= b /\ b <= ch /\
        r - l <= MODEST_SIDE /\ b - t <= MODEST_SIDE
    | None => cw <= MODEST_SIDE /\ ch <= MODEST_SIDE
    end.
Proof.
  intros Hcw Hch Htw Hth Hcap Hratio.
  destruct (ratio_rounded tw th Htw Hth) as (mt & et & Hdt & Hmt & Het & Hrt).
  destruct (ratio_rounded cw ch Hcw Hch) as (mc & ec & Hdc & Hmc & Hec & Hrc).
  pose proof (valid_dim_int53 _ Hcw) as Hcw53. pose proof (valid_dim_int53 _ Hch) as Hch53.
  assert (HcwR : (0 < IZR cw)%R) by (apply IZR_lt; unfold valid_dim in Hcw; lia).
  assert (HchR : (0 < IZR ch)%R) by (apply IZR_lt; unfold valid_dim in Hch; lia).
  assert (HthR : (0 < IZR th)%R) by (apply IZR_lt; unfold valid_dim in Hth; lia).
  assert (Hgrid : forall n, F2R n 0 = IZR n).
  { intros n. unfold F2R, bpow. simpl powerRZ. lra. }
  assert (Hquot : (2 <= IZR tw / IZR th <= 3)%R).
  { assert (Hl : (IZR (2 * th) <= IZR tw)%R) by (apply IZR_le; lia).
    assert (Hu : (IZR tw <= IZR (3 * th))%R) by (apply IZR_le; lia).
    rewrite mult_IZR in Hl, Hu.
    split.
    - apply Rmult_le_reg_r with (IZR th); [exact HthR|].
      replace (IZR tw / IZR th * IZR th)%R with (IZR tw) by (field; lra). exact Hl.
    - apply Rmult_le_reg_r with (IZR th); [exact HthR|].
      replace (IZR tw / IZR th * IZR th)%R with (IZR tw) by (field; lra). exact Hu. }
  assert (Hlo : (2 <= F2R (Zpos mt) et)%R).
  { pose proof (rounded_ge _ _ 2 0 Hrt ltac:(lia)) as Hg.
    rewrite Hgrid in Hg. apply Hg. lra. }
  assert (Hhi : (F2R (Zpos mt) et <= 3)%R).
  { pose proof (rounded_le _ _ 3 0 Hrt ltac:(lia)) as Hg.
    rewrite Hgrid in Hg. apply Hg. lra. }
  assert (Hscale : forall a b : Z, (IZR a <= IZR b * IZR ch)%R -> a <= b * ch).
  { intros a b Hab. rewrite <- mult_IZR in Hab. apply le_IZR. exact Hab. }
  assert (Hwhole : (IZR cw / IZR ch * IZR ch = IZR cw)%R) by (field; lra).
  unfold aspect_crop_box. rewrite Hdt, Hdc. cbn [Py.bind].
  unfold float_gt, float_lt.
  pose proof (SFltb_normal mt et mc ec Hmt Hmc) as Hgt.
  pose proof (SFltb_normal mc ec mt et Hmc Hmt) as Hlt.
  unfold valid_dim in Hcw, Hch.
  destruct (SFltb (S754_finite false mt et) (S754_finite false mc ec)) eqn:Egt.
  - (* wider: at least twice as wide as high *)
    assert (Hbelow : (F2R (Zpos mt) et <= IZR cw / IZR ch)%R).
    { destruct (Rle_or_lt (F2R (Zpos mt) et) (IZR cw / IZR ch)) as [Hle|Hcontra];
        [exact Hle|].
      pose proof (rounded_le _ _ (Zpos mt) et Hrc (proj2 Hmt) (Rlt_le _ _ Hcontra)) as Hc.
      assert (F2R (Zpos mt) et < F2R (Zpos mc) ec)%R by (apply Hgt; reflexivity).
      simpl in Hc. lra. }
    assert (Htwice : 2 * ch <= cw).
    { apply le_IZR. rewrite mult_IZR, <- Hwhole. apply Rmult_le_compat_r; lra. }
    assert (Hprod : (IZR ch * F2R (Zpos mt) et <= IZR cw)%R).
    { rewrite <- Hwhole. rewrite Rmult_comm. apply Rmult_le_compat_r; lra. }
    assert (Hprod3 : (IZR ch * F2R (Zpos mt) et <= IZR (3 * ch))%R).
    { rewrite mult_IZR. rewrite Rmult_comm. apply Rmult_le_compat_r; lra. }
    destruct (int_mul_float_rounded ch mt et Hch53 Hmt ltac:(lia)) as (p & Hmul & Hp).
    destruct (int_of_rounded_le _ p cw Hp Hcw53 Hprod) as (nw & Hint & Hnw).
    destruct (int_of_rounded_le _ p (3 * ch) Hp ltac:(pillow_limits; lia) Hprod3)
      as (nw' & Hint' & Hnw').
    rewrite Hint in Hint'. injection Hint' as <-.
    rewrite Hmul. cbn [Py.bind]. rewrite Hint. cbn [Py.bind].
    eexists. split; [reflexivity|].
    destruct (half_gap cw nw Hnw) as [Hl Hr].
    assert (Hside : ch <= 9459) by (pillow_limits; nia).
    unfold MODEST_SIDE. change (2 ^ 15) with 32768.
    repeat split; lia.
  - destruct (SFltb (S754_finite false mc ec) (S754_finite false mt et)) eqn:Elt.
    + (* taller: at most three times as wide as high *)
      assert (Habove : (IZR cw / IZR ch <= F2R (Zpos mt) et)%R).
      { destruct (Rle_or_lt (IZR cw / IZR ch) (F2R (Zpos mt) et)) as [Hle|Hcontra];
          [exact Hle|].
        pose proof (rounded_ge _ _ (Zpos mt) et Hrc (proj2 Hmt) (Rlt_le _ _ Hcontra)) as Hc.
        assert (F2R (Zpos mc) ec < F2R (Zpos mt) et)%R by (apply Hlt; reflexivity).
        simpl in Hc. lra. }
      assert (Hthrice : cw <= 3 * ch).
      { apply Hscale. rewrite <- Hwhole. apply Rmult_le_compat_r; lra. }
      assert (Hquot' : (IZR cw / F2R (Zpos mt) et <= IZR ch)%R).
      { apply Rmult_le_reg_r with (F2R (Zpos mt) et); [lra|].
        replace (IZR cw / F2R (Zpos mt) et * F2R (Zpos mt) et)%R with (IZR cw)
          by (field; lra).
        rewrite <- Hwhole at 1. rewrite (Rmult_comm (IZR ch) (F2R (Zpos mt) et)).
        apply Rmult_le_compat_r; lra. }
      assert (Hquot1 : (IZR cw / F2R (Zpos mt) et <= IZR cw)%R).
      { apply Rmult_le_reg_r with (F2R (Zpos mt) et); [lra|].
        replace (IZR cw / F2R (Zpos mt) et * F2R (Zpos mt) et)%R with (IZR cw)
          by (field; lra).
        rewrite <- (Rmult_1_r (IZR cw)) at 1. apply Rmult_le_compat_l; lra. }
      destruct (int_div_float_rounded cw mt et Hcw53 Hmt ltac:(lia)) as (q & Hdiv & Hq).
      destruct (int_of_rounded_le _ q ch Hq Hch53 Hquot') as (nh & Hint & Hnh).
      destruct (int_of_rounded_le _ q cw Hq Hcw53 Hquot1) as (nh' & Hint' & Hnh').
      rewrite Hint in Hint'. injection Hint' as <-.
      rewrite Hdiv. cbn [Py.bind]. rewrite Hint. cbn [Py.bind].
      eexists. split; [reflexivity|].
      destruct (half_gap ch nh Hnh) as [Hl Hr].
      assert (Hside : cw <= 23170) by (pillow_limits; nia).
      unfold MODEST_SIDE. change (2 ^ 15) with 32768.
      repeat split; lia.
    + (* the same ratio as the target, as floats *)
      eexists. split; [reflexivity|].
      assert (Hsame : F2R (Zpos mc) ec = F2R (Zpos mt) et).
      { apply Rle_antisym.
        - destruct (Rle_or_lt (F2R (Zpos mc) ec) (F2R (Zpos mt) et)) as [Hle|Hc];
            [exact Hle|].
          apply Hgt in Hc. congruence.
        - destruct (Rle_or_lt (F2R (Zpos mt) et) (F2R (Zpos mc) ec)) as [Hle|Hc];
            [exact Hle|].
          apply Hlt in Hc. congruence. }
      assert (Hnarrow : ch < cw).
      { destruct (Z_lt_le_dec ch cw) as [Hok|Hno]; [exact Hok|].
        pose proof (rounded_le _ _ 1 0 Hrc ltac:(lia)) as Hg.
        rewrite Hgrid in Hg. simpl in Hg.
        assert (Hone : (IZR cw / IZR ch <= 1)%R).
        { apply Rmult_le_reg_r with (IZR ch); [exact HchR|].
          rewrite Hwhole, Rmult_1_l. apply IZR_le. exact Hno. }
        specialize (Hg Hone). lra. }
      assert (Hwide : cw < 4 * ch).
      { destruct (Z_lt_le_dec cw (4 * ch)) as [Hok|Hno]; [exact Hok|].
        pose proof (rounded_ge _ _ 4 0 Hrc ltac:(lia)) as Hg.
        rewrite Hgrid in Hg. simpl in Hg.
        assert (Hfour : (4 <= IZR cw / IZR ch)%R).
        { apply Rmult_le_reg_r with (IZR ch); [exact HchR|].
          rewrite Hwhole, <- mult_IZR. apply IZR_le. exact Hno. }
        specialize (Hg Hfour). lra. }
      assert (Hside : ch <= 13377) by (pillow_limits; nia).
      assert (Hside' : cw <= 26754) by (pillow_limits; nia).
      unfold MODEST_SIDE. change (2 ^ 15) with 32768. lia.
Qed.

(** The aspect crop of an image as opened, for a banner of that shape,
    is one whose resampling to the banner any machine serves. *)
Lemma aspect_crop_modest (image cropped : Image) tw th :
  valid_image image -> valid_dim tw -> valid_dim th ->
  2 * th <= tw <= 3 * th -> tw <= MODEST_SIDE -> tw * MODEST_SIDE <= MODEST_PIXELS ->
  aspect_crop image tw th = Ok cropped ->
  modest (size cropped) (tw, th) = true.
Proof.
  intros (Hcw & Hch & Hcap) Htw Hth Hratio Hside Harea.
  destruct (aspect_crop_box_sides _ _ tw th Hcw Hch Htw Hth Hcap Hratio)
    as (box & Hbox & Hsides).
  unfold aspect_crop. rewrite Hbox. cbn [Py.bind].
  assert (Hmodest : forall w h, 0 <= w <= MODEST_SIDE -> 0 <= h <= MODEST_SIDE ->
                                modest (w, h) (tw, th) = true).
  { intros w h Hw Hh. unfold modest. cbn [fst snd].
    unfold valid_dim in Htw, Hth.
    assert (MODEST_PIXELS = 33554432) by reflexivity.
    assert (MODEST_SIDE = 32768) by reflexivity.
    repeat (apply andb_true_iff; split); apply Z.leb_le; nia. }
  destruct box as [[[[l t] r] b]|].
  - intros Hcrop. destruct (crop_returns _ _ _ _ _ _ Hcrop) as (_ & _ & _ & ->).
    cbn [size]. apply Hmodest; lia.
  - intros Heq. injection Heq as <-.
    unfold valid_dim in Hcw, Hch. unfold width, height in *.
    destruct (size image) as [w h]. cbn [fst snd] in *. apply Hmodest; lia.
Qed.

(** C5.  On an image as opened and a target of valid dimensions,
    [ensure_exact_size] crops one axis at most: a wider image keeps its
    full height and loses width, symmetrically, down to
    [int(current_height * target_ratio)]; a taller image keeps its full
    width and loses height down to [int(current_width / target_ratio)];
    equal ratios crop nothing.  It then asks [resize] for the target
    size, and when that resampling fits it returns an image of exactly
    the target size. *)
Theorem ensure_exact_size_exact (image : Image) (target_width target_height : Z) :
  valid_image image -> valid_dim target_width -> valid_dim target_height ->
  exists target_ratio current_ratio cropped,
    truediv target_width target_height = Ok target_ratio /\
    truediv (width image) (height image) = Ok current_ratio /\
    aspect_crop image target_width target_height = Ok cropped /\
    (fits (size cropped) (target_width, target_height) = true ->
     exists out,
       resize cropped (target_width, target_height) = Ok out /\
       ensure_exact_size image target_width target_height = Ok out /\
       size out = (target_width, target_height)) /\
    (float_gt current_ratio target_ratio = true ->
     exists new_width,
       (x <- int_mul_float (height image) target_ratio ;; int_of_float x) = Ok new_width /\
       let left := (width image - new_width) / 2 in
       crop image (left, 0, left + new_width, height image) = Ok cropped /\
       size cropped = (new_width, height image) /\
       left <= width image - (left + new_width) <= left + 1) /\
    (float_lt current_ratio target_ratio = true ->
     exists new_height,
       (x <- int_div_float (width image) target_ratio ;; int_of_float x) = Ok new_height /\
       let top := (height image - new_height) / 2 in
       crop image (0, top, width image, top + new_height) = Ok cropped /\
       size cropped = (width image, new_height) /\
       top <= height image - (top + new_height) <= top + 1) /\
    (float_gt current_ratio target_ratio = false ->
     float_lt current_ratio target_ratio = false ->
     cropped = image).
Proof.
  intros Himg Htw Hth.
  pose proof Himg as (Hcw & Hch & _).
  destruct (aspect_crop_box_cases _ _ _ _ Hcw Hch Htw Hth)
    as (rt & rc & Hrt & Hrc & Hcases).
  assert (Hfinal : forall cropped,
            aspect_crop image target_width target_height = Ok cropped ->
            fits (size cropped) (target_width, target_height) = true ->
            exists out,
              resize cropped (target_width, target_height) = Ok out /\
              ensure_exact_size image target_width target_height = Ok out /\
              size out = (target_width, target_height)).
  { intros c Hac Hfits.
    destruct (resize_accepts c target_width target_height) as (o & Ho & Hs & _);
      [unfold valid_dim in Htw; lia | unfold valid_dim in Hth; lia | exact Hfits |].
    exists o. split; [exact Ho|].
    split; [unfold ensure_exact_size; rewrite Hac; exact Ho|exact Hs]. }
  exists rt, rc.
  destruct Hcases as [(Hgt & Hlt & nw & Hnw & Hb & Hbox)
                     |[(Hgt & Hlt & nh & Hnh & Hb & Hbox)
                      |(Hgt & Hlt & Hbox)]].
  - destruct (half_gap (width image) nw Hb) as [Hl Hr].
    destruct (crop_inside image ((width image - nw) / 2) 0
                ((width image - nw) / 2 + nw) (height image) Himg)
      as (cropped & Hcrop & Hsz & _); try lia.
    { unfold valid_dim in Hch. lia. }
    assert (Hac : aspect_crop image target_width target_height = Ok cropped).
    { unfold aspect_crop. rewrite Hbox. exact Hcrop. }
    exists cropped.
    split; [exact Hrt|]. split; [exact Hrc|]. split; [exact Hac|].
    split; [exact (Hfinal cropped Hac)|].
    split; [|split]; try (intros; congruence).
    intros _. exists nw. split; [exact Hnw|]. cbv zeta.
    split; [exact Hcrop|]. split; [rewrite Hsz; f_equal; lia|].
    pose proof (Z.div_mod (width image - nw) 2 ltac:(lia)).
    pose proof (Z.mod_pos_bound (width image - nw) 2 ltac:(lia)). lia.
  - destruct (half_gap (height image) nh Hb) as [Hl Hr].
    destruct (crop_inside image 0 ((height image - nh) / 2) (width image)
                ((height image - nh) / 2 + nh) Himg)
      as (cropped & Hcrop & Hsz & _); try lia.
    { unfold valid_dim in Hcw. lia. }
    assert (Hac : aspect_crop image target_width target_height = Ok cropped).
    { unfold aspect_crop. rewrite Hbox. exact Hcrop. }
    exists cropped.
    split; [exact Hrt|]. split; [exact Hrc|]. split; [exact Hac|].
    split; [exact (Hfinal cropped Hac)|].
    split; [|split]; try (intros; congruence).
    intros _. exists nh. split; [exact Hnh|]. cbv zeta.
    split; [exact Hcrop|]. split; [rewrite Hsz; f_equal; lia|].
    pose proof (Z.div_mod (height image - nh) 2 ltac:(lia)).
    pose proof (Z.mod_pos_bound (height image - nh) 2 ltac:(lia)). lia.
  - assert (Hac : aspect_crop image target_width target_height = Ok image).
    { unfold aspect_crop. rewrite Hbox. reflexivity. }
    exists image.
    split; [exact Hrt|]. split; [exact Hrc|]. split; [exact Hac|].
    split; [exact (Hfinal image Hac)|].
    split; [|split]; intros; congruence.
Qed.


(** C9.  On an image as opened and a target of valid dimensions the
    crop rectangle of [ensure_exact_size] lies inside the source:
    truncation gives
    [new_width <= current_width] in the wider branch and
    [new_height <= current_height] in the taller one, so [0 <= left],
    [left + new_width <= current_width], [0 <= top],
    [top + new_height <= current_height], and every pixel of the crop
    is a pixel of the source: the crop never pads. *)
Theorem aspect_crop_within_source (image : Image) (target_width target_height : Z) :
  valid_image image -> valid_dim target_width -> valid_dim target_height ->
  exists target_ratio current_ratio,
    truediv target_width target_height = Ok target_ratio /\
    truediv (width image) (height image) = Ok current_ratio /\
    (float_gt current_ratio target_ratio = true ->
     exists new_width,
       (x <- int_mul_float (height image) target_ratio ;; int_of_float x) = Ok new_width /\
       0 <= new_width <= width image /\
       let left := (width image - new_width) / 2 in
       0 <= left /\ left + new_width <= width image /\
       aspect_crop_box (width image) (height image) target_width target_height
         = Ok (Some (left, 0, left + new_width, height image))) /\
    (float_lt current_ratio target_ratio = true ->
     exists new_height,
       (x <- int_div_float (width image) target_ratio ;; int_of_float x) = Ok new_height /\
       0 <= new_height <= height image /\
       let top := (height image - new_height) / 2 in
       0 <= top /\ top + new_height <= height image /\
       aspect_crop_box (width image) (height image) target_width target_height
         = Ok (Some (0, top, width image, top + new_height))) /\
    exists box,
      aspect_crop_box (width image) (height image) target_width target_height = Ok box /\
      forall l t r b, box = Some (l, t, r, b) ->
        0 <= l /\ l <= r /\ r <= width image /\ 0 <= t /\ t <= b /\ b <= height image /\
        exists cropped,
          aspect_crop image target_width target_height = Ok cropped /\
          forall x y, 0 <= x < width cropped -> 0 <= y < height cropped ->
            inside image (x + l) (y + t) = true /\
            px cropped x y = px image (x + l) (y + t).
Proof.
  intros Himg Htw Hth.
  pose proof Himg as (Hcw & Hch & _).
  destruct (aspect_crop_box_cases _ _ _ _ Hcw Hch Htw Hth)
    as (rt & rc & Hrt & Hrc & Hcases).
  exists rt, rc. split; [exact Hrt|]. split; [exact Hrc|].
  assert (Hbox : forall l t r b,
            aspect_crop_box (width image) (height image) target_width target_height
              = Ok (Some (l, t, r, b)) ->
            0 <= l -> l <= r -> r <= width image ->
            0 <= t -> t <= b -> b <= height image ->
            exists cropped,
              aspect_crop image target_width target_height = Ok cropped /\
              forall x y, 0 <= x < width cropped -> 0 <= y < height cropped ->
                inside image (x + l) (y + t) = true /\
                px cropped x y = px image (x + l) (y + t)).
  { intros l t r b Heq Hl Hlr Hr Ht Htb Hb.
    destruct (crop_inside image l t r b Himg Hl Hlr Hr Ht Htb Hb)
      as (cropped & Hcrop & Hsz & _ & Hpx).
    exists cropped. split; [unfold aspect_crop; rewrite Heq; exact Hcrop|].
    intros x y Hx Hy. apply Hpx.
    - unfold width in Hx. rewrite Hsz in Hx. exact Hx.
    - unfold height in Hy. rewrite Hsz in Hy. exact Hy. }
  unfold valid_dim in Hcw, Hch.
  destruct Hcases as [(Hgt & Hlt & nw & Hnw & Hb & Heq)
                     |[(Hgt & Hlt & nh & Hnh & Hb & Heq)
                      |(Hgt & Hlt & Heq)]].
  - destruct (half_gap (width image) nw Hb) as [Hl Hr].
    split; [|split].
    + intros _. exists nw. cbv zeta. repeat split; try assumption; lia.
    + intros Hc. congruence.
    + eexists. split; [exact Heq|].
      intros l t r b Hsome. injection Hsome as <- <- <- <-.
      repeat (split; [lia|]). apply (Hbox _ _ _ _ Heq); lia.
  - destruct (half_gap (height image) nh Hb) as [Hl Hr].
    split; [|split].
    + intros Hc. congruence.
    + intros _. exists nh. cbv zeta. repeat split; try assumption; lia.
    + eexists. split; [exact Heq|].
      intros l t r b Hsome. injection Hsome as <- <- <- <-.
      repeat (split; [lia|]). apply (Hbox _ _ _ _ Heq); lia.
  - split; [|split].
    + intros Hc. congruence.
    + intros Hc. congruence.
    + eexists. split; [exact Heq|]. intros l t r b Hsome. discriminate Hsome.
Qed.


End ExactSizeProofs.

Lemma ensure_exact_size_exact_witness :
  (valid_image Fixtures.landscape /\ valid_dim 1024 /\ valid_dim 500) /\
  exists cropped out,
    FeatureGraphic.aspect_crop Fixtures.landscape 1024 500 = Ok cropped /\
    fits (mem := Fixtures.frugal) (size cropped) (1024, 500) = true /\
    FeatureGraphic.ensure_exact_size (H := Fixtures.nearest) (mem := Fixtures.frugal)
      Fixtures.landscape 1024 500 = Ok out /\
    size out = (1024, 500).
Proof.
  set (image := Fixtures.landscape).
  assert (Hi : valid_image image) by sample_image.
  assert (Hw : valid_dim 1024) by sample_dim.
  assert (Hh : valid_dim 500) by sample_dim.
  split; [repeat split; try assumption; apply Hi|].
  destruct (ensure_exact_size_exact (H := Fixtures.nearest) (mem := Fixtures.frugal)
              image 1024 500 Hi Hw Hh)
    as (? & ? & cropped & _ & _ & Hac & Hserved & _).
  assert (Hfits : fits (mem := Fixtures.frugal) (size cropped) (1024, 500) = true).
  { vm_compute in Hac. injection Hac as <-. reflexivity. }
  destruct (Hserved Hfits) as (out & _ & Hes & Hsz).
  exists cropped, out. repeat split; assumption.
Defined.

Lemma aspect_crop_within_source_witness :
  (valid_image Fixtures.landscape /\ valid_dim 1024 /\ valid_dim 500) /\
  exists box,
    FeatureGraphic.aspect_crop_box 1536 1024 1024 500 = Ok box /\
    forall l t r b, box = Some (l, t, r, b) ->
      0 <= l /\ l <= r /\ r <= 1536 /\ 0 <= t /\ t <= b /\ b <= 1024.
Proof.
  set (image := Fixtures.landscape).
  assert (Hi : valid_image image) by sample_image.
  assert (Hw : valid_dim 1024) by sample_dim.
  assert (Hh : valid_dim 500) by sample_dim.
  split; [repeat split; try assumption; apply Hi|].
  destruct (aspect_crop_within_source image 1024 500 Hi Hw Hh)
    as (? & ? & _ & _ & _ & _ & box & Hbox & Hin).
  exists box. split; [exact Hbox|].
  intros l t r b Hsome. destruct (Hin l t r b Hsome) as (? & ? & ? & ? & ? & ? & _).
  repeat split; assumption.
Defined.

(* ================================================================== *)
(** * tools/generate-feature-graphic.py: driver                        *)
(* ================================================================== *)

Section FeatureGraphicProofs.
Context `{Resampling} `{FeatureGraphic.Compositing} {mem : Memory}.
Import FeatureGraphic.

Lemma scan_parts_without_image w ps tr :
  (forall part, In part ps -> inline_data part = None) ->
  scan_parts w ps tr = (Done false, tr).
Proof.
  induction ps as [|part rest IH]; intros Hnone; [reflexivity|].
  cbn [scan_parts]. rewrite (Hnone part (or_introl eq_refl)).
  apply IH. intros p Hp. apply Hnone. right. exact Hp.
Qed.

Lemma log_parts_run ps : forall i tr,
  log_parts i ps tr = (Done tt, tr ++ part_lines i ps).
Proof.
  induction ps as [|part rest IH]; intros i tr.
  - cbn. rewrite app_nil_r. reflexivity.
  - cbn [log_parts part_lines]. unfold Proc.bind, emit. rewrite IH.
    rewrite <- app_assoc. reflexivity.
Qed.

Lemma probe_models_run w models : forall tr,
  probe_models w models tr =
    (Done (List.find (fun m => is_ok (say_hello w m)) models), tr ++ probe_log w models).
Proof.
  induction models as [|m rest IH]; intros tr.
  - cbn. rewrite app_nil_r. reflexivity.
  - cbn [probe_models probe_log List.find].
    run_bind. unfold try_except.
    run_emit.
    run_emit.
    run_bind. unfold lift at 1.
    destruct (say_hello w m) as [[]|e]; cbn [is_ok].
    + unfold Proc.bind, emit, ret. rewrite <- !app_assoc. reflexivity.
    + run_emit. cbn [ret].
      rewrite IH. rewrite <- !app_assoc. reflexivity.
Qed.

Lemma part_lines_no_file i ps : forallb (fun e => negb (writes_file e)) (part_lines i ps) = true.
Proof.
  revert i. induction ps as [|p rest IH]; intros i; [reflexivity|].
  cbn [part_lines forallb writes_file negb andb]. apply IH.
Qed.

Lemma probe_log_no_file w models :
  forallb (fun e => negb (writes_file e)) (probe_log w models) = true.
Proof.
  induction models as [|m rest IH]; [reflexivity|].
  cbn [probe_log forallb writes_file negb andb].
  destruct (say_hello w m); [reflexivity|].
  cbn [forallb writes_file negb andb]. exact IH.
Qed.

(** What [generate_feature_graphic] does on a response without image. *)
Lemma generate_without_image w model_name icon_path icon response tr :
  open_image w icon_path = Ok icon ->
  generate_content w model_name icon = Ok response ->
  (forall part, In part (parts_or_empty response) -> inline_data part = None) ->
  generate_feature_graphic w model_name icon_path tr =
    (Done false,
     tr ++ [Print (IconLoaded (width icon) (height icon));
            Print GeneratingWithAI;
            Send (GenerateBanner model_name icon);
            Print NoImageInResponse]
        ++ part_lines 0 (parts_or_empty response)).
Proof.
  intros Hicon Hresp Hnone.
  unfold generate_feature_graphic, try_except.
  run_bind. rewrite Hicon. cbn [lift].
  run_emit.
  run_emit.
  run_emit.
  run_bind. rewrite Hresp. cbn [lift].
  run_bind. rewrite (scan_parts_without_image w _ _ Hnone).
  run_emit.
  run_bind. rewrite log_parts_run. cbn [ret].
  rewrite <- !app_assoc. reflexivity.
Qed.

(** The diagnostic lines, part by part. *)
Lemma part_lines_spelled ps : forall i0,
  exists lines,
    part_lines i0 ps = List.map Print lines /\
    List.length lines = List.length ps /\
    forall i part, nth_error ps i = Some part ->
      nth_error lines i = Some (part_line (i0 + i) part).
Proof.
  induction ps as [|p rest IH]; intros i0.
  - exists []. repeat split. intros [|i] part Hnth; discriminate Hnth.
  - destruct (IH (S i0)) as (lines & Heq & Hlen & Hnth).
    exists (part_line i0 p :: lines). cbn [part_lines List.map List.length].
    rewrite Heq, Hlen. repeat split.
    intros [|i] part Hi; cbn [nth_error] in *.
    + injection Hi as <-. rewrite Nat.add_0_r. reflexivity.
    + rewrite (Hnth i part Hi). f_equal. f_equal. lia.
Qed.

(** C6.  When no part of the response carries inline image data,
    [generate_feature_graphic] prints one line for each part received,
    in order: its index and type and, for a part with text, the first
    80 code points of the text with newlines turned into spaces; it
    returns [False] and writes no file, and the process then exits with
    status 1. *)
Theorem no_image_in_response
  (w : World) (api_key icon_path model_name : string) (icon : Image) (response : Response) :
  GOOGLE_API_KEY w = Some api_key -> api_key <> EmptyString ->
  find_icon w = Some icon_path ->
  selected_model w = Some model_name ->
  open_image w icon_path = Ok icon ->
  generate_content w model_name icon = Ok response ->
  (forall ps part, parts response = Some ps -> In part ps -> inline_data part = None) ->
  exists lines : list message,
    List.length lines =
      match parts response with Some ps => List.length ps | None => 0%nat end /\
    (forall ps i part,
       parts response = Some ps -> nth_error ps i = Some part ->
       nth_error lines i =
         Some (match text part with
               | Some (c :: t) =>
                 PartWithText i (part_type part)
                   (List.map (fun c => if N.eqb c 10 then 32%N else c)
                             (List.firstn 80 (c :: t)))
               | _ => PartWithoutText i (part_type part)
               end)) /\
    (forall tr,
       generate_feature_graphic w model_name icon_path tr =
         (Done false,
          tr ++ [Print (IconLoaded (width icon) (height icon));
                 Print GeneratingWithAI;
                 Send (GenerateBanner model_name icon);
                 Print NoImageInResponse]
             ++ List.map Print lines)) /\
    exit_code w = 1 /\
    forallb (fun e => negb (writes_file e)) (trace w) = true /\
    exists before,
      trace w = before ++ Print NoImageInResponse :: List.map Print lines ++ [Print Failed].
Proof.
  intros Hkey Hnonempty Hfind Hmodel Hicon Hresp Hparts.
  assert (Hnone : forall part, In part (parts_or_empty response) -> inline_data part = None).
  { unfold parts_or_empty. destruct (parts response) as [ps|] eqn:Eps.
    - intros part Hin. exact (Hparts ps part eq_refl Hin).
    - intros part []. }
  destruct (part_lines_spelled (parts_or_empty response) 0)
    as (lines & Hlines & Hlen & Hnth).
  exists lines.
  split.
  { rewrite Hlen. unfold parts_or_empty. destruct (parts response); reflexivity. }
  split.
  { intros ps i part Eps Hi.
    assert (Hi' : nth_error (parts_or_empty response) i = Some part)
      by (unfold parts_or_empty; rewrite Eps; exact Hi).
    rewrite (Hnth i part Hi'). cbn [Nat.add]. unfold part_line.
    destruct (text part) as [[|c t]|]; reflexivity. }
  assert (Hgen : forall tr,
            generate_feature_graphic w model_name icon_path tr =
              (Done false,
               tr ++ [Print (IconLoaded (width icon) (height icon));
                      Print GeneratingWithAI;
                      Send (GenerateBanner model_name icon);
                      Print NoImageInResponse]
                  ++ List.map Print lines)).
  { intros tr. rewrite <- Hlines. apply generate_without_image; assumption. }
  split; [exact Hgen|].
  assert (Hrun : run (main w) =
    (Exited 1,
     ([Print Banner; NewClient api_key; Print (UsingIcon icon_path);
       Mkdir OUTPUT_DIR; Print (OutputTo OUTPUT_DIR)]
      ++ probe_log w models_to_try
      ++ [Print GeneratingFeatureGraphic;
          Print (IconLoaded (width icon) (height icon));
          Print GeneratingWithAI;
          Send (GenerateBanner model_name icon)])
     ++ Print NoImageInResponse :: List.map Print lines ++ [Print Failed])).
  { unfold run, main. rewrite Hkey.
    assert (Hmiss : api_key_missing (Some api_key) = false).
    { unfold api_key_missing. destruct api_key; [congruence|reflexivity]. }
    rewrite Hmiss, Hfind.
    run_emit.
    run_emit.
    run_emit.
    run_emit.
    run_emit.
    run_bind. rewrite probe_models_run.
    fold (selected_model w). rewrite Hmodel.
    run_emit.
    run_bind.
    rewrite Hgen.
    unfold Proc.bind, emit, sys_exit.
    f_equal. cbn [app]. rewrite <- !app_assoc. cbn [app]. reflexivity. }
  unfold exit_code, trace. rewrite Hrun. cbn [fst snd exit_status].
  split; [reflexivity|]. split.
  - rewrite !forallb_app. cbn [forallb writes_file negb andb].
    rewrite probe_log_no_file.
    change (Print NoImageInResponse :: List.map Print lines ++ [Print Failed])
      with ([Print NoImageInResponse] ++ List.map Print lines ++ [Print Failed]).
    rewrite !forallb_app. rewrite <- Hlines, part_lines_no_file. reflexivity.
  - eexists. reflexivity.
Qed.

(** C7.  Without [GOOGLE_API_KEY] the process exits with status 1 before
    it builds a client or sends any request. *)
Theorem missing_api_key (w : World) :
  GOOGLE_API_KEY w = None ->
  exit_code w = 1 /\
  trace w = [Print Banner; Print ApiKeyNotSet] /\
  forallb (fun e => negb (touches_service e)) (trace w) = true.
Proof.
  intros Hkey. unfold exit_code, trace, run, main. rewrite Hkey.
  repeat split; reflexivity.
Qed.

End FeatureGraphicProofs.

Lemma no_image_in_response_witness :
  (FeatureGraphic.GOOGLE_API_KEY Fixtures.talkative_service = Some "secret"%string /\
   "secret"%string <> EmptyString /\
   FeatureGraphic.find_icon Fixtures.talkative_service = Some "assets/icon.png"%string /\
   FeatureGraphic.selected_model Fixtures.talkative_service
     = Some "gemini-3-pro-image-preview"%string /\
   FeatureGraphic.open_image Fixtures.talkative_service "assets/icon.png"
     = Ok Fixtures.icon /\
   FeatureGraphic.generate_content Fixtures.talkative_service
     "gemini-3-pro-image-preview" Fixtures.icon = Ok Fixtures.words_only /\
   (forall ps part,
      FeatureGraphic.parts Fixtures.words_only = Some ps -> In part ps ->
      FeatureGraphic.inline_data part = None)) /\
  exists lines,
    lines = [FeatureGraphic.PartWithText 0 "Part" (str_of_ascii "I cannot draw that.")] /\
    FeatureGraphic.exit_code (H := Fixtures.nearest) (H0 := Fixtures.keep_pixels)
      (mem := Fixtures.frugal) Fixtures.talkative_service = 1 /\
    exists before,
      FeatureGraphic.trace (H := Fixtures.nearest) (H0 := Fixtures.keep_pixels)
        (mem := Fixtures.frugal) Fixtures.talkative_service
      = before ++ FeatureGraphic.Print FeatureGraphic.NoImageInResponse
                  :: List.map FeatureGraphic.Print lines
                  ++ [FeatureGraphic.Print FeatureGraphic.Failed].
Proof.
  assert (Hkey : "secret"%string <> EmptyString) by discriminate.
  assert (Hparts : forall ps part,
             FeatureGraphic.parts Fixtures.words_only = Some ps -> In part ps ->
             FeatureGraphic.inline_data part = None).
  { intros ps part Hps Hin. injection Hps as <-. destruct Hin as [<-|[]]. reflexivity. }
  split; [repeat split; try reflexivity; assumption|].
  destruct (no_image_in_response (H := Fixtures.nearest)
              (H0 := Fixtures.keep_pixels) (mem := Fixtures.frugal)
              Fixtures.talkative_service
              "secret" "assets/icon.png" "gemini-3-pro-image-preview"
              Fixtures.icon Fixtures.words_only
              eq_refl Hkey eq_refl eq_refl eq_refl eq_refl Hparts)
    as (lines & Hlen & Hnth & _ & Hexit & _ & Htrace).
  exists lines. split; [|split; [exact Hexit|exact Htrace]].
  destruct lines as [|line [|line' rest]]; try discriminate Hlen.
  pose proof (Hnth _ 0%nat _ eq_refl eq_refl) as Hline.
  injection Hline as ->. reflexivity.
Defined.

Lemma missing_api_key_witness :
  FeatureGraphic.GOOGLE_API_KEY Fixtures.no_credential = None /\
  FeatureGraphic.exit_code (H := Fixtures.nearest) (H0 := Fixtures.keep_pixels)
        (mem := Fixtures.frugal)
    Fixtures.no_credential = 1.
Proof.
  split; [reflexivity|].
  exact (proj1 (missing_api_key (H := Fixtures.nearest) (H0 := Fixtures.keep_pixels)
        (mem := Fixtures.frugal)
                  Fixtures.no_credential eq_refl)).
Defined.

(* ================================================================== *)
(** * Framed processes                                                 *)
(* ================================================================== *)

Section FrameFacts.
Context {E : Type}.

Lemma framed_ret {A : Type} (a : A) : framed (@ret E A a).
Proof. intros tr. unfold ret. cbn. rewrite app_nil_r. reflexivity. Qed.

Lemma framed_emit (e : E) : framed (emit e).
Proof. intros tr. reflexivity. Qed.

Lemma framed_lift {A : Type} (r : result A) : framed (@lift E A r).
Proof. intros tr. unfold lift. destruct r; cbn; rewrite app_nil_r; reflexivity. Qed.

Lemma framed_sys_exit {A : Type} (c : Z) : framed (@sys_exit E A c).
Proof. intros tr. unfold sys_exit. cbn. rewrite app_nil_r. reflexivity. Qed.

Lemma framed_bind {A B : Type} (p : proc E A) (k : A -> proc E B) :
  framed p -> (forall a, framed (k a)) -> framed (Proc.bind p k).
Proof.
  intros Hp Hk tr. unfold Proc.bind.
  rewrite (Hp tr). destruct (p []) as [[a|e|c] l]; cbn [fst snd].
  - rewrite (Hk a (tr ++ l)), (Hk a l). cbn [fst snd].
    rewrite app_assoc. reflexivity.
  - reflexivity.
  - reflexivity.
Qed.

Lemma framed_try_except {A : Type} (body : proc E A) (handler : exn -> proc E A) :
  framed body -> (forall e, framed (handler e)) -> framed (try_except body handler).
Proof.
  intros Hb Hh tr. unfold try_except.
  rewrite (Hb tr). destruct (body []) as [[a|e|c] l]; cbn [fst snd].
  - reflexivity.
  - rewrite (Hh e (tr ++ l)), (Hh e l). cbn [fst snd].
    rewrite app_assoc. reflexivity.
  - reflexivity.
Qed.

(** A framed process run after a trace, in terms of its run on its own. *)
Lemma framed_run {A : Type} (p : proc E A) (o : outcome A) (l tr : list E) :
  framed p -> p [] = (o, l) -> p tr = (o, tr ++ l).
Proof. intros Hp Hrun. rewrite (Hp tr), Hrun. reflexivity. Qed.

End FrameFacts.

Ltac framed_steps :=
  repeat first
    [ apply framed_ret | apply framed_emit | apply framed_lift | apply framed_sys_exit
    | apply framed_bind; [|intros ?]
    | apply framed_try_except; [|intros ?] ].

Section CropTraceFacts.
Context `{Resampling} {mem : Memory}.
Import CropForApple CropTrace.

Lemma process_image_framed w tw th p : framed (process_image w tw th p).
Proof. unfold process_image. framed_steps. Qed.

Lemma processing_names_app l1 l2 :
  processing_names (l1 ++ l2) = processing_names l1 ++ processing_names l2.
Proof.
  induction l1 as [|[[]| |] l1 IH]; cbn [app processing_names]; rewrite ?IH; reflexivity.
Qed.

Lemma saved_files_app l1 l2 :
  saved_files (l1 ++ l2) = saved_files l1 ++ saved_files l2.
Proof.
  induction l1 as [|[| |] l1 IH]; cbn [app saved_files]; rewrite ?IH; reflexivity.
Qed.

Lemma error_lines_app l1 l2 :
  error_lines (l1 ++ l2) = error_lines l1 ++ error_lines l2.
Proof.
  induction l1 as [|[[]| |] l1 IH]; cbn [app error_lines]; rewrite ?IH; reflexivity.
Qed.

(** Unfolds one run of the [try] block and splits on every answer of
    the world. *)
Ltac split_image_run w tw th p :=
  unfold turn_log, completes, image_run, process_image, Proc.bind, emit, lift, ret;
  destruct (open_image w p) as [?image|?e]; cbn [fst snd app];
  [destruct (crop_center image tw th) as [?cropped|?e] eqn:?Hcrop; cbn [fst snd app];
   [destruct (save_png w p cropped) as [[]|?e]; cbn [fst snd app];
    [destruct (stat_size w p) as [?sz|?e]; cbn [fst snd app];
     [destruct (truediv sz 1024) as [?kb|?e]; cbn [fst snd app]| ] | ] | ] | ].

(** One turn of the loop: one "Processing" line, carrying the name. *)
Lemma turn_processing w tw th p :
  processing_names (turn_log w tw th p) = [p].
Proof. split_image_run w tw th p; reflexivity. Qed.

(** One turn writes at most one file: the crop of the file it opened,
    under the same name. *)
Lemma turn_saved w tw th p :
  saved_files (turn_log w tw th p) = [] \/
  exists image cropped,
    open_image w p = Ok image /\
    crop_center image tw th = Ok cropped /\
    saved_files (turn_log w tw th p) = [(p, cropped)].
Proof.
  destruct (open_image w p) as [image0|e0] eqn:Hopen.
  2:{ left. unfold turn_log, completes, image_run, process_image, Proc.bind, emit, lift, ret.
      rewrite Hopen. reflexivity. }
  destruct (crop_center image0 tw th) as [cropped0|e0] eqn:Hcc.
  2:{ left. unfold turn_log, completes, image_run, process_image, Proc.bind, emit, lift, ret.
      rewrite Hopen. cbn [fst snd app]. rewrite Hcc. reflexivity. }
  destruct (save_png w p cropped0) as [[]|e0] eqn:Hsave.
  2:{ left. unfold turn_log, completes, image_run, process_image, Proc.bind, emit, lift, ret.
      rewrite Hopen. cbn [fst snd app]. rewrite Hcc. cbn [fst snd app].
      rewrite Hsave. reflexivity. }
  right. exists image0, cropped0. split; [reflexivity|]. split; [exact Hcc|].
  unfold turn_log, completes, image_run, process_image, Proc.bind, emit, lift, ret.
  rewrite Hopen. cbn [fst snd app]. rewrite Hcc. cbn [fst snd app]. rewrite Hsave.
  cbn [fst snd app].
  destruct (stat_size w p) as [sz|e1]; cbn [fst snd app]; [|reflexivity].
  destruct (truediv sz 1024) as [kb|e1]; cbn [fst snd app]; reflexivity.
Qed.

(** One turn prints an "Error" line exactly when the block did not
    complete, and a block that completes has written its file. *)
Lemma turn_errors w tw th p :
  List.length (error_lines (turn_log w tw th p)) =
    if completes w tw th p then 0%nat else 1%nat.
Proof. split_image_run w tw th p; reflexivity. Qed.

Lemma turn_completes_saved w tw th p :
  completes w tw th p = true ->
  List.length (saved_files (turn_log w tw th p)) = 1%nat.
Proof. split_image_run w tw th p; intros Hc; try discriminate Hc; reflexivity. Qed.

Lemma turn_touches_no_dir w tw th p :
  forallb (fun e => match e with Mkdir _ => false | _ => true end)
          (turn_log w tw th p) = true.
Proof. split_image_run w tw th p; reflexivity. Qed.

(** The loop, turn by turn. *)
Lemma process_images_run w tw th paths : forall success tr,
  process_images w tw th paths success tr =
    (Done (success + successes w tw th paths), tr ++ batch_log w tw th paths).
Proof.
  induction paths as [|p rest IH]; intros success tr.
  - cbn. unfold successes. cbn. rewrite Z.add_0_r, app_nil_r. reflexivity.
  - cbn [process_images batch_log]. run_bind. unfold try_except. run_bind.
    rewrite (process_image_framed w tw th p tr).
    unfold successes, turn_log. cbn [List.filter].
    assert (Hc : completes w tw th p =
                 match fst (image_run w tw th p) with Done _ => true | _ => false end)
      by reflexivity.
    rewrite Hc. clear Hc. fold (image_run w tw th p).
    destruct (image_run w tw th p) as [[[]|e|c] l] eqn:Hrun; cbn [fst snd].
    + cbn [ret]. rewrite IH. unfold successes. cbn [List.length].
      rewrite app_nil_r, <- app_assoc. f_equal. f_equal.
      rewrite Nat2Z.inj_succ. lia.
    + unfold Proc.bind at 1. unfold emit at 1. cbn [ret]. rewrite IH.
      unfold successes. rewrite <- !app_assoc. reflexivity.
    + exfalso. unfold image_run in Hrun.
      destruct (process_image_no_exit w tw th p []) as [(tr1 & Heq)|(e & tr1 & Heq)];
        rewrite Heq in Hrun; discriminate Hrun.
Qed.

(** The whole run of [main] once the two precondition checks pass. *)
Lemma run_batch_console w tw th tr :
  input_dir_exists w = true -> glob_png w <> [] ->
  run_batch w tw th tr =
    (Done tt,
     tr ++ [Print (FoundImages (List.length (glob_png w)));
            Mkdir OUTPUT_DIR; Print (OutputTo OUTPUT_DIR)]
        ++ batch_log w tw th (sorted (glob_png w))
        ++ Print (Processed (0 <? successes w tw th (sorted (glob_png w)))
                            (successes w tw th (sorted (glob_png w)))
                            (List.length (glob_png w)))
           :: (if 0 <? successes w tw th (sorted (glob_png w))
               then [Print (OutputDirectory OUTPUT_DIR); Print HintSmallerPhone]
               else [])).
Proof.
  intros Hdir Hglob. unfold run_batch. rewrite Hdir. cbn [negb].
  destruct (glob_png w) as [|p ps] eqn:Eglob; [congruence|].
  run_bind. cbn [ret]. run_bind. cbn [ret].
  run_emit. run_emit. run_emit. run_bind.
  rewrite process_images_run. rewrite Z.add_0_l.
  set (n := successes w tw th (sorted (p :: ps))).
  run_emit. unfold Proc.bind, emit, ret.
  destruct (0 <? n); cbn [app]; repeat rewrite <- app_assoc; cbn [app]; reflexivity.
Qed.

End CropTraceFacts.

(* ================================================================== *)
(** * tools/crop-for-apple.py: the batch, file by file                 *)
(* ================================================================== *)

Section CropRunFacts.
Context `{Resampling} {mem : Memory}.
Import CropForApple CropTrace.

(** ** [sorted] *)

Lemma insert_sorted_perm p l : Permutation (insert_sorted p l) (p :: l).
Proof.
  induction l as [|q l IH]; cbn [insert_sorted]; [reflexivity|].
  destruct (String.leb p q); [reflexivity|].
  rewrite IH. apply perm_swap.
Qed.

Lemma sorted_perm l : Permutation (sorted l) l.
Proof.
  induction l as [|p l IH]; cbn [sorted]; [reflexivity|].
  rewrite insert_sorted_perm. constructor. exact IH.
Qed.

Lemma insert_sorted_hd p q l :
  HdRel name_le q l -> name_le q p -> HdRel name_le q (insert_sorted p l).
Proof.
  intros Hhd Hqp. destruct l as [|x l]; cbn [insert_sorted].
  - constructor. exact Hqp.
  - destruct (String.leb p x); constructor; [exact Hqp|].
    inversion Hhd; assumption.
Qed.

Lemma insert_sorted_sorted p l :
  Sorted name_le l -> Sorted name_le (insert_sorted p l).
Proof.
  induction l as [|q l IH]; intros Hs; cbn [insert_sorted].
  - repeat constructor.
  - inversion Hs as [|? ? Hl Hhd]; subst.
    destruct (String.leb p q) eqn:Hpq.
    + constructor; [exact Hs|]. constructor. exact Hpq.
    + constructor; [apply IH; exact Hl|].
      apply insert_sorted_hd; [exact Hhd|].
      destruct (String.leb_total p q) as [Hc|Hc]; [congruence|exact Hc].
Qed.

Lemma sorted_sorted l : Sorted name_le (sorted l).
Proof.
  induction l as [|p l IH]; cbn [sorted]; [constructor|].
  apply insert_sorted_sorted. exact IH.
Qed.

Lemma successes_perm w tw th l l' :
  Permutation l l' -> successes w tw th l = successes w tw th l'.
Proof.
  intros Hp. unfold successes. f_equal.
  induction Hp as [|x l l' Hp IH|x y l|l l' l'' Hp1 IH1 Hp2 IH2]; cbn [List.filter].
  - reflexivity.
  - destruct (completes w tw th x); cbn [List.length]; congruence.
  - destruct (completes w tw th x), (completes w tw th y); reflexivity.
  - congruence.
Qed.

(** ** [main], from its first line *)

Lemma main_run argv w :
  exists tw th,
    target_dimensions argv = Ok (tw, th) /\
    forall tr,
      main argv w tr =
      run_batch w tw th (tr ++ [Print Banner; Print (Target tw th (select_size_key argv))]).
Proof.
  unfold main, target_dimensions.
  destruct (select_size_key_cases argv) as [-> | ->].
  - exists 1284, 2778. split; [reflexivity|]. intros tr.
    run_emit. run_bind. cbn [lift dict_getitem dict_find APPLE_DIMENSIONS String.eqb
                            Ascii.eqb Bool.eqb]. run_emit.
    rewrite <- app_assoc. reflexivity.
  - exists 1242, 2688. split; [reflexivity|]. intros tr.
    run_emit. run_bind. cbn [lift dict_getitem dict_find APPLE_DIMENSIONS String.eqb
                            Ascii.eqb Bool.eqb]. run_emit.
    rewrite <- app_assoc. reflexivity.
Qed.

(** The loop's log, read three ways. *)
Lemma batch_processing w tw th paths :
  processing_names (batch_log w tw th paths) = paths.
Proof.
  induction paths as [|p rest IH]; [reflexivity|].
  cbn [batch_log]. rewrite processing_names_app, turn_processing, IH. reflexivity.
Qed.

Lemma batch_saved w tw th paths :
  Forall (fun f => In (fst f) paths /\
                   size (snd f) = (tw, th) /\
                   exists image, open_image w (fst f) = Ok image /\
                                 crop_center image tw th = Ok (snd f))
         (saved_files (batch_log w tw th paths)).
Proof.
  induction paths as [|p rest IH]; [constructor|].
  cbn [batch_log]. rewrite saved_files_app. apply Forall_app. split.
  - destruct (turn_saved w tw th p) as [->|(image & cropped & Hopen & Hcc & ->)];
      [constructor|].
    constructor; [|constructor]. cbn [fst snd].
    split; [left; reflexivity|].
    split; [apply (crop_center_output_size _ _ _ _ Hcc)|].
    exists image. split; assumption.
  - eapply Forall_impl; [|exact IH]. intros f (Hin & Hrest). split; [right; exact Hin|exact Hrest].
Qed.

Lemma batch_errors w tw th paths :
  Z.of_nat (List.length (error_lines (batch_log w tw th paths))) =
    Z.of_nat (List.length paths) - successes w tw th paths.
Proof.
  unfold successes. induction paths as [|p rest IH]; [reflexivity|].
  cbn [batch_log List.filter]. rewrite error_lines_app, length_app, turn_errors.
  destruct (completes w tw th p); cbn [List.length]; lia.
Qed.

Lemma batch_saved_count w tw th paths :
  successes w tw th paths <= Z.of_nat (List.length (saved_files (batch_log w tw th paths)))
    <= Z.of_nat (List.length paths).
Proof.
  unfold successes. induction paths as [|p rest IH]; [cbn; lia|].
  cbn [batch_log List.filter]. rewrite saved_files_app, length_app.
  destruct (completes w tw th p) eqn:Hc.
  - rewrite (turn_completes_saved w tw th p Hc). cbn [List.length]. lia.
  - destruct (turn_saved w tw th p) as [->|(? & ? & _ & _ & ->)]; cbn [List.length]; lia.
Qed.

Lemma batch_no_mkdir w tw th paths :
  forallb (fun e => match e with Mkdir _ => false | _ => true end)
          (batch_log w tw th paths) = true.
Proof.
  induction paths as [|p rest IH]; [reflexivity|].
  cbn [batch_log]. rewrite forallb_app, turn_touches_no_dir, IH. reflexivity.
Qed.

(** The console of a whole run. *)
Lemma console_cases argv w :
  exists tw th,
    target_dimensions argv = Ok (tw, th) /\
    let head := [Print Banner; Print (Target tw th (select_size_key argv))] in
    let n := successes w tw th (sorted (glob_png w)) in
    (input_dir_exists w = false /\
     run (main argv w) =
       (Exited 1, head ++ [Print InputDirNotFound; Print RunPreviewGeneratorFirst]))
    \/
    (input_dir_exists w = true /\ glob_png w = [] /\
     run (main argv w) = (Exited 1, head ++ [Print NoPngImagesFound]))
    \/
    (input_dir_exists w = true /\ glob_png w <> [] /\
     run (main argv w) =
       (Done tt,
        head ++ [Print (FoundImages (List.length (glob_png w)));
                 Mkdir OUTPUT_DIR; Print (OutputTo OUTPUT_DIR)]
             ++ batch_log w tw th (sorted (glob_png w))
             ++ Print (Processed (0 <? n) n (List.length (glob_png w)))
                :: (if 0 <? n
                    then [Print (OutputDirectory OUTPUT_DIR); Print HintSmallerPhone]
                    else []))).
Proof.
  destruct (main_run argv w) as (tw & th & Hdims & Hmain).
  exists tw, th. split; [exact Hdims|]. cbv zeta.
  unfold run. rewrite Hmain. cbn [app].
  destruct (input_dir_exists w) eqn:Hdir.
  - destruct (glob_png w) as [|p ps] eqn:Hglob.
    + right; left. split; [reflexivity|]. split; [reflexivity|].
      unfold run_batch. rewrite Hdir, Hglob. reflexivity.
    + right; right. split; [reflexivity|]. split; [discriminate|].
      rewrite run_batch_console by congruence. rewrite Hglob. reflexivity.
  - left. split; [reflexivity|]. unfold run_batch. rewrite Hdir. reflexivity.
Qed.

End CropRunFacts.

Section CropRunProofs.
Context `{Resampling} {mem : Memory}.
Import CropForApple CropTrace.

(** X1.  A run of the cropper that exits with status 1 has created no
    directory, written no file and started on no image. *)
Theorem failed_run_leaves_disk_untouched (argv : list string) (w : World) :
  exit_code argv w = 1 ->
  forallb (fun e => negb (touches_disk e)) (console argv w) = true /\
  processing_names (console argv w) = [].
Proof.
  intros Hexit. unfold exit_code in Hexit. unfold console.
  destruct (console_cases argv w) as (tw & th & _ & Hcases). cbv zeta in Hcases.
  destruct Hcases as [(_ & Hrun)|[(_ & _ & Hrun)|(_ & _ & Hrun)]];
    rewrite Hrun in *; cbn [fst snd exit_status] in *.
  - split; reflexivity.
  - split; reflexivity.
  - discriminate Hexit.
Qed.

(** X2.  Every file the cropper writes bears the name of an enumerated
    input, is the [crop_center] of that input as opened, and has
    exactly the target dimensions selected from the command line. *)
Theorem saved_previews_are_exact_crops (argv : list string) (w : World) :
  Forall (fun f =>
            In (fst f) (glob_png w) /\
            target_dimensions argv = Ok (size (snd f)) /\
            exists image,
              open_image w (fst f) = Ok image /\
              crop_center image (width (snd f)) (height (snd f)) = Ok (snd f))
         (saved_files (console argv w)).
Proof.
  unfold console.
  destruct (console_cases argv w) as (tw & th & Hdims & Hcases). cbv zeta in Hcases.
  destruct Hcases as [(_ & Hrun)|[(_ & _ & Hrun)|(_ & _ & Hrun)]];
    rewrite Hrun; cbn [snd].
  - constructor.
  - constructor.
  - cbn [app saved_files]. rewrite saved_files_app.
    assert (Htail : saved_files
              (Print (Processed (0 <? successes w tw th (sorted (glob_png w)))
                        (successes w tw th (sorted (glob_png w)))
                        (List.length (glob_png w)))
               :: (if 0 <? successes w tw th (sorted (glob_png w))
                   then [Print (OutputDirectory OUTPUT_DIR); Print HintSmallerPhone]
                   else [])) = []).
    { destruct (0 <? successes w tw th (sorted (glob_png w))); reflexivity. }
    rewrite Htail, app_nil_r.
    eapply Forall_impl; [|apply batch_saved].
    intros [name im]. cbn [fst snd]. intros (Hin & Hsz & image & Hopen & Hcc).
    split; [eapply Permutation_in; [apply sorted_perm|exact Hin]|].
    split; [rewrite Hsz; exact Hdims|].
    exists image. split; [exact Hopen|].
    unfold width, height. rewrite Hsz. exact Hcc.
Qed.

(** X3.  The images are processed one by one in ascending order of
    name, each exactly once, whatever happens to the others. *)
Theorem previews_processed_in_name_order (argv : list string) (w : World) :
  processing_names (console argv w) =
    (if input_dir_exists w then sorted (glob_png w) else []) /\
  Permutation (sorted (glob_png w)) (glob_png w) /\
  Sorted name_le (sorted (glob_png w)).
Proof.
  split; [|split; [apply sorted_perm|apply sorted_sorted]].
  unfold console.
  destruct (console_cases argv w) as (tw & th & Hdims & Hcases). cbv zeta in Hcases.
  destruct Hcases as [(Hdir & Hrun)|[(Hdir & Hglob & Hrun)|(Hdir & _ & Hrun)]];
    rewrite Hrun, Hdir; cbn [snd].
  - reflexivity.
  - rewrite Hglob. reflexivity.
  - cbn [app processing_names]. rewrite processing_names_app, batch_processing.
    destruct (0 <? successes w tw th (sorted (glob_png w)));
      cbn [processing_names]; apply app_nil_r.
Qed.

(** X4.  When the directory holds images, the final line reports the
    number of images whose processing ran to its end; every other image
    has exactly one "Error" line, and the run has written at least as
    many files as it reports and at most one per image. *)
Theorem processed_count_is_exact (argv : list string) (w : World) :
  input_dir_exists w = true -> glob_png w <> [] ->
  exists tw th,
    target_dimensions argv = Ok (tw, th) /\
    let n := successes w tw th (glob_png w) in
    let total := List.length (glob_png w) in
    In (Print (Processed (0 <? n) n total)) (console argv w) /\
    0 <= n <= Z.of_nat total /\
    Z.of_nat (List.length (error_lines (console argv w))) = Z.of_nat total - n /\
    n <= Z.of_nat (List.length (saved_files (console argv w))) <= Z.of_nat total.
Proof.
  intros Hdir Hglob. unfold console.
  destruct (console_cases argv w) as (tw & th & Hdims & Hcases). cbv zeta in Hcases.
  destruct Hcases as [(Hdir' & _)|[(_ & Hglob' & _)|(_ & _ & Hrun)]];
    [congruence | congruence |].
  exists tw, th. split; [exact Hdims|]. cbv zeta.
  rewrite Hrun. cbn [snd].
  rewrite (successes_perm w tw th _ _ (sorted_perm (glob_png w))) in *.
  set (n := successes w tw th (glob_png w)).
  assert (Hlen : List.length (sorted (glob_png w)) = List.length (glob_png w))
    by (apply Permutation_length, sorted_perm).
  pose proof (batch_errors w tw th (sorted (glob_png w))) as Herr.
  pose proof (batch_saved_count w tw th (sorted (glob_png w))) as Hsaved.
  rewrite (successes_perm w tw th _ _ (sorted_perm (glob_png w))), Hlen in Herr, Hsaved.
  fold n in Herr, Hsaved.
  split; [|split; [|split]].
  - cbn [app]. do 5 right. apply in_or_app. right. left. reflexivity.
  - unfold n, successes. split; [lia|]. apply Nat2Z.inj_le, filter_length_le.
  - cbn [app error_lines]. rewrite error_lines_app, length_app.
    destruct (0 <? n); cbn [error_lines List.length]; lia.
  - cbn [app saved_files]. rewrite saved_files_app, length_app.
    destruct (0 <? n); cbn [saved_files List.length]; lia.
Qed.

End CropRunProofs.

(** ** The theorems at sample inputs *)

Lemma failed_run_leaves_disk_untouched_witness :
  CropForApple.exit_code (H := Fixtures.nearest) (mem := Fixtures.frugal)
    ["crop-for-apple.py"; "6.5"]%string Samples.missing_previews = 1 /\
  CropTrace.processing_names
    (CropForApple.console (H := Fixtures.nearest) (mem := Fixtures.frugal)
       ["crop-for-apple.py"; "6.5"]%string Samples.missing_previews) = [].
Proof.
  assert (Hexit : CropForApple.exit_code (H := Fixtures.nearest) (mem := Fixtures.frugal)
                    ["crop-for-apple.py"; "6.5"]%string Samples.missing_previews = 1)
    by reflexivity.
  split; [exact Hexit|].
  exact (proj2 (failed_run_leaves_disk_untouched (H := Fixtures.nearest) (mem := Fixtures.frugal)
                  ["crop-for-apple.py"; "6.5"]%string Samples.missing_previews Hexit)).
Defined.

Lemma processed_count_is_exact_witness :
  (CropForApple.input_dir_exists Samples.mixed_previews = true /\
   CropForApple.glob_png Samples.mixed_previews <> []) /\
  exists tw th,
    CropForApple.target_dimensions ["crop-for-apple.py"%string] = Ok (tw, th) /\
    0 <= CropTrace.successes (H := Fixtures.nearest)
          (mem := Fixtures.frugal) Samples.mixed_previews tw th
           (CropForApple.glob_png Samples.mixed_previews) <= 2.
Proof.
  assert (Hdir : CropForApple.input_dir_exists Samples.mixed_previews = true)
    by reflexivity.
  assert (Hglob : CropForApple.glob_png Samples.mixed_previews <> []) by discriminate.
  split; [split; assumption|].
  destruct (processed_count_is_exact (H := Fixtures.nearest) (mem := Fixtures.frugal)
              ["crop-for-apple.py"%string] Samples.mixed_previews Hdir Hglob)
    as (tw & th & Hdims & _ & Hbounds & _).
  exists tw, th. split; [exact Hdims|exact Hbounds].
Defined.

(* ================================================================== *)
(** * tools/crop-for-apple.py: more on the geometry                    *)
(* ================================================================== *)

(** Rounding gains less than one part in [2^52] either. *)
Lemma rounded_relative_up x f :
  rounded x f -> (B2R f <= x * (1 + bpow (-52)))%R.
Proof.
  intros (m & e & m1 & e1 & -> & Hm & Hm1 & He & [[Hlo Hhi] Hf]). cbn [B2R].
  assert (Hstep : (F2R (m1 + 1) e1 = F2R m1 e1 + bpow e1)%R).
  { unfold F2R. rewrite plus_IZR. ring. }
  assert (Hceil : (F2R (Zpos m) e <= F2R m1 e1 + bpow e1)%R).
  { pose proof (bpow_pos e1). destruct Hf as [->|[-> _]]; lra. }
  assert (Hulp : (bpow e1 <= x * bpow (-52))%R).
  { pose proof (normal_lower m1 e1 Hm1) as Hn. rewrite bpow_add in Hn.
    assert (Hone : (bpow 52 * bpow (-52) = 1)%R) by (rewrite <- bpow_add; reflexivity).
    pose proof (bpow_pos (-52)). pose proof (bpow_pos e1).
    assert (Hx : (bpow 52 * bpow e1 <= x)%R) by lra.
    apply Rmult_le_compat_r with (r := bpow (-52)) in Hx; [|lra].
    replace (bpow 52 * bpow e1 * bpow (-52))%R with (bpow e1 * (bpow 52 * bpow (-52)))%R
      in Hx by ring.
    rewrite Hone, Rmult_1_r in Hx. exact Hx. }
  rewrite Rmult_plus_distr_l, Rmult_1_r. lra.
Qed.

Section CropGeometryBounds.
Context `{Resampling} {mem : Memory}.
Import CropForApple.

Lemma upscale_mode (image image' : Image) tw th :
  upscale image tw th = Ok image' -> mode image' = mode image.
Proof.
  unfold upscale. destruct (needs_upscale image tw th).
  - destruct (upscaled_size (width image) (height image) tw th) as [sz|e]; [|discriminate].
    cbn [Py.bind]. intros Hres. apply (resize_output _ _ _ Hres).
  - intros Heq. injection Heq as <-. reflexivity.
Qed.

(** X5.  Whenever [crop_center] returns, its result has exactly the
    target dimensions and the pixel format of the source, whatever the
    source size and whether or not it was upscaled. *)
Theorem crop_center_output_is_target_sized (image out : Image) (target_width target_height : Z) :
  crop_center image target_width target_height = Ok out ->
  size out = (target_width, target_height) /\ mode out = mode image.
Proof.
  intros Hcc. split; [apply (crop_center_output_size _ _ _ _ Hcc)|].
  unfold crop_center in Hcc.
  destruct (upscale image target_width target_height) as [image'|e] eqn:Hup; [|discriminate].
  cbn [Py.bind] in Hcc. rewrite <- (upscale_mode _ _ _ _ Hup).
  unfold crop_box in Hcc.
  destruct (crop_returns _ _ _ _ _ _ Hcc) as (_ & _ & _ & ->). reflexivity.
Qed.

(** One coordinate: [int(n * scale)] does not exceed [t] when the scale
    is the rounded [t / n]. *)
Lemma scaled_dim_at_most n t m e :
  valid_dim n -> valid_dim t -> normal (Zpos m) -> -84 <= e <= -21 ->
  (F2R (Zpos m) e <= IZR t / IZR n * (1 + bpow (-52)))%R ->
  forall z, (x <- int_mul_float n (S754_finite false m e) ;; int_of_float x) = Ok z ->
  z <= t.
Proof.
  intros Hn Ht Hm He Hscale z Hz.
  pose proof (valid_dim_int53 n Hn) as Hn53.
  destruct (int_mul_float_rounded n m e Hn53 Hm ltac:(lia)) as (p & Hmul & Hp).
  rewrite Hmul in Hz. cbn [Py.bind] in Hz.
  destruct (int_of_rounded _ _ Hp) as (z' & Hint & Hfl).
  rewrite Hint in Hz. injection Hz as <-.
  pose proof (rounded_relative_up _ _ Hp) as Hrel.
  unfold valid_dim, MAX_DIM in Hn, Ht.
  assert (HnR : (0 < IZR n)%R) by (apply IZR_lt; lia).
  assert (HtR : (1 <= IZR t)%R) by (apply IZR_le; lia).
  assert (HtR' : (IZR t < bpow 31)%R).
  { rewrite bpow_Z by lia. apply IZR_lt. lia. }
  set (u := bpow (-52)) in *.
  assert (Hu : (0 < u)%R) by apply bpow_pos.
  assert (Hu1 : (u < bpow (-51))%R) by (apply bpow_lt; lia).
  assert (Hprod : (IZR n * F2R (Zpos m) e <= IZR t * (1 + u))%R).
  { apply Rmult_le_compat_l with (r := IZR n) in Hscale; [|lra].
    replace (IZR n * (IZR t / IZR n * (1 + u)))%R with (IZR t * (1 + u))%R in Hscale
      by (field; lra).
    exact Hscale. }
  assert (Hp2 : (B2R p <= IZR t * (1 + u) * (1 + u))%R).
  { apply Rle_trans with (IZR n * F2R (Zpos m) e * (1 + u))%R; [exact Hrel|].
    apply Rmult_le_compat_r; lra. }
  assert (Hsmall : (IZR t * (4 * u) < 1)%R).
  { assert (Hb : (bpow 31 * (4 * u) = bpow (-19))%R).
    { unfold u. replace 4%R with (bpow 2) by (unfold bpow; simpl; lra).
      rewrite <- !bpow_add. reflexivity. }
    assert (bpow (-19) < 1)%R.
    { replace 1%R with (bpow 0) by reflexivity. apply bpow_lt. lia. }
    nra. }
  assert (Huu : (u * u < u)%R).
  { assert (u < 1)%R.
    { unfold u. replace 1%R with (bpow 0) by reflexivity. apply bpow_lt. lia. }
    nra. }
  assert (Hlt : (B2R p < IZR t + 1)%R) by nra.
  assert (Hz : (IZR z' < IZR t + 1)%R) by lra.
  rewrite <- plus_IZR in Hz. apply lt_IZR in Hz. lia.
Qed.

(** X6.  The upscale of [crop_center] never shrinks the image, leaves
    each side at most one pixel short of the target, and does not
    exceed the target on the axis that fixed the scale: the crop box of
    the resized image starts at -1 at worst, and at 0 or -1 on one axis. *)
Theorem upscale_just_covers_target (w h target_width target_height : Z) :
  valid_dim w -> valid_dim h -> valid_dim target_width -> valid_dim target_height ->
  w < target_width \/ h < target_height ->
  exists new_width new_height,
    upscaled_size w h target_width target_height = Ok (new_width, new_height) /\
    w <= new_width /\ h <= new_height /\
    target_width - 1 <= new_width /\ target_height - 1 <= new_height /\
    (new_width <= target_width \/ new_height <= target_height) /\
    -1 <= (new_width - target_width) / 2 /\ -1 <= (new_height - target_height) / 2 /\
    ((new_width - target_width) / 2 <= 0 \/ (new_height - target_height) / 2 <= 0).
Proof.
  intros Hw Hh Htw Hth Hsmall.
  destruct (upscaled_size_total w h _ _ Hw Hh Htw Hth Hsmall)
    as (rw & rh & nw & nh & Hrw & Hrh & Hnw & Hnh & Hup & Hwle & Hhle).
  destruct (upscaled_size_within_one_pixel w h _ _ nw nh Hw Hh Htw Hth Hup)
    as (Hnear_w & Hnear_h & Hleft & Htop).
  assert (Hcap : nw <= target_width \/ nh <= target_height).
  { destruct (ratio_rounded _ _ Htw Hw) as (mw & ew & Hdw & Hmw & Hew & Hrndw).
    destruct (ratio_rounded _ _ Hth Hh) as (mh & eh & Hdh & Hmh & Heh & Hrndh).
    rewrite Hdw in Hrw. injection Hrw as <-. rewrite Hdh in Hrh. injection Hrh as <-.
    destruct (max2_cases (S754_finite false mw ew) (S754_finite false mh eh)) as [E|E];
      rewrite E in Hnw, Hnh.
    - left. apply (scaled_dim_at_most w target_width mw ew Hw Htw Hmw Hew); [|exact Hnw].
      apply (rounded_relative_up _ _ Hrndw).
    - right. apply (scaled_dim_at_most h target_height mh eh Hh Hth Hmh Heh); [|exact Hnh].
      apply (rounded_relative_up _ _ Hrndh). }
  exists nw, nh. repeat (split; [assumption|]).
  destruct Hcap as [Hc|Hc]; [left|right];
    (apply Z.div_le_upper_bound; [lia|]); lia.
Qed.

(** X7.  An image without width, or without height, that is smaller than
    the target makes [crop_center] raise [ZeroDivisionError]. *)
Theorem crop_center_empty_image (image : Image) (target_width target_height : Z) :
  (width image = 0 /\ 0 < target_width) \/
  (height image = 0 /\ 0 < target_height /\
   valid_dim (width image) /\ valid_dim target_width) ->
  crop_center image target_width target_height = Raise ZeroDivisionError.
Proof.
  intros [[Hw Htw]|(Hh & Hth & Hvw & Hvtw)]; unfold crop_center, upscale.
  - rewrite needs_upscale_true by lia. rewrite Hw. unfold upscaled_size, truediv.
    reflexivity.
  - rewrite needs_upscale_true by lia. rewrite Hh.
    destruct (ratio_rounded _ _ Hvtw Hvw) as (m & e & Hdiv & _).
    unfold upscaled_size. rewrite Hdiv. reflexivity.
Qed.

(** X8.  The crop window of [crop_center] has the target size and sits
    in the middle: the margin after it equals the margin before it, or
    exceeds it by one pixel, on each axis. *)
Theorem crop_box_is_centered (img_width img_height target_width target_height : Z) :
  let '(l, t, r, b) :=
    crop_box img_width img_height target_width target_height in
  r - l = target_width /\ b - t = target_height /\
  0 <= (img_width - r) - l <= 1 /\
  0 <= (img_height - b) - t <= 1.
Proof.
  unfold crop_box.
  pose proof (Z.div_mod (img_width - target_width) 2 ltac:(lia)).
  pose proof (Z.mod_pos_bound (img_width - target_width) 2 ltac:(lia)).
  pose proof (Z.div_mod (img_height - target_height) 2 ltac:(lia)).
  pose proof (Z.mod_pos_bound (img_height - target_height) 2 ltac:(lia)).
  repeat split; lia.
Qed.

End CropGeometryBounds.

(** ** The theorems at sample inputs *)

Lemma crop_center_output_is_target_sized_witness :
  CropForApple.crop_center (H := Fixtures.nearest)
        (mem := Fixtures.frugal) Fixtures.thumbnail 1284 2778
    = Ok Fixtures.cropped_thumbnail /\
  size Fixtures.cropped_thumbnail = (1284, 2778) /\
  mode Fixtures.cropped_thumbnail = mode Fixtures.thumbnail.
Proof.
  assert (Hok : is_ok (CropForApple.crop_center (H := Fixtures.nearest) (mem := Fixtures.frugal)
                         Fixtures.thumbnail 1284 2778) = true)
    by (vm_compute; reflexivity).
  assert (Hcc : CropForApple.crop_center (H := Fixtures.nearest) (mem := Fixtures.frugal)
                  Fixtures.thumbnail 1284 2778 = Ok Fixtures.cropped_thumbnail).
  { unfold Fixtures.cropped_thumbnail.
    destruct (CropForApple.crop_center (H := Fixtures.nearest)
          (mem := Fixtures.frugal) Fixtures.thumbnail 1284 2778);
      [reflexivity | discriminate Hok]. }
  split; [exact Hcc|].
  exact (crop_center_output_is_target_sized (H := Fixtures.nearest) (mem := Fixtures.frugal)
           Fixtures.thumbnail Fixtures.cropped_thumbnail 1284 2778 Hcc).
Defined.

Lemma upscale_just_covers_target_witness :
  (valid_dim 800 /\ valid_dim 800 /\ valid_dim 1284 /\ valid_dim 2778 /\
   (800 < 1284 \/ 800 < 2778)) /\
  exists new_width new_height,
    CropForApple.upscaled_size 800 800 1284 2778 = Ok (new_width, new_height) /\
    1284 - 1 <= new_width /\ 2778 - 1 <= new_height.
Proof.
  assert (Hs : valid_dim 800) by sample_dim.
  assert (Hw : valid_dim 1284) by sample_dim.
  assert (Hh : valid_dim 2778) by sample_dim.
  assert (Hsmall : 800 < 1284 \/ 800 < 2778) by (left; reflexivity).
  split; [repeat split; try assumption; first [apply Hs | apply Hw | apply Hh]|].
  destruct (upscale_just_covers_target 800 800 1284 2778 Hs Hs Hw Hh Hsmall)
    as (nw & nh & Hup & _ & _ & Hnw & Hnh & _).
  exists nw, nh. repeat split; assumption.
Defined.

Lemma crop_center_empty_image_witness :
  (width Samples.blank = 0 /\ 0 < 1284) /\
  CropForApple.crop_center (H := Fixtures.nearest) (mem := Fixtures.frugal) Samples.blank 1284 2778
    = Raise ZeroDivisionError.
Proof.
  assert (Hempty : width Samples.blank = 0 /\ 0 < 1284) by (split; reflexivity).
  split; [exact Hempty|].
  exact (crop_center_empty_image (H := Fixtures.nearest)
        (mem := Fixtures.frugal) Samples.blank 1284 2778
           (or_introl Hempty)).
Defined.

(* ================================================================== *)
(** * tools/generate-feature-graphic.py: more on the geometry          *)
(* ================================================================== *)

Section ExactSizeShape.
Context `{Resampling} {mem : Memory}.
Import FeatureGraphic.

Lemma crop_output (im out : Image) box :
  crop im box = Ok out -> mode out = mode im.
Proof.
  destruct box as [[[l t] r] b]. intros Hcrop.
  destruct (crop_returns _ _ _ _ _ _ Hcrop) as (_ & _ & _ & ->). reflexivity.
Qed.

Lemma aspect_crop_mode (image image' : Image) tw th :
  aspect_crop image tw th = Ok image' -> mode image' = mode image.
Proof.
  unfold aspect_crop.
  destruct (aspect_crop_box (width image) (height image) tw th) as [[box|]|e];
    cbn [Py.bind]; [|intros Heq; injection Heq as <-; reflexivity|discriminate].
  apply crop_output.
Qed.

Lemma ensure_exact_size_size (image out : Image) tw th :
  ensure_exact_size image tw th = Ok out -> size out = (tw, th).
Proof.
  unfold ensure_exact_size.
  destruct (aspect_crop image tw th) as [image'|e]; [|discriminate].
  cbn [Py.bind]. intros Hres. apply (resize_output _ _ _ Hres).
Qed.

(** X9.  Whenever [ensure_exact_size] returns, for any image and any
    target, its result has exactly the target dimensions and the pixel
    format of the source. *)
Theorem ensure_exact_size_output (image out : Image) (target_width target_height : Z) :
  ensure_exact_size image target_width target_height = Ok out ->
  size out = (target_width, target_height) /\ mode out = mode image.
Proof.
  unfold ensure_exact_size.
  destruct (aspect_crop image target_width target_height) as [image'|e] eqn:Hac;
    [|discriminate].
  cbn [Py.bind]. intros Hres.
  destruct (resize_output _ _ _ Hres) as (Hsz & Hmode).
  rewrite (aspect_crop_mode _ _ _ _ Hac) in Hmode. split; assumption.
Qed.

(** The target need not be a size [resize] would accept: an image
    without width that already has the target size is returned as it is. *)
Example ensure_exact_size_empty_target (m : Mode) (p : Z -> Z -> Z) :
  ensure_exact_size (mkImage (0, 10) m p) 0 10 = Ok (mkImage (0, 10) m p).
Proof. reflexivity. Qed.

(** A target no machine holds. *)
Example ensure_exact_size_largest_target (m : Mode) (p : Z -> Z -> Z) :
  ensure_exact_size (mkImage (1024, 500) m p) MAX_DIM MAX_DIM = Raise MemoryError.
Proof.
  assert (Hbox : aspect_crop_box 1024 500 MAX_DIM MAX_DIM = Ok (Some (262, 0, 762, 500)))
    by (vm_compute; reflexivity).
  unfold ensure_exact_size, aspect_crop.
  change (width (mkImage (1024, 500) m p)) with 1024.
  change (height (mkImage (1024, 500) m p)) with 500.
  rewrite Hbox. reflexivity.
Qed.

Lemma float_not_lt_self m e :
  normal (Zpos m) -> SFltb (S754_finite false m e) (S754_finite false m e) = false.
Proof.
  intros Hm.
  destruct (SFltb (S754_finite false m e) (S754_finite false m e)) eqn:E; [|reflexivity].
  apply (SFltb_normal m e m e Hm Hm) in E. lra.
Qed.

(** X10.  An image that already has the target size goes through
    [ensure_exact_size] untouched, so applying [ensure_exact_size]
    twice is the same as applying it once. *)
Theorem ensure_exact_size_idempotent :
  (forall (image : Image) (target_width target_height : Z),
     valid_dim target_width -> valid_dim target_height ->
     size image = (target_width, target_height) ->
     aspect_crop_box target_width target_height target_width target_height = Ok None /\
     ensure_exact_size image target_width target_height = Ok image)
  /\
  (forall (image out : Image) (target_width target_height : Z),
     valid_dim target_width -> valid_dim target_height ->
     ensure_exact_size image target_width target_height = Ok out ->
     ensure_exact_size out target_width target_height = Ok out).
Proof.
  assert (Hfix : forall (image : Image) tw th,
            valid_dim tw -> valid_dim th -> size image = (tw, th) ->
            aspect_crop_box tw th tw th = Ok None /\
            ensure_exact_size image tw th = Ok image).
  { intros image tw th Htw Hth Hsz.
    assert (Hw : width image = tw) by (unfold width; rewrite Hsz; reflexivity).
    assert (Hh : height image = th) by (unfold height; rewrite Hsz; reflexivity).
    destruct (ratio_rounded tw th Htw Hth) as (m & e & Hdiv & Hm & _).
    assert (Hbox : aspect_crop_box tw th tw th = Ok None).
    { unfold aspect_crop_box. rewrite Hdiv. cbn [Py.bind].
      unfold float_gt, float_lt. rewrite (float_not_lt_self m e Hm). reflexivity. }
    split; [exact Hbox|].
    unfold ensure_exact_size, aspect_crop. rewrite Hw, Hh, Hbox. cbn [Py.bind].
    unfold resize. rewrite Hw, Hh, !Z.eqb_refl. reflexivity. }
  split; [exact Hfix|].
  intros image out tw th Htw Hth Hes.
  apply Hfix; try assumption.
  apply (ensure_exact_size_size _ _ _ _ Hes).
Qed.

(** X11.  A target without height makes [ensure_exact_size] raise
    [ZeroDivisionError], and so does an image without height. *)
Theorem ensure_exact_size_zero_height (image : Image) (target_width target_height : Z) :
  target_height = 0 \/
  (height image = 0 /\ valid_dim target_width /\ valid_dim target_height) ->
  ensure_exact_size image target_width target_height = Raise ZeroDivisionError.
Proof.
  intros [Hth|(Hh & Htw & Hth)]; unfold ensure_exact_size, aspect_crop, aspect_crop_box.
  - rewrite Hth. unfold truediv. reflexivity.
  - destruct (ratio_rounded _ _ Htw Hth) as (m & e & Hdiv & _).
    rewrite Hdiv, Hh. reflexivity.
Qed.

(** Products and quotients of a rounded ratio, without division. *)
Lemma ratio_times_denominator a b r :
  valid_dim a -> valid_dim b -> rounded (IZR a / IZR b) r ->
  (IZR a * (1 - bpow (-52)) <= B2R r * IZR b <= IZR a * (1 + bpow (-52)))%R.
Proof.
  intros Ha Hb Hr.
  pose proof (rounded_relative _ _ Hr) as Hlo.
  pose proof (rounded_relative_up _ _ Hr) as Hhi.
  assert (HbR : (0 < IZR b)%R) by (apply IZR_lt; unfold valid_dim in Hb; lia).
  set (u := bpow (-52)) in *.
  split.
  - apply Rmult_le_compat_r with (r := IZR b) in Hlo; [|lra].
    replace (IZR a / IZR b * (1 - u) * IZR b)%R with (IZR a * (1 - u))%R in Hlo
      by (field; lra).
    exact Hlo.
  - apply Rmult_le_compat_r with (r := IZR b) in Hhi; [|lra].
    replace (IZR a / IZR b * (1 + u) * IZR b)%R with (IZR a * (1 + u))%R in Hhi
      by (field; lra).
    exact Hhi.
Qed.

End ExactSizeShape.

(** Real arithmetic for the two roundings between a proportion and its
    pixel count. *)
Section ProportionFacts.
Local Open Scope R_scope.

(** A count [n] that two roundings relate to [x / d] is less than two
    above it, *)
Lemma within_two_above (n d x u : R) :
  0 < d -> 0 <= x -> 0 < u -> u < 1 -> 0 <= n ->
  4 * u * n < 1 ->
  n * d * (1 - u) <= x * ((1 + u) * (1 + u)) ->
  (n - 1) * d < x.
Proof.
  intros Hd Hx Hu Hu1 Hn Hsmall Hle.
  destruct (Rlt_or_le ((n - 1) * d) x) as [Hlt|Hge]; [exact Hlt|exfalso].
  assert (Hn1 : 1 <= n).
  { destruct (Rlt_or_le n 1) as [Hc|Hc]; [|exact Hc]. nra. }
  assert (H1 : n * d * (1 - u) <= (n - 1) * d * ((1 + u) * (1 + u))).
  { apply Rle_trans with (x * ((1 + u) * (1 + u))); [exact Hle|].
    apply Rmult_le_compat_r; [nra|exact Hge]. }
  assert (H2 : n * (1 - u) <= (n - 1) * ((1 + u) * (1 + u))).
  { apply Rmult_le_reg_r with d; [exact Hd|]. nra. }
  assert (Huu : u * u <= u) by nra.
  nra.
Qed.

(** and less than two below it. *)
Lemma within_two_below (n d x u : R) :
  0 < d -> 0 <= x -> 0 < u -> u < 1 -> 0 <= n ->
  4 * u * (n + 2) < 1 ->
  x * ((1 - u) * (1 - u)) < (n + 1) * d * (1 + u) ->
  x < (n + 2) * d.
Proof.
  intros Hd Hx Hu Hu1 Hn Hsmall Hlt.
  destruct (Rlt_or_le x ((n + 2) * d)) as [Hc|Hge]; [exact Hc|exfalso].
  assert (H1 : (n + 2) * d * ((1 - u) * (1 - u)) < (n + 1) * d * (1 + u)).
  { apply Rle_lt_trans with (x * ((1 - u) * (1 - u))); [|exact Hlt].
    apply Rmult_le_compat_r; [nra|exact Hge]. }
  assert (H2 : (n + 2) * ((1 - u) * (1 - u)) < (n + 1) * (1 + u)).
  { apply Rmult_lt_reg_r with d; [exact Hd|]. nra. }
  nra.
Qed.

(** The wider branch: [n = int(c * T)] for [T] the rounded [a / b]. *)
Lemma mul_branch (n c a b T P u : R) :
  0 < c -> 0 < a -> 0 < b -> 0 < T -> 0 < u -> u < 1 -> 0 <= n ->
  4 * u * (n + 2) < 1 ->
  a * (1 - u) <= T * b <= a * (1 + u) ->
  c * T * (1 - u) <= P <= c * T * (1 + u) ->
  n <= P < n + 1 ->
  (n - 1) * b < c * a < (n + 2) * b.
Proof.
  intros Hc Ha Hb HT Hu Hu1 Hn Hsmall [Htlo Hthi] [Hplo Hphi] [Hfl Hce].
  assert (HcT : 0 < c * T) by (apply Rmult_lt_0_compat; assumption).
  assert (Hca : 0 < c * a) by (apply Rmult_lt_0_compat; assumption).
  assert (E1 : c * (T * b) <= c * (a * (1 + u)))
    by (apply Rmult_le_compat_l; lra).
  assert (E2 : c * (a * (1 - u)) <= c * (T * b))
    by (apply Rmult_le_compat_l; lra).
  split.
  - apply (within_two_above n b (c * a) u); try assumption; try lra.
    assert (S1 : n * b <= c * T * (1 + u) * b)
      by (apply Rmult_le_compat_r; lra).
    assert (S2 : c * (T * b) * (1 + u) <= c * (a * (1 + u)) * (1 + u))
      by (apply Rmult_le_compat_r; lra).
    assert (S3 : n * b * (1 - u) <= n * b).
    { assert (0 <= n * b) by (apply Rmult_le_pos; lra). nra. }
    lra.
  - apply (within_two_below n b (c * a) u); try assumption; try lra.
    assert (S1 : c * T * (1 - u) * b < (n + 1) * b)
      by (apply Rmult_lt_compat_r; lra).
    assert (S2 : c * (a * (1 - u)) * (1 - u) <= c * (T * b) * (1 - u))
      by (apply Rmult_le_compat_r; lra).
    assert (S3 : (n + 1) * b <= (n + 1) * b * (1 + u)).
    { assert (0 <= (n + 1) * b) by (apply Rmult_le_pos; lra). nra. }
    lra.
Qed.

(** The taller branch: [n = int(c / T)]. *)
Lemma div_branch (n c a b T Q u : R) :
  0 < c -> 0 < a -> 0 < b -> 0 < T -> 0 < u -> u < 1 -> 0 <= n ->
  4 * u * (n + 2) < 1 ->
  a * (1 - u) <= T * b <= a * (1 + u) ->
  c / T * (1 - u) <= Q <= c / T * (1 + u) ->
  n <= Q < n + 1 ->
  (n - 1) * a < c * b < (n + 2) * a.
Proof.
  intros Hc Ha Hb HT Hu Hu1 Hn Hsmall [Htlo Hthi] [Hqlo Hqhi] [Hfl Hce].
  assert (HqT : c * (1 - u) <= Q * T <= c * (1 + u)).
  { split.
    - apply Rmult_le_compat_r with (r := T) in Hqlo; [|lra].
      replace (c / T * (1 - u) * T) with (c * (1 - u)) in Hqlo by (field; lra).
      exact Hqlo.
    - apply Rmult_le_compat_r with (r := T) in Hqhi; [|lra].
      replace (c / T * (1 + u) * T) with (c * (1 + u)) in Hqhi by (field; lra).
      exact Hqhi. }
  destruct HqT as [HqTlo HqThi].
  assert (Hcb : 0 < c * b) by (apply Rmult_lt_0_compat; assumption).
  split.
  - apply (within_two_above n a (c * b) u); try assumption; try lra.
    assert (S1 : n * T <= Q * T) by (apply Rmult_le_compat_r; lra).
    assert (S2 : n * T * b <= c * (1 + u) * b)
      by (apply Rmult_le_compat_r; lra).
    assert (S3 : n * (a * (1 - u)) <= n * (T * b))
      by (apply Rmult_le_compat_l; lra).
    assert (S4 : c * b * (1 + u) <= c * b * (1 + u) * (1 + u)).
    { assert (0 <= c * b * (1 + u)) by (apply Rmult_le_pos; lra). nra. }
    lra.
  - apply (within_two_below n a (c * b) u); try assumption; try lra.
    assert (S1 : Q * T < (n + 1) * T) by (apply Rmult_lt_compat_r; lra).
    assert (S2 : c * (1 - u) * b < (n + 1) * T * b)
      by (apply Rmult_lt_compat_r; lra).
    assert (S3 : (n + 1) * (T * b) <= (n + 1) * (a * (1 + u)))
      by (apply Rmult_le_compat_l; lra).
    assert (S4 : c * b * (1 - u) * (1 - u) <= c * b * (1 - u)).
    { assert (0 <= c * b * (1 - u)) by (apply Rmult_le_pos; lra). nra. }
    lra.
Qed.

End ProportionFacts.

Section ProportionalCrop.
Context `{Resampling} {mem : Memory}.
Import FeatureGraphic.

(** A pixel count is small against the precision of a double. *)
Lemma small_count n : 0 <= n <= MAX_DIM ->
  (0 <= IZR n)%R /\ (4 * bpow (-52) * (IZR n + 2) < 1)%R.
Proof.
  unfold MAX_DIM. intros [Hlo Hhi].
  assert (HnR : (0 <= IZR n)%R) by (apply IZR_le; lia).
  split; [exact HnR|].
  assert (Hb : (IZR n + 2 <= bpow 31 + 1)%R).
  { rewrite bpow_Z by lia. rewrite <- (plus_IZR n 2), <- (plus_IZR (2 ^ 31) 1).
    apply IZR_le. lia. }
  assert (H4 : (4 * bpow (-52) = bpow (-50))%R).
  { replace 4%R with (bpow 2) by (unfold bpow; simpl; lra).
    rewrite <- bpow_add. reflexivity. }
  rewrite H4.
  assert (Hprod : (bpow (-50) * bpow 31 = bpow (-19))%R) by (rewrite <- bpow_add; reflexivity).
  assert (bpow (-19) < / 2)%R.
  { replace (/ 2)%R with (bpow (-1)) by (unfold bpow; simpl; lra). apply bpow_lt. lia. }
  assert (bpow (-50) < / 2)%R.
  { replace (/ 2)%R with (bpow (-1)) by (unfold bpow; simpl; lra). apply bpow_lt. lia. }
  pose proof (bpow_pos (-50)) as Hp.
  assert (bpow (-50) * (IZR n + 2) <= bpow (-50) * (bpow 31 + 1))%R
    by (apply Rmult_le_compat_l; lra).
  lra.
Qed.

(** X12.  The aspect crop of [ensure_exact_size] keeps what the target
    ratio allows: the kept width is within two pixels of
    [current_height * target_width / target_height] in the wider
    branch, and the kept height within two pixels of
    [current_width * target_height / target_width] in the taller one. *)
Theorem aspect_crop_is_proportional
  (current_width current_height target_width target_height : Z) :
  valid_dim current_width -> valid_dim current_height ->
  valid_dim target_width -> valid_dim target_height ->
  exists target_ratio current_ratio,
    truediv target_width target_height = Ok target_ratio /\
    truediv current_width current_height = Ok current_ratio /\
    (float_gt current_ratio target_ratio = true ->
     exists new_width,
       (x <- int_mul_float current_height target_ratio ;; int_of_float x) = Ok new_width /\
       (new_width - 1) * target_height < current_height * target_width
         < (new_width + 2) * target_height) /\
    (float_lt current_ratio target_ratio = true ->
     exists new_height,
       (x <- int_div_float current_width target_ratio ;; int_of_float x) = Ok new_height /\
       (new_height - 1) * target_width < current_width * target_height
         < (new_height + 2) * target_width).
Proof.
  intros Hcw Hch Htw Hth.
  destruct (aspect_crop_box_cases _ _ _ _ Hcw Hch Htw Hth)
    as (rt & rc & Hrt & Hrc & Hcases).
  exists rt, rc. split; [exact Hrt|]. split; [exact Hrc|].
  destruct (ratio_rounded _ _ Htw Hth) as (mt & et & Hdt & Hmt & Het & Hrnd).
  rewrite Hdt in Hrt. injection Hrt as <-.
  pose proof (ratio_times_denominator _ _ _ Htw Hth Hrnd) as Ht.
  cbn [B2R] in Ht.
  assert (Hu : (0 < bpow (-52))%R) by apply bpow_pos.
  assert (Hu1 : (bpow (-52) < 1)%R).
  { replace 1%R with (bpow 0) by reflexivity. apply bpow_lt. lia. }
  assert (HT : (0 < F2R (Zpos mt) et)%R) by (apply (rounded_pos _ _ Hrnd)).
  pose proof (valid_dim_int53 _ Hcw) as Hcw53. pose proof (valid_dim_int53 _ Hch) as Hch53.
  assert (HcwR : (0 < IZR current_width)%R)
    by (apply IZR_lt; unfold valid_dim in Hcw; lia).
  assert (HchR : (0 < IZR current_height)%R)
    by (apply IZR_lt; unfold valid_dim in Hch; lia).
  assert (HtwR : (0 < IZR target_width)%R)
    by (apply IZR_lt; unfold valid_dim in Htw; lia).
  assert (HthR : (0 < IZR target_height)%R)
    by (apply IZR_lt; unfold valid_dim in Hth; lia).
  split.
  - intros Hgt.
    destruct Hcases as [(_ & _ & nw & Hnw & Hb & _)|[(Hc & _)|(Hc & _)]];
      [|congruence|congruence].
    exists nw. split; [exact Hnw|].
    destruct (int_mul_float_rounded current_height mt et Hch53 Hmt ltac:(lia))
      as (p & Hmul & Hp).
    rewrite Hmul in Hnw. cbn [Py.bind] in Hnw.
    destruct (int_of_rounded _ _ Hp) as (z & Hint & Hfl).
    rewrite Hint in Hnw. injection Hnw as ->.
    pose proof (rounded_relative _ _ Hp) as Hplo.
    pose proof (rounded_relative_up _ _ Hp) as Hphi.
    destruct (small_count nw) as [HzR Hsmall];
      [unfold valid_dim in Hcw; lia|].
    pose proof (mul_branch (IZR nw) (IZR current_height) (IZR target_width)
                  (IZR target_height) (F2R (Zpos mt) et) (B2R p) (bpow (-52))
                  HchR HtwR HthR HT Hu Hu1 HzR Hsmall Ht (conj Hplo Hphi) Hfl)
      as [Hup Hdown].
    split; apply lt_IZR.
    + rewrite !mult_IZR, minus_IZR. exact Hup.
    + rewrite !mult_IZR, plus_IZR. exact Hdown.
  - intros Hlt.
    destruct Hcases as [(_ & Hc & _)|[(_ & _ & nh & Hnh & Hb & _)|(_ & Hc & _)]];
      [congruence| |congruence].
    exists nh. split; [exact Hnh|].
    destruct (int_div_float_rounded current_width mt et Hcw53 Hmt ltac:(lia))
      as (q & Hdiv & Hq).
    rewrite Hdiv in Hnh. cbn [Py.bind] in Hnh.
    destruct (int_of_rounded _ _ Hq) as (z & Hint & Hfl).
    rewrite Hint in Hnh. injection Hnh as ->.
    pose proof (rounded_relative _ _ Hq) as Hqlo.
    pose proof (rounded_relative_up _ _ Hq) as Hqhi.
    destruct (small_count nh) as [HzR Hsmall];
      [unfold valid_dim in Hch; lia|].
    pose proof (div_branch (IZR nh) (IZR current_width) (IZR target_width)
                  (IZR target_height) (F2R (Zpos mt) et) (B2R q) (bpow (-52))
                  HcwR HtwR HthR HT Hu Hu1 HzR Hsmall Ht (conj Hqlo Hqhi) Hfl)
      as [Hup Hdown].
    split; apply lt_IZR.
    + rewrite !mult_IZR, minus_IZR. exact Hup.
    + rewrite !mult_IZR, plus_IZR. exact Hdown.
Qed.

End ProportionalCrop.

(** ** The theorems at sample inputs *)

Lemma landscape_banner :
  FeatureGraphic.ensure_exact_size (H := Fixtures.nearest)
        (mem := Fixtures.frugal) Fixtures.landscape 1024 500
    = Ok Samples.banner.
Proof.
  assert (Hok : is_ok (FeatureGraphic.ensure_exact_size (H := Fixtures.nearest)
        (mem := Fixtures.frugal)
                         Fixtures.landscape 1024 500) = true)
    by (vm_compute; reflexivity).
  unfold Samples.banner.
  destruct (FeatureGraphic.ensure_exact_size (H := Fixtures.nearest) (mem := Fixtures.frugal)
              Fixtures.landscape 1024 500);
    [reflexivity | discriminate Hok].
Defined.

Lemma ensure_exact_size_output_witness :
  FeatureGraphic.ensure_exact_size (H := Fixtures.nearest)
        (mem := Fixtures.frugal) Fixtures.landscape 1024 500
    = Ok Samples.banner /\
  size Samples.banner = (1024, 500) /\ mode Samples.banner = RGBA.
Proof.
  split; [exact landscape_banner|].
  destruct (ensure_exact_size_output (H := Fixtures.nearest) (mem := Fixtures.frugal)
              Fixtures.landscape Samples.banner 1024 500 landscape_banner)
    as (Hsz & Hmode).
  split; [exact Hsz|exact Hmode].
Defined.

Lemma ensure_exact_size_idempotent_witness :
  (valid_dim 1024 /\ valid_dim 500 /\ size Samples.banner_sized = (1024, 500)) /\
  FeatureGraphic.ensure_exact_size (H := Fixtures.nearest)
        (mem := Fixtures.frugal) Samples.banner_sized 1024 500
    = Ok Samples.banner_sized /\
  FeatureGraphic.ensure_exact_size (H := Fixtures.nearest)
        (mem := Fixtures.frugal) Samples.banner 1024 500
    = Ok Samples.banner.
Proof.
  assert (Hw : valid_dim 1024) by sample_dim.
  assert (Hh : valid_dim 500) by sample_dim.
  assert (Hsz : size Samples.banner_sized = (1024, 500)) by reflexivity.
  split; [repeat split; try assumption; first [apply Hw | apply Hh]|].
  split.
  - exact (proj2 (proj1 (ensure_exact_size_idempotent (H := Fixtures.nearest)
        (mem := Fixtures.frugal))
                    Samples.banner_sized 1024 500 Hw Hh Hsz)).
  - exact (proj2 (ensure_exact_size_idempotent (H := Fixtures.nearest) (mem := Fixtures.frugal))
             Fixtures.landscape Samples.banner 1024 500 Hw Hh landscape_banner).
Defined.

Lemma ensure_exact_size_zero_height_witness :
  FeatureGraphic.ensure_exact_size (H := Fixtures.nearest)
        (mem := Fixtures.frugal) Fixtures.landscape 1024 0
    = Raise ZeroDivisionError.
Proof.
  exact (ensure_exact_size_zero_height (H := Fixtures.nearest)
        (mem := Fixtures.frugal) Fixtures.landscape 1024 0
           (or_introl eq_refl)).
Defined.

Lemma aspect_crop_is_proportional_witness :
  (valid_dim 1536 /\ valid_dim 1024 /\ valid_dim 500) /\
  exists target_ratio current_ratio,
    truediv 1024 500 = Ok target_ratio /\ truediv 1536 1024 = Ok current_ratio.
Proof.
  assert (Hcw : valid_dim 1536) by sample_dim.
  assert (Hw : valid_dim 1024) by sample_dim.
  assert (Hh : valid_dim 500) by sample_dim.
  split; [repeat split; first [apply Hcw | apply Hw | apply Hh]|].
  destruct (aspect_crop_is_proportional 1536 1024 1024 500 Hcw Hw Hw Hh)
    as (rt & rc & Hrt & Hrc & _).
  exists rt, rc. split; assumption.
Defined.

(* ================================================================== *)
(** * tools/generate-feature-graphic.py: the run, answer by answer     *)
(* ================================================================== *)

(** Membership in a list that is written out. *)
Ltac find_in_list := cbn [In app]; repeat first [left; reflexivity | right].

Section GraphicTraceFacts.
Context `{Resampling} `{FeatureGraphic.Compositing} {mem : Memory}.
Import FeatureGraphic GraphicTrace.

Lemma graphic_saved_files_app l1 l2 :
  saved_files (l1 ++ l2) = saved_files l1 ++ saved_files l2.
Proof.
  induction l1 as [|[| | | |] l1 IH]; cbn [app saved_files]; rewrite ?IH; reflexivity.
Qed.

Lemma greeted_app l1 l2 : greeted (l1 ++ l2) = greeted l1 ++ greeted l2.
Proof.
  induction l1 as [|[| |[]| |] l1 IH]; cbn [app greeted]; rewrite ?IH; reflexivity.
Qed.

Lemma banner_requests_app l1 l2 :
  banner_requests (l1 ++ l2) = banner_requests l1 ++ banner_requests l2.
Proof.
  induction l1 as [|[| |[]| |] l1 IH]; cbn [app banner_requests]; rewrite ?IH; reflexivity.
Qed.

Lemma flatten_rgb image : mode (flatten image) = RGB /\ size (flatten image) = size image.
Proof. unfold flatten. destruct (mode image) eqn:E; cbn; auto. Qed.

Lemma save_inline_image_framed w d : framed (save_inline_image w d).
Proof. unfold save_inline_image. framed_steps. Qed.

Lemma scan_parts_framed w ps : framed (scan_parts w ps).
Proof.
  induction ps as [|part rest IH]; cbn [scan_parts]; [apply framed_ret|].
  destruct (inline_data part); [|exact IH].
  apply framed_bind; [apply save_inline_image_framed|intros ?; apply framed_ret].
Qed.

(** The scan stops at the first part that carries inline data. *)
Lemma scan_parts_first_inline w ps tr :
  scan_parts w ps tr =
    match first_inline ps with
    | Some d => (save_inline_image w d ;;; ret true) tr
    | None => (Done false, tr)
    end.
Proof.
  induction ps as [|part rest IH]; [reflexivity|].
  cbn [scan_parts first_inline]. destruct (inline_data part); [reflexivity|exact IH].
Qed.

(** The block that handles inline data, answer by answer. *)
Lemma save_inline_image_run w d :
  let found := Print (FoundImageData
                        (str_of_optional (mime_type d))) in
  save_inline_image w d [] =
    match payload_bytes w d with
    | Raise e => (Raised e, [found])
    | Ok bytes =>
      match decode_image w bytes with
      | Raise e => (Raised e, [found])
      | Ok decoded =>
        match ensure_exact_size decoded OUTPUT_WIDTH OUTPUT_HEIGHT with
        | Raise e => (Raised e, [found])
        | Ok image =>
          let final := Print (FinalSize (width image) (height image)) in
          match save_png w OUTPUT_FILE (flatten image) with
          | Raise e => (Raised e, [found; final])
          | Ok _ =>
            let saved := SavePng OUTPUT_FILE (flatten image) in
            match stat_size w OUTPUT_FILE with
            | Raise e => (Raised e, [found; final; saved])
            | Ok st_size =>
              match truediv st_size 1024 with
              | Raise e => (Raised e, [found; final; saved])
              | Ok size_kb =>
                (Done tt, [found; final; saved; Print (Saved OUTPUT_FILE size_kb)])
              end
            end
          end
        end
      end
    end.
Proof.
  cbv zeta. unfold save_inline_image, payload_bytes, Proc.bind, emit, lift, ret.
  cbn [app].
  destruct (match data d with Base64 s => b64decode w s | Raw b => Ok b end)
    as [bytes|e]; [|reflexivity].
  destruct (decode_image w bytes) as [decoded|e]; [|reflexivity].
  destruct (ensure_exact_size decoded OUTPUT_WIDTH OUTPUT_HEIGHT) as [image|e];
    [|reflexivity].
  cbn [app].
  destruct (save_png w OUTPUT_FILE (flatten image)) as [[]|e]; [|reflexivity].
  cbn [app].
  destruct (stat_size w OUTPUT_FILE) as [sz|e]; [|reflexivity].
  destruct (truediv sz 1024) as [kb|e]; reflexivity.
Qed.

(** What the block leaves behind, whatever the world answers. *)
Lemma save_inline_image_summary w d :
  exists o l,
    save_inline_image w d [] = (o, l) /\
    (forall c, o <> Exited c) /\
    greeted l = [] /\ banner_requests l = [] /\
    forallb (fun e => match e with Mkdir _ => false | _ => true end) l = true /\
    (saved_files l = [] \/
     exists image, saved_files l = [(OUTPUT_FILE, image)] /\
                   size image = (OUTPUT_WIDTH, OUTPUT_HEIGHT) /\ mode image = RGB) /\
    (o = Done tt -> saved_files l <> []) /\
    existsb reports_saved l = (match o with Done _ => true | _ => false end) /\
    existsb reports_success l = false /\ existsb reports_failure l = false.
Proof.
  pose proof (save_inline_image_run w d) as Hrun. cbv zeta in Hrun.
  destruct (payload_bytes w d) as [bytes|e].
  2:{ eexists _, _. split; [exact Hrun|].
      repeat split; try reflexivity; try discriminate. left. reflexivity. }
  destruct (decode_image w bytes) as [decoded|e].
  2:{ eexists _, _. split; [exact Hrun|].
      repeat split; try reflexivity; try discriminate. left. reflexivity. }
  destruct (ensure_exact_size decoded OUTPUT_WIDTH OUTPUT_HEIGHT) as [image|e] eqn:Hsize.
  2:{ eexists _, _. split; [exact Hrun|].
      repeat split; try reflexivity; try discriminate. left. reflexivity. }
  assert (Hshape : size (flatten image) = (OUTPUT_WIDTH, OUTPUT_HEIGHT) /\
                   mode (flatten image) = RGB).
  { destruct (flatten_rgb image) as [Hm Hs]. split; [|exact Hm]. rewrite Hs.
    unfold ensure_exact_size in Hsize.
    destruct (aspect_crop decoded OUTPUT_WIDTH OUTPUT_HEIGHT) as [image'|e];
      [|discriminate].
    cbn [Py.bind] in Hsize. destruct (resize_output _ _ _ Hsize) as (Hsz & _). exact Hsz. }
  destruct (save_png w OUTPUT_FILE (flatten image)) as [[]|e].
  2:{ eexists _, _. split; [exact Hrun|].
      repeat split; try reflexivity; try discriminate. left. reflexivity. }
  destruct (stat_size w OUTPUT_FILE) as [sz|e].
  2:{ eexists _, _. split; [exact Hrun|].
      repeat split; try reflexivity; try discriminate.
      right. exists (flatten image). split; [reflexivity|exact Hshape]. }
  destruct (truediv sz 1024) as [kb|e].
  2:{ eexists _, _. split; [exact Hrun|].
      repeat split; try reflexivity; try discriminate.
      right. exists (flatten image). split; [reflexivity|exact Hshape]. }
  eexists _, _. split; [exact Hrun|].
  repeat split; try reflexivity; try discriminate.
  right. exists (flatten image). split; [reflexivity|exact Hshape].
Qed.

Lemma part_lines_quiet i ps :
  saved_files (part_lines i ps) = [] /\ greeted (part_lines i ps) = [] /\
  banner_requests (part_lines i ps) = [] /\
  forallb (fun e => match e with Mkdir _ => false | _ => true end) (part_lines i ps) = true /\
  existsb reports_saved (part_lines i ps) = false /\
  existsb reports_success (part_lines i ps) = false.
Proof.
  revert i. induction ps as [|p rest IH]; intros i.
  - repeat split; reflexivity.
  - destruct (IH (S i)) as (H1 & H2 & H3 & H4 & H5 & H6).
    cbn [part_lines saved_files greeted banner_requests forallb existsb andb].
    assert (Hline : reports_saved (Print (part_line i p)) = false /\
                    reports_success (Print (part_line i p)) = false).
    { unfold part_line. destruct (text p) as [t|]; [|split; reflexivity].
      destruct (List.length t =? 0)%nat; split; reflexivity. }
    destruct Hline as [-> ->]. cbn [orb]. repeat split; assumption.
Qed.

(** [generate_feature_graphic], answer by answer. *)
Lemma generate_feature_graphic_run w model_name icon_path tr :
  generate_feature_graphic w model_name icon_path tr =
    match open_image w icon_path with
    | Raise e => (Done false, tr ++ [Print (ErrorLine e); Print Traceback])
    | Ok icon =>
      let sent := [Print (IconLoaded (width icon) (height icon));
                   Print GeneratingWithAI;
                   Send (GenerateBanner model_name icon)] in
      match generate_content w model_name icon with
      | Raise e => (Done false, tr ++ sent ++ [Print (ErrorLine e); Print Traceback])
      | Ok response =>
        match first_inline (parts_or_empty response) with
        | None =>
          (Done false,
           tr ++ sent ++ Print NoImageInResponse :: part_lines 0 (parts_or_empty response))
        | Some d =>
          match save_inline_image w d [] with
          | (Done _, l) => (Done true, tr ++ sent ++ l)
          | (Raised e, l) =>
            (Done false, tr ++ sent ++ l ++ [Print (ErrorLine e); Print Traceback])
          | (Exited c, l) => (Exited c, tr ++ sent ++ l)
          end
        end
      end
    end.
Proof.
  unfold generate_feature_graphic, try_except.
  run_bind. destruct (open_image w icon_path) as [icon|e]; cbn [lift].
  2:{ unfold Proc.bind, emit, ret. rewrite <- app_assoc. reflexivity. }
  run_emit. run_emit. run_emit.
  run_bind. destruct (generate_content w model_name icon) as [response|e]; cbn [lift].
  2:{ unfold Proc.bind, emit, ret. rewrite <- !app_assoc. reflexivity. }
  run_bind. rewrite scan_parts_first_inline.
  destruct (first_inline (parts_or_empty response)) as [d|].
  - unfold Proc.bind at 1.
    rewrite (save_inline_image_framed w d _).
    destruct (save_inline_image w d []) as [[[]|e|c] l]; cbn [fst snd ret].
    + rewrite <- !app_assoc. reflexivity.
    + unfold Proc.bind, emit, ret. rewrite <- !app_assoc. reflexivity.
    + rewrite <- !app_assoc. reflexivity.
  - run_emit. run_bind. rewrite log_parts_run. cbn [ret].
    rewrite <- !app_assoc. reflexivity.
Qed.

(** What one call of [generate_feature_graphic] leaves behind. *)
Lemma generate_feature_graphic_summary w model_name icon_path :
  exists b l,
    (forall tr, generate_feature_graphic w model_name icon_path tr = (Done b, tr ++ l)) /\
    greeted l = [] /\
    banner_requests l =
      match open_image w icon_path with
      | Ok icon => [(model_name, icon)]
      | Raise _ => []
      end /\
    forallb (fun e => match e with Mkdir _ => false | _ => true end) l = true /\
    (saved_files l = [] \/
     exists image, saved_files l = [(OUTPUT_FILE, image)] /\
                   size image = (OUTPUT_WIDTH, OUTPUT_HEIGHT) /\ mode image = RGB) /\
    (b = true -> saved_files l <> []) /\
    existsb reports_saved l = b /\
    existsb reports_failure l = negb b /\
    existsb reports_success l = false.
Proof.
  pose proof (generate_feature_graphic_run w model_name icon_path) as Hrun.
  destruct (open_image w icon_path) as [icon|e].
  2:{ eexists _, _. split; [exact Hrun|].
      repeat split; try reflexivity; try discriminate. left. reflexivity. }
  cbv zeta in Hrun.
  destruct (generate_content w model_name icon) as [response|e].
  2:{ eexists _, _. split; [exact Hrun|].
      repeat split; try reflexivity; try discriminate. left. reflexivity. }
  destruct (first_inline (parts_or_empty response)) as [d|].
  2:{ destruct (part_lines_quiet 0 (parts_or_empty response))
        as (P1 & P2 & P3 & P4 & P5 & P6).
      eexists _, _. split; [exact Hrun|].
      cbn [app saved_files greeted banner_requests forallb existsb andb orb
           reports_saved reports_failure reports_success].
      rewrite P1, P2, P3, P4, P5, P6.
      repeat split; try reflexivity; try discriminate. left. reflexivity. }
  destruct (save_inline_image_summary w d)
    as (o & l & Hl & Hnoexit & G1 & G2 & G3 & G4 & G5 & G6 & G7 & G8).
  rewrite Hl in Hrun.
  destruct o as [[]|e|c]; [| |exfalso; exact (Hnoexit c eq_refl)].
  - eexists _, _. split; [exact Hrun|].
    cbn [app saved_files greeted banner_requests forallb existsb andb orb
         reports_saved reports_failure reports_success].
    rewrite G1, G2, G3, G6, G7, G8.
    repeat split; try reflexivity; try assumption. intros _. exact (G5 eq_refl).
  - eexists _, _. split; [exact Hrun|].
    cbn [app saved_files greeted banner_requests forallb existsb andb orb
         reports_saved reports_failure reports_success].
    rewrite greeted_app, banner_requests_app, graphic_saved_files_app, forallb_app,
      !existsb_app.
    rewrite G1, G2, G3, G6, G7, G8.
    cbn [app saved_files greeted banner_requests forallb existsb andb orb
         reports_saved reports_failure reports_success].
    rewrite app_nil_r.
    repeat split; try reflexivity; try assumption; try discriminate.
Qed.

Lemma print_expected_run paths : forall tr,
  print_expected paths tr =
    (Done tt, tr ++ List.map (fun p => Print (ExpectedLocation p)) paths).
Proof.
  induction paths as [|p rest IH]; intros tr.
  - cbn. rewrite app_nil_r. reflexivity.
  - cbn [print_expected List.map]. run_emit. rewrite IH.
    rewrite <- app_assoc. reflexivity.
Qed.

(** The run of [main], check by check. *)
Lemma graphic_main_run w :
  run (main w) =
    match GOOGLE_API_KEY w with
    | None => (Exited 1, [Print Banner; Print ApiKeyNotSet])
    | Some api_key =>
      if (String.length api_key =? 0)%nat then (Exited 1, [Print Banner; Print ApiKeyNotSet])
      else
        match find_icon w with
        | None =>
          (Exited 1,
           [Print Banner; NewClient api_key; Print NoIconFound]
           ++ List.map (fun p => Print (ExpectedLocation p)) ICON_PATHS)
        | Some icon_path =>
          let head := [Print Banner; NewClient api_key; Print (UsingIcon icon_path);
                       Mkdir OUTPUT_DIR; Print (OutputTo OUTPUT_DIR)]
                      ++ probe_log w models_to_try in
          match selected_model w with
          | None => (Exited 1, head ++ [Print NoModelAvailable])
          | Some model_name =>
            match generate_feature_graphic w model_name icon_path [] with
            | (Done true, l) =>
              (Done tt, head ++ Print GeneratingFeatureGraphic :: l ++ [Print Success])
            | (Done false, l) =>
              (Exited 1, head ++ Print GeneratingFeatureGraphic :: l ++ [Print Failed])
            | (Raised e, l) => (Raised e, head ++ Print GeneratingFeatureGraphic :: l)
            | (Exited c, l) => (Exited c, head ++ Print GeneratingFeatureGraphic :: l)
            end
          end
        end
    end.
Proof.
  unfold run, main.
  destruct (GOOGLE_API_KEY w) as [api_key|]; [|reflexivity].
  cbn [api_key_missing]. destruct (String.length api_key =? 0)%nat; [reflexivity|].
  run_emit. run_emit.
  destruct (find_icon w) as [icon_path|].
  2:{ run_emit. run_bind. rewrite print_expected_run. reflexivity. }
  run_emit. run_emit. run_emit.
  run_bind. rewrite probe_models_run. fold (selected_model w).
  destruct (selected_model w) as [model_name|].
  2:{ unfold Proc.bind, emit, sys_exit. cbn [app]. rewrite <- ?app_assoc. reflexivity. }
  run_emit. run_bind.
  destruct (generate_feature_graphic_summary w model_name icon_path)
    as (b & l & Hl & _).
  rewrite (Hl []), (Hl _). cbn [app].
  destruct b; unfold Proc.bind, emit, ret, sys_exit; cbn [app];
    rewrite <- ?app_assoc; reflexivity.
Qed.

(** The probing loop greets the models one by one up to the first that
    answers. *)
Lemma probe_log_greeted w models :
  greeted (probe_log w models) =
    match List.find (fun m => is_ok (say_hello w m)) models with
    | None => models
    | Some _ =>
      (fix upto (l : list string) : list string :=
         match l with
         | [] => []
         | m :: rest => if is_ok (say_hello w m) then [m] else m :: upto rest
         end) models
    end.
Proof.
  induction models as [|m rest IH]; [reflexivity|].
  cbn [probe_log greeted List.find].
  destruct (say_hello w m) as [[]|e]; cbn [is_ok greeted]; [reflexivity|].
  rewrite IH. destruct (List.find _ rest); reflexivity.
Qed.

Lemma probe_log_quiet w models :
  saved_files (probe_log w models) = [] /\
  banner_requests (probe_log w models) = [] /\
  forallb (fun e => negb (touches_disk e)) (probe_log w models) = true /\
  existsb reports_success (probe_log w models) = false.
Proof.
  induction models as [|m rest IH]; [repeat split; reflexivity|].
  destruct IH as (I1 & I2 & I3 & I4).
  cbn [probe_log saved_files banner_requests forallb existsb touches_disk
       reports_success negb andb orb].
  destruct (say_hello w m);
    cbn [saved_files banner_requests forallb existsb touches_disk reports_success
         negb andb orb];
    repeat split; try reflexivity; assumption.
Qed.

End GraphicTraceFacts.

Section PreviewFacts.
Import FeatureGraphic.

Lemma prefix_length {A : Type} m (l : list A) :
  List.length (List.firstn m l) = Nat.min m (List.length l).
Proof. apply List.length_firstn. Qed.

Lemma prefix_nth_error {A : Type} m : forall (l : list A) n,
  nth_error (List.firstn m l) n = if (n <? m)%nat then nth_error l n else None.
Proof.
  induction m as [|m IH]; intros l n.
  - cbn. destruct n; reflexivity.
  - destruct l as [|c l].
    + destruct n as [|n]; cbn [List.firstn nth_error];
        destruct (_ <? S m)%nat; reflexivity.
    + destruct n as [|n]; [reflexivity|].
      cbn [List.firstn nth_error]. rewrite IH. reflexivity.
Qed.

(** X13.  The preview of a text part is one line of at most 80
    characters: the first 80 code points of the text with every newline
    turned into a space. *)
Theorem preview_is_one_short_line (t : str) :
  List.length (preview t) = Nat.min 80 (List.length t) /\
  (forall n, nth_error (preview t) n <> Some 10%N) /\
  (forall n, nth_error (preview t) n =
             if (n <? 80)%nat
             then option_map (fun c => if N.eqb c 10 then 32%N else c) (nth_error t n)
             else None).
Proof.
  assert (Hnth : forall n, nth_error (preview t) n =
             if (n <? 80)%nat
             then option_map (fun c => if N.eqb c 10 then 32%N else c) (nth_error t n)
             else None).
  { intros n. unfold preview, replace_newlines.
    rewrite nth_error_map, prefix_nth_error.
    destruct (n <? 80)%nat; reflexivity. }
  split; [|split].
  - unfold preview, replace_newlines. rewrite length_map. apply prefix_length.
  - intros n. rewrite Hnth. destruct (n <? 80)%nat; [|discriminate].
    destruct (nth_error t n) as [c|]; cbn [option_map]; [|discriminate].
    destruct (N.eqb_spec c 10) as [->|Hc]; [discriminate|].
    intros Heq. injection Heq as ->. apply Hc. reflexivity.
  - exact Hnth.
Qed.

End PreviewFacts.

Section GraphicRunProofs.
Context `{Resampling} `{FeatureGraphic.Compositing} {mem : Memory}.
Import FeatureGraphic GraphicTrace.

(** The aspect crop returns on every image a decoder can produce. *)
Lemma aspect_crop_total (image : Image) (target_width target_height : Z) :
  valid_image image -> valid_dim target_width -> valid_dim target_height ->
  exists cropped, aspect_crop image target_width target_height = Ok cropped.
Proof.
  intros Himg Htw Hth.
  pose proof Himg as (Hcw & Hch & _).
  destruct (aspect_crop_box_cases _ _ _ _ Hcw Hch Htw Hth)
    as (rt & rc & Hrt & Hrc & Hcases).
  unfold aspect_crop.
  destruct Hcases as [(_ & _ & nw & _ & Hb & Hbox)
                     |[(_ & _ & nh & _ & Hb & Hbox)
                      |(_ & _ & Hbox)]]; rewrite Hbox; cbn [Py.bind].
  - destruct (half_gap (width image) nw Hb) as [Hl Hr].
    destruct (crop_inside image ((width image - nw) / 2) 0
                ((width image - nw) / 2 + nw) (height image) Himg)
      as (cropped & Hcrop & _); try lia.
    { unfold valid_dim in Hch. lia. }
    exists cropped. exact Hcrop.
  - destruct (half_gap (height image) nh Hb) as [Hl Hr].
    destruct (crop_inside image 0 ((height image - nh) / 2) (width image)
                ((height image - nh) / 2 + nh) Himg)
      as (cropped & Hcrop & _); try lia.
    { unfold valid_dim in Hcw. lia. }
    exists cropped. exact Hcrop.
  - exists image. reflexivity.
Qed.

(** [ensure_exact_size] returns on every image a decoder can produce,
    for the banner of the Play Store. *)
Lemma ensure_exact_size_total (image : Image) :
  valid_image image ->
  exists out, ensure_exact_size image OUTPUT_WIDTH OUTPUT_HEIGHT = Ok out.
Proof.
  intros Himg.
  assert (Htw : valid_dim OUTPUT_WIDTH) by sample_dim.
  assert (Hth : valid_dim OUTPUT_HEIGHT) by sample_dim.
  destruct (aspect_crop_total image _ _ Himg Htw Hth) as (cropped & Hac).
  assert (Hmodest : modest (size cropped) (OUTPUT_WIDTH, OUTPUT_HEIGHT) = true).
  { apply (aspect_crop_modest image cropped _ _ Himg Htw Hth); try exact Hac;
      vm_compute; intuition discriminate. }
  destruct (resize_accepts cropped OUTPUT_WIDTH OUTPUT_HEIGHT) as (out & Hout & _);
    [vm_compute; intuition discriminate | vm_compute; intuition discriminate
    | apply fits_modest; exact Hmodest |].
  exists out. unfold ensure_exact_size. rewrite Hac. exact Hout.
Qed.

(** The size of a file in KB is a float whenever the size is one a file
    system reports. *)
Lemma size_kb_total st_size :
  0 <= st_size < 2 ^ 53 -> exists size_kb, truediv st_size 1024 = Ok size_kb.
Proof.
  intros Hsz. destruct (Z.eq_dec st_size 0) as [->|Hnz].
  - eexists. reflexivity.
  - destruct (truediv_rounded st_size 1024) as (f & Hf & _);
      [unfold int53; lia|unfold int53; lia|].
    exists f. exact Hf.
Qed.

(** The run of [generate_feature_graphic] that ends with [return True]. *)
Lemma generate_success_run w model_name icon_path icon response d bytes decoded image
      st_size size_kb :
  open_image w icon_path = Ok icon ->
  generate_content w model_name icon = Ok response ->
  first_inline (parts_or_empty response) = Some d ->
  payload_bytes w d = Ok bytes -> decode_image w bytes = Ok decoded ->
  ensure_exact_size decoded OUTPUT_WIDTH OUTPUT_HEIGHT = Ok image ->
  save_png w OUTPUT_FILE (flatten image) = Ok tt ->
  stat_size w OUTPUT_FILE = Ok st_size -> truediv st_size 1024 = Ok size_kb ->
  generate_feature_graphic w model_name icon_path [] =
    (Done true,
     [Print (IconLoaded (width icon) (height icon)); Print GeneratingWithAI;
      Send (GenerateBanner model_name icon);
      Print (FoundImageData
               (str_of_optional (mime_type d)));
      Print (FinalSize (width image) (height image));
      SavePng OUTPUT_FILE (flatten image);
      Print (Saved OUTPUT_FILE size_kb)]).
Proof.
  intros Hicon Hresp Hfirst Hbytes Hdec Hsize Hsave Hstat Hkb.
  rewrite generate_feature_graphic_run, Hicon. cbv zeta. rewrite Hresp, Hfirst.
  pose proof (save_inline_image_run w d) as Hrun. cbv zeta in Hrun.
  rewrite Hbytes, Hdec, Hsize, Hsave, Hstat, Hkb in Hrun. rewrite Hrun. reflexivity.
Qed.

(** Conversely, [return True] is reached on that run only. *)
Lemma generate_true_inv w model_name icon_path l :
  generate_feature_graphic w model_name icon_path [] = (Done true, l) ->
  exists icon response d bytes decoded image st_size size_kb,
    open_image w icon_path = Ok icon /\
    generate_content w model_name icon = Ok response /\
    first_inline (parts_or_empty response) = Some d /\
    payload_bytes w d = Ok bytes /\ decode_image w bytes = Ok decoded /\
    ensure_exact_size decoded OUTPUT_WIDTH OUTPUT_HEIGHT = Ok image /\
    save_png w OUTPUT_FILE (flatten image) = Ok tt /\
    stat_size w OUTPUT_FILE = Ok st_size /\ truediv st_size 1024 = Ok size_kb.
Proof.
  rewrite generate_feature_graphic_run.
  destruct (open_image w icon_path) as [icon|e] eqn:Hicon; [|discriminate].
  cbv zeta.
  destruct (generate_content w model_name icon) as [response|e] eqn:Hresp; [|discriminate].
  destruct (first_inline (parts_or_empty response)) as [d|] eqn:Hfirst; [|discriminate].
  pose proof (save_inline_image_run w d) as Hrun. cbv zeta in Hrun. rewrite Hrun.
  destruct (payload_bytes w d) as [bytes|e] eqn:Hbytes; [|discriminate].
  destruct (decode_image w bytes) as [decoded|e] eqn:Hdec; [|discriminate].
  destruct (ensure_exact_size decoded OUTPUT_WIDTH OUTPUT_HEIGHT) as [image|e] eqn:Hsize;
    [|discriminate].
  destruct (save_png w OUTPUT_FILE (flatten image)) as [[]|e] eqn:Hsave; [|discriminate].
  destruct (stat_size w OUTPUT_FILE) as [sz|e] eqn:Hstat; [|discriminate].
  destruct (truediv sz 1024) as [kb|e] eqn:Hkb; [|discriminate].
  intros _. exists icon, response, d, bytes, decoded, image, sz, kb.
  repeat split; assumption.
Qed.

Lemma key_present w api_key :
  GOOGLE_API_KEY w = Some api_key -> api_key <> EmptyString ->
  (String.length api_key =? 0)%nat = false.
Proof. intros _ Hne. destruct api_key; [congruence|reflexivity]. Qed.

(** The models greeted by the probing loop: those before the first that
    answers, then that one. *)
Lemma probe_log_greeted_cases w models :
  match List.find (fun m => is_ok (say_hello w m)) models with
  | Some model_name =>
    exists before after,
      models = before ++ model_name :: after /\
      Forall (fun m => is_ok (say_hello w m) = false) before /\
      is_ok (say_hello w model_name) = true /\
      greeted (probe_log w models) = before ++ [model_name]
  | None =>
    Forall (fun m => is_ok (say_hello w m) = false) models /\
    greeted (probe_log w models) = models
  end.
Proof.
  induction models as [|m rest IH]; [split; [constructor|reflexivity]|].
  cbn [List.find probe_log greeted].
  destruct (say_hello w m) as [[]|e] eqn:Hm; cbn [is_ok].
  - exists [], rest. cbn. rewrite Hm. repeat split. constructor.
  - cbn [greeted].
    destruct (List.find (fun m => is_ok (say_hello w m)) rest) as [found|].
    + destruct IH as (before & after & -> & Hfail & Hok & Hgreet).
      exists (m :: before), after. rewrite Hgreet.
      repeat split; try assumption. constructor; [rewrite Hm; reflexivity|exact Hfail].
    + destruct IH as (Hfail & Hgreet). rewrite Hgreet. split; [|reflexivity].
      constructor; [rewrite Hm; reflexivity|exact Hfail].
Qed.

(** X14.  [generate_feature_graphic] never lets an exception out: it
    returns [True] exactly when it has printed the "Saved" line, after
    writing the one file, and [False] exactly when it has printed
    either "No image in response" or a traceback.  It greets no model
    and sends one banner request at most. *)
Theorem generate_feature_graphic_reports (w : World) (model_name icon_path : string) :
  exists returned l,
    (forall tr,
       generate_feature_graphic w model_name icon_path tr = (Done returned, tr ++ l)) /\
    existsb reports_saved l = returned /\
    existsb reports_failure l = negb returned /\
    (if returned then exists image, saved_files l = [(OUTPUT_FILE, image)]
     else (List.length (saved_files l) <= 1)%nat) /\
    greeted l = [] /\
    (List.length (banner_requests l) <= 1)%nat.
Proof.
  destruct (generate_feature_graphic_summary w model_name icon_path)
    as (b & l & Hl & G1 & G2 & G3 & G4 & G5 & G6 & G7 & G8).
  exists b, l. split; [exact Hl|]. split; [exact G6|]. split; [exact G7|].
  split; [|split; [exact G1|]].
  - destruct b.
    + destruct G4 as [G4|(image & G4 & _)]; [exfalso; exact (G5 eq_refl G4)|].
      exists image. exact G4.
    + destruct G4 as [->|(image & -> & _)]; cbn; lia.
  - rewrite G2. destruct (open_image w icon_path); cbn; lia.
Qed.

(** X15.  Whatever the environment, the service and the file system
    answer, the generator writes at most one file; it is the output
    file, 1024x500 and RGB.  The exit status is 0 or 1, and the success
    line is printed exactly when it is 0. *)
Theorem written_files_are_exact_banners (w : World) :
  Forall (fun f => fst f = OUTPUT_FILE /\
                   size (snd f) = (OUTPUT_WIDTH, OUTPUT_HEIGHT) /\
                   mode (snd f) = RGB)
         (saved_files (trace w)) /\
  (List.length (saved_files (trace w)) <= 1)%nat /\
  (exit_code w = 0 \/ exit_code w = 1) /\
  existsb reports_success (trace w) = (exit_code w =? 0).
Proof.
  unfold exit_code, trace. rewrite graphic_main_run.
  destruct (GOOGLE_API_KEY w) as [api_key|].
  2:{ cbn. repeat split; auto. }
  destruct (String.length api_key =? 0)%nat.
  { cbn. repeat split; auto. }
  destruct (find_icon w) as [icon_path|].
  2:{ cbn. repeat split; auto. }
  cbv zeta.
  destruct (probe_log_quiet w models_to_try) as (P1 & P2 & P3 & P4).
  destruct (selected_model w) as [model_name|].
  2:{ cbn [fst snd exit_status].
      rewrite !graphic_saved_files_app, !existsb_app, P1, P4. cbn.
      repeat split; auto. }
  destruct (generate_feature_graphic_summary w model_name icon_path)
    as (b & l & Hl & G1 & G2 & G3 & G4 & G5 & G6 & G7 & G8).
  rewrite (Hl []). cbn [app].
  assert (Hfiles : Forall (fun f => fst f = OUTPUT_FILE /\
                                    size (snd f) = (OUTPUT_WIDTH, OUTPUT_HEIGHT) /\
                                    mode (snd f) = RGB) (saved_files l) /\
                   (List.length (saved_files l) <= 1)%nat).
  { destruct G4 as [->|(image & -> & Hsz & Hmode)]; cbn.
    - split; [constructor|lia].
    - split; [|lia]. constructor; [|constructor]. cbn. auto. }
  destruct Hfiles as [Hall Hlen].
  destruct b;
    repeat (progress (cbn [fst snd exit_status app saved_files existsb reports_success orb];
                      rewrite ?graphic_saved_files_app, ?existsb_app));
    rewrite P1, P4, G8;
    cbn [app saved_files existsb reports_success orb]; rewrite app_nil_r;
    repeat split; auto.
Qed.

(** X16.  The exit status is 0 exactly on one run: a key is set, an icon
    exists, a model answers, the response carries inline data, the
    first such part decodes to an image that [ensure_exact_size] and
    the file system accept; the file written is then that image at
    1024x500, flattened to RGB, and the one banner request went to the
    model that answered with the icon found. *)
Theorem exit_zero_iff_banner_saved (w : World) :
  exit_code w = 0 <->
  exists api_key icon_path model_name icon response d bytes decoded image st_size size_kb,
    GOOGLE_API_KEY w = Some api_key /\ api_key <> EmptyString /\
    find_icon w = Some icon_path /\ selected_model w = Some model_name /\
    open_image w icon_path = Ok icon /\
    generate_content w model_name icon = Ok response /\
    first_inline (parts_or_empty response) = Some d /\
    payload_bytes w d = Ok bytes /\ decode_image w bytes = Ok decoded /\
    ensure_exact_size decoded OUTPUT_WIDTH OUTPUT_HEIGHT = Ok image /\
    save_png w OUTPUT_FILE (flatten image) = Ok tt /\
    stat_size w OUTPUT_FILE = Ok st_size /\ truediv st_size 1024 = Ok size_kb /\
    saved_files (trace w) = [(OUTPUT_FILE, flatten image)] /\
    banner_requests (trace w) = [(model_name, icon)].
Proof.
  destruct (probe_log_quiet w models_to_try) as (P1 & P2 & P3 & P4).
  assert (Hgood : forall api_key icon_path model_name icon response d bytes decoded image
                         st_size size_kb,
    GOOGLE_API_KEY w = Some api_key -> api_key <> EmptyString ->
    find_icon w = Some icon_path -> selected_model w = Some model_name ->
    open_image w icon_path = Ok icon ->
    generate_content w model_name icon = Ok response ->
    first_inline (parts_or_empty response) = Some d ->
    payload_bytes w d = Ok bytes -> decode_image w bytes = Ok decoded ->
    ensure_exact_size decoded OUTPUT_WIDTH OUTPUT_HEIGHT = Ok image ->
    save_png w OUTPUT_FILE (flatten image) = Ok tt ->
    stat_size w OUTPUT_FILE = Ok st_size -> truediv st_size 1024 = Ok size_kb ->
    exit_code w = 0 /\
    saved_files (trace w) = [(OUTPUT_FILE, flatten image)] /\
    banner_requests (trace w) = [(model_name, icon)]).
  { intros api_key icon_path model_name icon response d bytes decoded image st_size size_kb
           Hkey Hne Hfind Hmodel Hicon Hresp Hfirst Hbytes Hdec Hsize Hsave Hstat Hkb.
    unfold exit_code, trace. rewrite graphic_main_run, Hkey.
    rewrite (key_present w api_key Hkey Hne), Hfind. cbv zeta. rewrite Hmodel.
    rewrite (generate_success_run w model_name icon_path icon response d bytes decoded
               image st_size size_kb Hicon Hresp Hfirst Hbytes Hdec Hsize Hsave Hstat Hkb).
    cbn [fst snd exit_status].
    rewrite !graphic_saved_files_app, !banner_requests_app, P1, P2.
    repeat split; reflexivity. }
  split.
  - intros Hexit.
    assert (Hrun := graphic_main_run w). unfold exit_code in Hexit.
    destruct (GOOGLE_API_KEY w) as [api_key|] eqn:Hkey;
      [|rewrite Hrun in Hexit; discriminate Hexit].
    destruct (String.length api_key =? 0)%nat eqn:Hlen;
      [rewrite Hrun in Hexit; discriminate Hexit|].
    destruct (find_icon w) as [icon_path|] eqn:Hfind;
      [|rewrite Hrun in Hexit; discriminate Hexit].
    cbv zeta in Hrun.
    destruct (selected_model w) as [model_name|] eqn:Hmodel;
      [|rewrite Hrun in Hexit; discriminate Hexit].
    destruct (generate_feature_graphic_summary w model_name icon_path)
      as (b & l & Hl & _).
    pose proof (Hl []) as Hgen. cbn [app] in Hgen. rewrite Hgen in Hrun.
    destruct b; [|rewrite Hrun in Hexit; discriminate Hexit].
    destruct (generate_true_inv w model_name icon_path l Hgen)
      as (icon & response & d & bytes & decoded & image & sz & kb &
          Hicon & Hresp & Hfirst & Hbytes & Hdec & Hsize & Hsave & Hstat & Hkb).
    assert (Hne : api_key <> EmptyString).
    { intros ->. discriminate Hlen. }
    destruct (Hgood api_key icon_path model_name icon response d bytes decoded image sz kb
                eq_refl Hne eq_refl eq_refl Hicon Hresp Hfirst Hbytes Hdec Hsize Hsave
                Hstat Hkb)
      as (_ & Hfiles & Hreq).
    exists api_key, icon_path, model_name, icon, response, d, bytes, decoded, image, sz, kb.
    repeat (split; [first [assumption|reflexivity]|]). exact Hreq.
  - intros (api_key & icon_path & model_name & icon & response & d & bytes & decoded &
            image & sz & kb & Hkey & Hne & Hfind & Hmodel & Hicon & Hresp & Hfirst &
            Hbytes & Hdec & Hsize & Hsave & Hstat & Hkb & _).
    exact (proj1 (Hgood api_key icon_path model_name icon response d bytes decoded image
                    sz kb Hkey Hne Hfind Hmodel Hicon Hresp Hfirst Hbytes Hdec Hsize Hsave
                    Hstat Hkb)).
Qed.

(** X17.  Every image a decoder can produce becomes a banner: when a key
    is set, an icon exists, a model answers and the first inline part
    of the response decodes to an image as Pillow opens it (positive
    dimensions, within the pixel limit), and the file system accepts
    the file, the run ends with status 0 and has written that image at
    1024x500 in RGB, whatever its size, ratio or pixel format was. *)
Theorem decodable_image_becomes_banner
  (w : World) (api_key icon_path model_name : string) (icon : Image)
  (response : Response) (d : InlineData) (bytes : list Z) (decoded : Image) (st_size : Z) :
  GOOGLE_API_KEY w = Some api_key -> api_key <> EmptyString ->
  find_icon w = Some icon_path -> selected_model w = Some model_name ->
  open_image w icon_path = Ok icon ->
  generate_content w model_name icon = Ok response ->
  first_inline (parts_or_empty response) = Some d ->
  payload_bytes w d = Ok bytes -> decode_image w bytes = Ok decoded ->
  valid_image decoded ->
  (forall image, save_png w OUTPUT_FILE image = Ok tt) ->
  stat_size w OUTPUT_FILE = Ok st_size -> 0 <= st_size < 2 ^ 53 ->
  exists image,
    ensure_exact_size decoded OUTPUT_WIDTH OUTPUT_HEIGHT = Ok image /\
    exit_code w = 0 /\
    saved_files (trace w) = [(OUTPUT_FILE, flatten image)] /\
    size (flatten image) = (OUTPUT_WIDTH, OUTPUT_HEIGHT) /\
    mode (flatten image) = RGB.
Proof.
  intros Hkey Hne Hfind Hmodel Hicon Hresp Hfirst Hbytes Hdec Hvalid Hsave Hstat Hsz.
  destruct (ensure_exact_size_total decoded Hvalid) as (image & Hsize).
  destruct (size_kb_total st_size Hsz) as (size_kb & Hkb).
  exists image. split; [exact Hsize|].
  destruct (probe_log_quiet w models_to_try) as (P1 & P2 & P3 & P4).
  unfold exit_code, trace. rewrite graphic_main_run, Hkey.
  rewrite (key_present w api_key Hkey Hne), Hfind. cbv zeta. rewrite Hmodel.
  rewrite (generate_success_run w model_name icon_path icon response d bytes decoded
             image st_size size_kb Hicon Hresp Hfirst Hbytes Hdec Hsize (Hsave _) Hstat Hkb).
  cbn [fst snd exit_status].
  rewrite !graphic_saved_files_app, P1.
  split; [reflexivity|]. split; [reflexivity|].
  destruct (flatten_rgb image) as [Hm Hs]. split; [|exact Hm]. rewrite Hs.
  unfold ensure_exact_size in Hsize.
  destruct (aspect_crop decoded OUTPUT_WIDTH OUTPUT_HEIGHT) as [image'|e]; [|discriminate].
  cbn [Py.bind] in Hsize. destruct (resize_output _ _ _ Hsize) as (Hout & _). exact Hout.
Qed.

(** X18.  Only the first part with inline data counts: when it cannot be
    decoded, [generate_feature_graphic] prints its MIME type ([None]
    when the type is unset), reports the error and returns [False]
    without writing a file, whatever the later parts carry. *)
Theorem undecodable_first_image_fails_the_run
  (w : World) (model_name icon_path : string) (icon : Image) (response : Response)
  (d : InlineData) (e : exn) :
  open_image w icon_path = Ok icon ->
  generate_content w model_name icon = Ok response ->
  first_inline (parts_or_empty response) = Some d ->
  (bytes <- payload_bytes w d ;; decode_image w bytes) = Raise e ->
  forall tr,
    generate_feature_graphic w model_name icon_path tr =
      (Done false,
       tr ++ [Print (IconLoaded (width icon) (height icon)); Print GeneratingWithAI;
              Send (GenerateBanner model_name icon);
              Print (FoundImageData
                       (match mime_type d with Some m => m | None => "None"%string end));
              Print (ErrorLine e); Print Traceback]).
Proof.
  intros Hicon Hresp Hfirst Hbad tr.
  rewrite generate_feature_graphic_run, Hicon. cbv zeta. rewrite Hresp, Hfirst.
  pose proof (save_inline_image_run w d) as Hrun. cbv zeta in Hrun. rewrite Hrun.
  destruct (payload_bytes w d) as [bytes|e0]; cbn [Py.bind] in Hbad.
  - rewrite Hbad. reflexivity.
  - injection Hbad as ->. reflexivity.
Qed.

(** X19.  The probing loop greets the models in order and stops at the
    first that answers: the models before it have all failed, the
    models after it are never contacted, and when none answers every
    model has been greeted once.  The loop itself never fails. *)
Theorem probing_stops_at_first_answer (w : World) (models : list string) :
  exists found,
    fst (run (probe_models w models)) = Done found /\
    match found with
    | Some model_name =>
      exists before after,
        models = before ++ model_name :: after /\
        Forall (fun m => is_ok (say_hello w m) = false) before /\
        is_ok (say_hello w model_name) = true /\
        greeted (snd (run (probe_models w models))) = before ++ [model_name]
    | None =>
      Forall (fun m => is_ok (say_hello w m) = false) models /\
      greeted (snd (run (probe_models w models))) = models
    end.
Proof.
  unfold run. rewrite probe_models_run. cbn [fst snd app].
  eexists. split; [reflexivity|]. apply probe_log_greeted_cases.
Qed.

(** X20.  Without a usable key (unset or empty) or without an icon file
    the generator exits with status 1 having greeted no model, sent no
    banner request and touched nothing on disk; the client is built
    exactly when the key is usable. *)
Theorem nothing_sent_without_key_or_icon (w : World) :
  api_key_missing (GOOGLE_API_KEY w) = true \/ find_icon w = None ->
  exit_code w = 1 /\
  greeted (trace w) = [] /\ banner_requests (trace w) = [] /\
  forallb (fun e => negb (touches_disk e)) (trace w) = true /\
  forallb (fun e => negb (touches_service e)) (trace w) =
    api_key_missing (GOOGLE_API_KEY w).
Proof.
  intros Hmiss. unfold exit_code, trace. rewrite graphic_main_run.
  destruct (GOOGLE_API_KEY w) as [api_key|]; [|repeat split; reflexivity].
  cbn [api_key_missing] in *.
  destruct (String.length api_key =? 0)%nat; [repeat split; reflexivity|].
  destruct Hmiss as [Hmiss|Hnone]; [discriminate Hmiss|].
  rewrite Hnone. repeat split; reflexivity.
Qed.

(** X21.  With a usable key and an icon, the output directory is created
    and the models are probed; the banner request, if the icon opens,
    goes to the first model that answered and carries the first icon
    that exists.  When no model answers, every model has been greeted,
    no banner request is sent, nothing is written and the status is 1. *)
Theorem banner_request_goes_to_first_answering_model (w : World) (icon_path : string) :
  api_key_missing (GOOGLE_API_KEY w) = false -> find_icon w = Some icon_path ->
  path_exists w icon_path = true /\ In icon_path ICON_PATHS /\
  In (Mkdir OUTPUT_DIR) (trace w) /\
  match selected_model w with
  | Some model_name =>
    (exists before after,
       models_to_try = before ++ model_name :: after /\
       Forall (fun m => is_ok (say_hello w m) = false) before /\
       greeted (trace w) = before ++ [model_name]) /\
    banner_requests (trace w) =
      match open_image w icon_path with
      | Ok icon => [(model_name, icon)]
      | Raise _ => []
      end
  | None =>
    exit_code w = 1 /\ greeted (trace w) = models_to_try /\
    banner_requests (trace w) = [] /\ saved_files (trace w) = []
  end.
Proof.
  intros Hkey Hfind.
  assert (Hicon : path_exists w icon_path = true /\ In icon_path ICON_PATHS).
  { unfold find_icon in Hfind. apply List.find_some in Hfind. tauto. }
  destruct Hicon as [Hexists Hin]. split; [exact Hexists|]. split; [exact Hin|].
  unfold exit_code, trace. rewrite graphic_main_run.
  destruct (GOOGLE_API_KEY w) as [api_key|]; [|discriminate Hkey].
  cbn [api_key_missing] in Hkey. rewrite Hkey, Hfind. cbv zeta.
  destruct (probe_log_quiet w models_to_try) as (P1 & P2 & P3 & P4).
  pose proof (probe_log_greeted_cases w models_to_try) as Hprobe.
  fold (selected_model w) in Hprobe.
  destruct (selected_model w) as [model_name|].
  - destruct (generate_feature_graphic_summary w model_name icon_path)
      as (b & l & Hl & G1 & G2 & _).
    rewrite (Hl []). cbn [app].
    destruct Hprobe as (before & after & Hmodels & Hfail & _ & Hgreet).
    assert (Htrace : forall o tail,
              (o = Done tt \/ o = Exited 1) -> greeted tail = [] ->
              banner_requests tail = [] ->
              In (Mkdir OUTPUT_DIR)
                 (snd (o : outcome unit,
                       ([Print Banner; NewClient api_key; Print (UsingIcon icon_path);
                         Mkdir OUTPUT_DIR; Print (OutputTo OUTPUT_DIR)]
                        ++ probe_log w models_to_try)
                       ++ Print GeneratingFeatureGraphic :: l ++ tail)) /\
              greeted (snd (o : outcome unit,
                       ([Print Banner; NewClient api_key; Print (UsingIcon icon_path);
                         Mkdir OUTPUT_DIR; Print (OutputTo OUTPUT_DIR)]
                        ++ probe_log w models_to_try)
                       ++ Print GeneratingFeatureGraphic :: l ++ tail))
                = before ++ [model_name] /\
              banner_requests (snd (o : outcome unit,
                       ([Print Banner; NewClient api_key; Print (UsingIcon icon_path);
                         Mkdir OUTPUT_DIR; Print (OutputTo OUTPUT_DIR)]
                        ++ probe_log w models_to_try)
                       ++ Print GeneratingFeatureGraphic :: l ++ tail))
                = match open_image w icon_path with
                  | Ok icon => [(model_name, icon)]
                  | Raise _ => []
                  end).
    { intros o tail _ T1 T2. cbn [snd]. split; [|split].
      - apply in_or_app. left. find_in_list.
      - rewrite !greeted_app. cbn [greeted app]. rewrite greeted_app, Hgreet, G1, T1.
        rewrite !app_nil_r. reflexivity.
      - rewrite !banner_requests_app. cbn [banner_requests app].
        rewrite banner_requests_app, P2, G2, T2. rewrite app_nil_r. reflexivity. }
    destruct b.
    + destruct (Htrace (Done tt) [Print Success]) as (T1 & T2 & T3); auto.
      split; [exact T1|]. split; [|exact T3]. exists before, after. auto.
    + destruct (Htrace (Exited 1) [Print Failed]) as (T1 & T2 & T3); auto.
      split; [exact T1|]. split; [|exact T3]. exists before, after. auto.
  - destruct Hprobe as (_ & Hgreet). cbn [fst snd exit_status].
    split; [apply in_or_app; left; apply in_or_app; left; find_in_list|].
    split; [reflexivity|].
    rewrite !greeted_app, !banner_requests_app, !graphic_saved_files_app.
    rewrite Hgreet, P1, P2. cbn. rewrite ?app_nil_r. repeat split; reflexivity.
Qed.

End GraphicRunProofs.

(** ** The theorems at sample inputs *)

Lemma exit_zero_iff_banner_saved_witness :
  FeatureGraphic.exit_code (H := Fixtures.nearest) (H0 := Fixtures.keep_pixels)
        (mem := Fixtures.frugal)
    Samples.generous_service = 0 /\
  exists image,
    GraphicTrace.saved_files
      (FeatureGraphic.trace (H := Fixtures.nearest) (H0 := Fixtures.keep_pixels)
            (mem := Fixtures.frugal)
         Samples.generous_service)
    = [(FeatureGraphic.OUTPUT_FILE, image)].
Proof.
  assert (Hexit : FeatureGraphic.exit_code (H := Fixtures.nearest)
                    (H0 := Fixtures.keep_pixels)
                          (mem := Fixtures.frugal) Samples.generous_service = 0)
    by (vm_compute; reflexivity).
  split; [exact Hexit|].
  destruct (proj1 (exit_zero_iff_banner_saved (H := Fixtures.nearest)
                     (H0 := Fixtures.keep_pixels)
                           (mem := Fixtures.frugal) Samples.generous_service) Hexit)
    as (? & ? & ? & ? & ? & ? & ? & ? & image & ? & ? & ? & ? & ? & ? & ? & ? & ? & ? &
        ? & ? & ? & ? & ? & Hfiles & _).
  eexists. exact Hfiles.
Defined.

Lemma decodable_image_becomes_banner_witness :
  (FeatureGraphic.GOOGLE_API_KEY Samples.generous_service = Some "secret"%string /\
   FeatureGraphic.find_icon Samples.generous_service
     = Some "assets/adaptive-icon.png"%string /\
   FeatureGraphic.selected_model Samples.generous_service
     = Some "gemini-2.5-flash-image"%string /\
   GraphicTrace.first_inline (FeatureGraphic.parts_or_empty Samples.picture_reply)
     = Some Samples.picture_data /\
   FeatureGraphic.decode_image Samples.generous_service [137; 80; 78; 71]
     = Ok Fixtures.landscape /\
   valid_image Fixtures.landscape) /\
  FeatureGraphic.exit_code (H := Fixtures.nearest) (H0 := Fixtures.keep_pixels)
        (mem := Fixtures.frugal)
    Samples.generous_service = 0.
Proof.
  assert (Hkey : "secret"%string <> EmptyString) by discriminate.
  assert (Hvalid : valid_image Fixtures.landscape) by sample_image.
  assert (Hsize : 0 <= 204800 < 2 ^ 53) by (split; vm_compute; congruence).
  split; [repeat split; try reflexivity; apply Hvalid|].
  destruct (decodable_image_becomes_banner (H := Fixtures.nearest)
              (H0 := Fixtures.keep_pixels) (mem := Fixtures.frugal) Samples.generous_service
              "secret" "assets/adaptive-icon.png" "gemini-2.5-flash-image"
              Fixtures.icon Samples.picture_reply Samples.picture_data
              [137; 80; 78; 71] Fixtures.landscape 204800
              eq_refl Hkey eq_refl eq_refl eq_refl eq_refl eq_refl eq_refl eq_refl
              Hvalid (fun _ => eq_refl) eq_refl Hsize)
    as (image & _ & Hexit & _).
  exact Hexit.
Defined.

Lemma undecodable_first_image_fails_the_run_witness :
  (GraphicTrace.first_inline (FeatureGraphic.parts_or_empty Samples.garbled_reply)
     = Some Samples.garbage_data /\
   In Samples.picture (FeatureGraphic.parts_or_empty Samples.garbled_reply) /\
   (bytes <- GraphicTrace.payload_bytes Samples.garbled_service Samples.garbage_data ;;
    FeatureGraphic.decode_image Samples.garbled_service bytes)
     = Raise (ExternalError "cannot identify image file")) /\
  FeatureGraphic.generate_feature_graphic (H := Fixtures.nearest)
    (H0 := Fixtures.keep_pixels) (mem := Fixtures.frugal) Samples.garbled_service
    "gemini-2.5-flash-image" "assets/adaptive-icon.png" []
  = (Done false,
     [FeatureGraphic.Print (FeatureGraphic.IconLoaded 1024 1024);
      FeatureGraphic.Print FeatureGraphic.GeneratingWithAI;
      FeatureGraphic.Send
        (FeatureGraphic.GenerateBanner "gemini-2.5-flash-image" Fixtures.icon);
      FeatureGraphic.Print (FeatureGraphic.FoundImageData "None");
      FeatureGraphic.Print
        (FeatureGraphic.ErrorLine (ExternalError "cannot identify image file"));
      FeatureGraphic.Print FeatureGraphic.Traceback]).
Proof.
  split; [repeat split; try reflexivity; right; right; left; reflexivity|].
  exact (undecodable_first_image_fails_the_run (H := Fixtures.nearest)
           (H0 := Fixtures.keep_pixels) (mem := Fixtures.frugal) Samples.garbled_service
           "gemini-2.5-flash-image" "assets/adaptive-icon.png"
           Fixtures.icon Samples.garbled_reply Samples.garbage_data
           (ExternalError "cannot identify image file")
           eq_refl eq_refl eq_refl eq_refl []).
Defined.

Lemma nothing_sent_without_key_or_icon_witness :
  FeatureGraphic.find_icon Samples.no_icon_files = None /\
  FeatureGraphic.exit_code (H := Fixtures.nearest) (H0 := Fixtures.keep_pixels)
        (mem := Fixtures.frugal)
    Samples.no_icon_files = 1 /\
  GraphicTrace.banner_requests
    (FeatureGraphic.trace (H := Fixtures.nearest) (H0 := Fixtures.keep_pixels)
          (mem := Fixtures.frugal)
       Samples.no_icon_files) = [].
Proof.
  split; [reflexivity|].
  destruct (nothing_sent_without_key_or_icon (H := Fixtures.nearest)
              (H0 := Fixtures.keep_pixels)
                    (mem := Fixtures.frugal) Samples.no_icon_files (or_intror eq_refl))
    as (Hexit & _ & Hreq & _).
  split; [exact Hexit|exact Hreq].
Defined.

Lemma banner_request_goes_to_first_answering_model_witness :
  (FeatureGraphic.api_key_missing (FeatureGraphic.GOOGLE_API_KEY Samples.generous_service)
     = false /\
   FeatureGraphic.find_icon Samples.generous_service
     = Some "assets/adaptive-icon.png"%string) /\
  FeatureGraphic.path_exists Samples.generous_service "assets/adaptive-icon.png" = true /\
  In (FeatureGraphic.Mkdir FeatureGraphic.OUTPUT_DIR)
     (FeatureGraphic.trace (H := Fixtures.nearest) (H0 := Fixtures.keep_pixels)
           (mem := Fixtures.frugal)
        Samples.generous_service).
Proof.
  split; [split; reflexivity|].
  destruct (banner_request_goes_to_first_answering_model (H := Fixtures.nearest)
              (H0 := Fixtures.keep_pixels) (mem := Fixtures.frugal) Samples.generous_service
              "assets/adaptive-icon.png" eq_refl eq_refl)
    as (Hpath & _ & Hmkdir & _).
  split; [exact Hpath|exact Hmkdir].
Defined.
